(** * Tailoring shop back end: accounts, cart and order workflow

    A shallow embedding of the Express/Mongoose server of the repository
    (the server part of [src/frontend/js/api.js], and the earlier server
    kept in the tree, [src/unnamed/part_001]) together with the properties
    its specification states about it.

    Modelling conventions.
    - A MongoDB collection is a [list] of documents; [findOne] returns the
      first document that matches, [save] of a new document appends.
    - An [ObjectId] is its canonical hexadecimal rendering, a [string]; the
      references a client sends are in that rendering (which is what the
      API returns to it).
    - JavaScript numbers that the handlers compute with (prices, quantities,
      totals, milliseconds) are integers, [Z].
    - Every route handler is a computation in a small monad with state, an
      exception ([throw], what a rejected [await] does) and an early
      [return res...].  The store is an in-memory value: a read never
      fails, a [save] fails only through schema validation or a unique
      index, and the two secondary effects of order placement and the mail
      transport take their outcome from the request's environment.
    - Strings are ASCII; [toLowerCase] and [trim] are the ASCII ones.
    - The part "Requests as they arrive" gives the order, login and cart
      routes on what a JSON body can hold besides: references that are not
      in the canonical rendering or are no ids at all (the cast of the
      driver is a parameter, [Driver]), quantities that are not whole
      numbers (rationals, [Q]), passwords that are not strings, and a save
      of an order between whose count and insert other saves land.  The
      properties of the first part that depend on the conventions above
      say so in their statements. *)

From Stdlib Require Import String Ascii List ZArith Lia Bool Arith.
From Stdlib Require Import DecimalString DecimalN.
From Stdlib Require Import Permutation Sorted.
From Stdlib Require OrdersEx.
From Stdlib Require Import QArith.
Import ListNotations.

#[local] Open Scope string_scope.
#[local] Open Scope Z_scope.

(** ** Strings *)

Definition lower_ascii (c : ascii) : ascii :=
  let n := nat_of_ascii c in
  if (65 <=? n)%nat && (n <=? 90)%nat then ascii_of_nat (n + 32) else c.

(** [String.prototype.toLowerCase] *)
Fixpoint toLowerCase (s : string) : string :=
  match s with
  | EmptyString => EmptyString
  | String c r => String (lower_ascii c) (toLowerCase r)
  end.

Definition is_space (c : ascii) : bool :=
  let n := nat_of_ascii c in
  (n =? 32)%nat || ((9 <=? n)%nat && (n <=? 13)%nat).

Fixpoint trimStart (s : string) : string :=
  match s with
  | EmptyString => EmptyString
  | String c r => if is_space c then trimStart r else s
  end.

Fixpoint trimEnd (s : string) : string :=
  match s with
  | EmptyString => EmptyString
  | String c r =>
      match trimEnd r with
      | EmptyString => if is_space c then EmptyString else String c EmptyString
      | r' => String c r'
      end
  end.

(** [String.prototype.trim] *)
Definition trim (s : string) : string := trimEnd (trimStart s).

Fixpoint replicate (n : nat) (c : ascii) : string :=
  match n with
  | O => EmptyString
  | S k => String c (replicate k c)
  end.

(** [String.prototype.padStart] with a one-character filler *)
Definition padStart (width : nat) (c : ascii) (s : string) : string :=
  replicate (width - String.length s) c ++ s.

(** [String(n)] for a non-negative integer *)
Definition String_of (n : Z) : string :=
  NilZero.string_of_uint (N.to_uint (Z.to_N n)).

(** ** Documents *)

Definition ObjectId := string.

(** The JSON object left of a request body once the named fields are taken
    out ([...otherFields]). *)
Definition Fields := list (string * string).

Fixpoint field (k : string) (o : Fields) : option string :=
  match o with
  | [] => None
  | (k', v) :: r => if String.eqb k k' then Some v else field k r
  end.

Record User := mkUser {
  user_id : ObjectId;
  username : string;
  email : string;
  password : string;
  profile : Fields;
  user_isActive : bool;
  lastLogin : option Z;
  user_updatedAt : Z
}.

Record Product := mkProduct {
  product_id : ObjectId;
  name : string;
  price : Z;
  product_isActive : bool
}.

Record CartLine := mkCartLine {
  productId : ObjectId;
  quantity : Z;
  addedAt : Z
}.

Record Cart := mkCart {
  cart_userId : ObjectId;
  cart_products : list CartLine;
  cart_updatedAt : Z
}.

(** One element of [products] in the body of POST /api/orders: whatever
    the client sent.  [item_price] is a client-side price, if it sent one. *)
Record Item := mkItem {
  item_productId : ObjectId;
  item_quantity : Z;
  item_price : option Z;
  item_measurements : Fields
}.

Record OrderLine := mkOrderLine {
  line_productId : ObjectId;
  line_quantity : Z;
  line_price : Z;
  line_measurements : Fields
}.

Record Address := mkAddress {
  addr_name : string;
  addr_phone : string;
  addr_pincode : string;
  addr_address : string
}.

Record Order := mkOrder {
  order_id : ObjectId;
  order_userId : ObjectId;
  orderNumber : string;
  order_products : list OrderLine;
  deliveryAddress : Address;
  paymentMethod : string;
  totalAmount : Z;
  order_deliveryCharge : Z;
  order_status : string;
  estimatedDelivery : option Z;
  orderDate : Z
}.

Record PasswordReset := mkPasswordReset {
  reset_email : string;
  reset_token : string;
  reset_createdAt : Z
}.

Record Mail := mkMail {
  mail_to : string;
  mail_subject : string
}.

(** ** The store and what a request sees of the outside *)

Record World := mkWorld {
  users : list User;
  products : list Product;
  orders : list Order;
  carts : list Cart;
  passwordResets : list PasswordReset;
  outbox : list Mail;
  console : list string
}.

Definition empty_world : World := mkWorld [] [] [] [] [] [] [].

Definition set_users (f : list User -> list User) (w : World) : World :=
  mkWorld (f (users w)) (products w) (orders w) (carts w) (passwordResets w)
          (outbox w) (console w).
Definition set_orders (f : list Order -> list Order) (w : World) : World :=
  mkWorld (users w) (products w) (f (orders w)) (carts w) (passwordResets w)
          (outbox w) (console w).
Definition set_carts (f : list Cart -> list Cart) (w : World) : World :=
  mkWorld (users w) (products w) (orders w) (f (carts w)) (passwordResets w)
          (outbox w) (console w).
Definition set_passwordResets
  (f : list PasswordReset -> list PasswordReset) (w : World) : World :=
  mkWorld (users w) (products w) (orders w) (carts w) (f (passwordResets w))
          (outbox w) (console w).
Definition set_outbox (f : list Mail -> list Mail) (w : World) : World :=
  mkWorld (users w) (products w) (orders w) (carts w) (passwordResets w)
          (f (outbox w)) (console w).
Definition set_console (f : list string -> list string) (w : World) : World :=
  mkWorld (users w) (products w) (orders w) (carts w) (passwordResets w)
          (outbox w) (f (console w)).

(** The conditions of one request: the clock, the identifier the driver
    gives a new document, the protocol and host of the request, whether
    [NODE_ENV] is ['development'],
    and whether the cart write of order placement and the mail transport
    work. *)
Record Env := mkEnv {
  now : Z;
  fresh_id : ObjectId;
  req_protocol : string;
  req_host : string;
  development : bool;
  cart_clear_fails : bool;
  mail_fails : bool
}.

(** ** Responses *)

Inductive Body :=
| ErrorBody (error : string)
| ValidationFailed (details : list string)
| MessageBody (message : string)
| LoginBody (message token : string) (id : ObjectId)
            (uname mail firstname lastname : option string)
| ResetLinkBody (message : string) (resetLink : option string)
| OrderBody (message : string) (orderId : ObjectId) (number : string)
| LegacyOrderBody (message : string) (orderId : ObjectId).

Record Response := mkResponse {
  status : Z;
  body : Body
}.

(** ** The handler monad *)

Inductive Exn :=
| ValidationError (path : string)
| DuplicateKey (path : string)
| TypeError (what : string)
| CastError (path : string)
| JsonWebTokenError
| TransportError.

Inductive Completion (A : Type) :=
| Normal (a : A)
| Return (r : Response)
| Throw (e : Exn).
Arguments Normal {A} a.
Arguments Return {A} r.
Arguments Throw {A} e.

Definition Handler (A : Type) := World -> Completion A * World.

Definition pure {A} (a : A) : Handler A := fun w => (Normal a, w).

Definition bind {A B} (m : Handler A) (k : A -> Handler B) : Handler B :=
  fun w =>
    match m w with
    | (Normal a, w') => k a w'
    | (Return r, w') => (Return r, w')
    | (Throw e, w') => (Throw e, w')
    end.

Declare Scope handler_scope.
Delimit Scope handler_scope with handler.
Notation "x <- m ;; k" := (bind m (fun x => k))
  (at level 61, m at next level, right associativity) : handler_scope.
Notation "m ;; k" := (bind m (fun _ => k))
  (at level 61, right associativity) : handler_scope.
Notation "' pat <- m ;; k" := (bind m (fun x => match x with pat => k end))
  (at level 61, pat pattern, m at next level, right associativity)
  : handler_scope.
#[local] Open Scope handler_scope.

(** [return res.status(s).json(b)], and [res.json(b)] as a last statement *)
Definition respond {A} (s : Z) (b : Body) : Handler A :=
  fun w => (Return (mkResponse s b), w).

Definition throw {A} (e : Exn) : Handler A := fun w => (Throw e, w).

Definition get_world : Handler World := fun w => (Normal w, w).

Definition modify (f : World -> World) : Handler unit :=
  fun w => (Normal tt, f w).

(** [try { m } catch (e) { h e }]: a [return] inside [m] leaves the function *)
Definition try_catch {A} (m : Handler A) (h : Exn -> Handler A) : Handler A :=
  fun w =>
    match m w with
    | (Throw e, w') => h e w'
    | r => r
    end.

(** [console.error(tag, error)] and [console.log(tag, ...)] *)
Definition console_log (tag : string) : Handler unit :=
  modify (set_console (fun l => (l ++ [tag])%list)).

(** What the client of a route gets: the response the handler sent. An
    exception that escapes a handler reaches the global error handler. *)
Definition route (m : Handler unit) (w : World) : Response * World :=
  match m w with
  | (Return r, w') => (r, w')
  | (Normal _, w') => (mkResponse 200 (MessageBody EmptyString), w')
  | (Throw _, w') => (mkResponse 500 (ErrorBody "Something went wrong!"), w')
  end.

(** ** Collections *)

(** [Array.prototype.findIndex]; [None] is the source's [-1] *)
Fixpoint findIndex {A} (f : A -> bool) (l : list A) : option nat :=
  match l with
  | [] => None
  | x :: r => if f x then Some O else option_map S (findIndex f r)
  end.

(** [Model.findOne(filter)]: the first matching document with its place in
    the collection, which is where a later [save] of it writes. *)
Definition findOne {A} (f : A -> bool) (l : list A) : option (nat * A) :=
  match findIndex f l with
  | Some i => option_map (pair i) (nth_error l i)
  | None => None
  end.

(** [l[i] = g(l[i])] *)
Fixpoint update_nth {A} (i : nat) (g : A -> A) (l : list A) : list A :=
  match l, i with
  | [], _ => []
  | x :: r, O => g x :: r
  | x :: r, S k => x :: update_nth k g r
  end.

(** [l.splice(i, 1)] *)
Fixpoint remove_nth {A} (i : nat) (l : list A) : list A :=
  match l, i with
  | [], _ => []
  | _ :: r, O => r
  | x :: r, S k => x :: remove_nth k r
  end.

Definition is_product (id : ObjectId) (p : Product) : bool :=
  String.eqb (product_id p) id.

(** [Product.findById(id)] *)
Definition Product_findById (id : ObjectId) : Handler (option Product) :=
  w <- get_world ;; pure (find (is_product id) (products w)).

Definition cart_of (userId : ObjectId) (c : Cart) : bool :=
  String.eqb (cart_userId c) userId.

(** [Cart.findOne({ userId })] *)
Definition Cart_findOne (userId : ObjectId) : Handler (option (nat * Cart)) :=
  w <- get_world ;; pure (findOne (cart_of userId) (carts w)).

(** The cart schema: [quantity: { type: Number, default: 1, min: 1 }] *)
Definition cart_valid (c : Cart) : bool :=
  forallb (fun l => 1 <=? quantity l) (cart_products c).

(** [cart.save()]: validation, then the document is written where it was
    found, or inserted when it is a new one. *)
Definition Cart_save (slot : option nat) (c : Cart) : Handler unit :=
  if cart_valid c then
    modify (set_carts (fun cs =>
      match slot with
      | Some i => update_nth i (fun _ => c) cs
      | None => (cs ++ [c])%list
      end))
  else throw (ValidationError "products.quantity").

(** ** Cart routes *)

(** [p => p.productId.toString() === productId] *)
Definition is_line (pid : ObjectId) (p : CartLine) : bool :=
  String.eqb (productId p) pid.

Definition add_quantity (q : Z) (p : CartLine) : CartLine :=
  mkCartLine (productId p) (quantity p + q) (addedAt p).

Definition set_quantity (q : Z) (p : CartLine) : CartLine :=
  mkCartLine (productId p) q (addedAt p).

Definition internal_error (tag : string) (e : Exn) : Handler unit :=
  console_log tag ;; respond 500 (ErrorBody "Internal server error").

(** The body of the add route between reading the cart and saving it:
    [find], then [existingProduct.quantity += quantity] or [push]. *)
Definition add_line (t : Z) (pid : ObjectId) (q : Z) (ps : list CartLine)
  : list CartLine :=
  match findIndex (is_line pid) ps with
  | Some i => update_nth i (add_quantity q) ps
  | None => (ps ++ [mkCartLine pid q t])%list
  end.

(** POST /api/cart/add, for the authenticated user [userId];
    [qty = None] is a body without [quantity] (default 1). *)
Definition post_cart_add (env : Env) (userId pid : ObjectId) (qty : option Z)
  : World -> Response * World :=
  route (try_catch
    (let quantity := match qty with Some q => q | None => 1 end in
     product <- Product_findById pid ;;
     match product with
     | None => respond 404 (ErrorBody "Product not found")
     | Some p =>
       if negb (product_isActive p)
       then respond 404 (ErrorBody "Product not found")
       else
         found <- Cart_findOne userId ;;
         let slot := option_map fst found in
         let cart := match found with
                     | Some (_, c) => c
                     | None => mkCart userId [] (now env)
                     end in
         let cart :=
           mkCart (cart_userId cart)
                  (add_line (now env) pid quantity (cart_products cart))
                  (now env) in
         Cart_save slot cart ;;
         respond 200 (MessageBody "Product added to cart successfully")
     end)
    (internal_error "Add to cart error:")).

(** PUT /api/cart/update *)
Definition put_cart_update (env : Env) (userId pid : ObjectId) (quantity : Z)
  : World -> Response * World :=
  route (try_catch
    (found <- Cart_findOne userId ;;
     match found with
     | None => respond 404 (ErrorBody "Cart not found")
     | Some (slot, cart) =>
       match findIndex (is_line pid) (cart_products cart) with
       | None => respond 404 (ErrorBody "Product not found in cart")
       | Some productIndex =>
         let ps := if quantity <=? 0
                   then remove_nth productIndex (cart_products cart)
                   else update_nth productIndex (set_quantity quantity)
                                   (cart_products cart) in
         Cart_save (Some slot) (mkCart (cart_userId cart) ps (now env)) ;;
         respond 200 (MessageBody "Cart updated successfully")
       end
     end)
    (internal_error "Update cart error:")).

(** DELETE /api/cart/remove/:productId *)
Definition delete_cart_remove (env : Env) (userId pid : ObjectId)
  : World -> Response * World :=
  route (try_catch
    (found <- Cart_findOne userId ;;
     match found with
     | None => respond 404 (ErrorBody "Cart not found")
     | Some (slot, cart) =>
       let ps :=
         filter (fun p => negb (is_line pid p)) (cart_products cart) in
       Cart_save (Some slot) (mkCart (cart_userId cart) ps (now env)) ;;
       respond 200 (MessageBody "Product removed from cart successfully")
     end)
    (internal_error "Remove from cart error:")).

(** ** Order placement *)

(** The body of POST /api/orders. [body_totalAmount] is the total the
    client computed. *)
Record OrderRequest := mkOrderRequest {
  body_products : list Item;
  body_deliveryAddress : Address;
  body_paymentMethod : string;
  body_totalAmount : option Z
}.

(** [{ ...item, price: product.price }] *)
Definition order_line (item : Item) (p : Product) : OrderLine :=
  mkOrderLine (item_productId item) (item_quantity item) (price p)
              (item_measurements item).

(** The loop [for (const item of products)], with the two accumulators
    [calculatedTotal] and [orderProducts]. *)
Fixpoint validate_items (items : list Item) (calculatedTotal : Z)
         (orderProducts : list OrderLine) : Handler (Z * list OrderLine) :=
  match items with
  | [] => pure (calculatedTotal, orderProducts)
  | item :: rest =>
    product <- Product_findById (item_productId item) ;;
    match product with
    | None =>
      respond 400
        (ErrorBody ("Product " ++ item_productId item ++ " not found"))
    | Some p =>
      if negb (product_isActive p)
      then respond 400
             (ErrorBody ("Product " ++ item_productId item ++ " not found"))
      else
        let itemTotal := price p * item_quantity item in
        validate_items rest (calculatedTotal + itemTotal)
                       (orderProducts ++ [order_line item p])%list
    end
  end.

Definition payment_methods : list string :=
  ["Cash on Delivery"; "Credit/Debit Card"; "UPI"].

Definition nonempty (s : string) : bool := negb (String.eqb s EmptyString).

(** The order schema: [min: 1] on quantities, the required address fields,
    the [enum] of payment methods. *)
Definition order_valid (o : Order) : bool :=
  forallb (fun l => 1 <=? line_quantity l) (order_products o)
  && nonempty (addr_name (deliveryAddress o))
  && nonempty (addr_phone (deliveryAddress o))
  && nonempty (addr_pincode (deliveryAddress o))
  && nonempty (addr_address (deliveryAddress o))
  && existsb (String.eqb (paymentMethod o)) payment_methods.

Definition set_orderNumber (n : string) (o : Order) : Order :=
  mkOrder (order_id o) (order_userId o) n (order_products o)
          (deliveryAddress o) (paymentMethod o) (totalAmount o)
          (order_deliveryCharge o) (order_status o) (estimatedDelivery o)
          (orderDate o).

(** [`ORD${Date.now()}${String(count + 1).padStart(4, '0')}`] *)
Definition order_number (t count : Z) : string :=
  "ORD" ++ String_of t ++ padStart 4 "0" (String_of (count + 1)).

(** [mongoose.model('Order').countDocuments()] *)
Definition Order_countDocuments : Handler Z :=
  w <- get_world ;; pure (Z.of_nat (List.length (orders w))).

(** [orderSchema.pre('save', ...)]; an unset [orderNumber] is the empty
    string *)
Definition pre_save (env : Env) (o : Order) : Handler Order :=
  if negb (nonempty (orderNumber o)) then
    count <- Order_countDocuments ;;
    pure (set_orderNumber (order_number (now env) count) o)
  else pure o.

Definition has_number (n : string) (o : Order) : bool :=
  String.eqb (orderNumber o) n.

(** The insert, under the unique index of
    [orderNumber: { type: String, unique: true }]. *)
Definition Order_insert (o : Order) : Handler unit :=
  w <- get_world ;;
  if existsb (has_number (orderNumber o)) (orders w)
  then throw (DuplicateKey "orderNumber")
  else modify (set_orders (fun os => (os ++ [o])%list)).

(** [order.save()]: validation, the pre-save hook, the insert *)
Definition Order_save (env : Env) (o : Order) : Handler Order :=
  if order_valid o then
    o' <- pre_save env o ;;
    Order_insert o' ;;
    pure o'
  else throw (ValidationError "order").

Definition clear_cart (t : Z) (c : Cart) : Cart := mkCart (cart_userId c) [] t.

(** [Cart.findOneAndUpdate({ userId }, { products: [], updatedAt })] *)
Definition Cart_clear (env : Env) (userId : ObjectId) : Handler unit :=
  if cart_clear_fails env then throw TransportError
  else
    modify (set_carts (fun cs =>
      match findIndex (cart_of userId) cs with
      | Some i => update_nth i (clear_cart (now env)) cs
      | None => cs
      end)).

(** [transporter.sendMail] *)
Definition sendMail (env : Env) (m : Mail) : Handler unit :=
  if mail_fails env then throw TransportError
  else modify (set_outbox (fun l => (l ++ [m])%list)).

Definition is_user_id (id : ObjectId) (u : User) : bool :=
  String.eqb (user_id u) id.

(** [User.findById(id)] *)
Definition User_findById (id : ObjectId) : Handler (option User) :=
  w <- get_world ;; pure (find (is_user_id id) (users w)).

Definition deliveryCharge : Z := 3.

Definition five_days : Z := 5 * 24 * 60 * 60 * 1000.

(** POST /api/orders *)
Definition post_orders (env : Env) (userId : ObjectId) (req : OrderRequest)
  : World -> Response * World :=
  route (try_catch
    ('(calculatedTotal, orderProducts) <-
        validate_items (body_products req) 0 [] ;;
     let calculatedTotal := calculatedTotal + deliveryCharge in
     order <- Order_save env
       (mkOrder (fresh_id env) userId EmptyString orderProducts
                (body_deliveryAddress req) (body_paymentMethod req)
                calculatedTotal deliveryCharge "Placed"
                (Some (now env + five_days)) (now env)) ;;
     Cart_clear env userId ;;
     try_catch
       (user <- User_findById userId ;;
        match user with
        | None => throw (TypeError "user is null")
        | Some u =>
          sendMail env
            (mkMail (email u) ("Order Confirmation - " ++ orderNumber order))
        end)
       (fun _ => console_log "Order confirmation email failed:") ;;
     respond 201 (OrderBody "Order placed successfully" (order_id order)
                            (orderNumber order)))
    (internal_error "Create order error:")).

(** ** Accounts *)

(** The functions of bcryptjs, jsonwebtoken (with the server's secret) and
    express-validator that the routes call.  [jwt_sign payload ttl t] signs
    at time [t] a token that lives [ttl] seconds.  A token carries its
    payload and its expiry: [jwt_decode] is [None] on a token this server
    did not sign. *)
Class Libraries := {
  bcrypt_hash : string -> Z -> string;
  bcrypt_compare : string -> string -> bool;
  jwt_sign : Fields -> Z -> Z -> string;
  jwt_decode : string -> option (Fields * Z);
  isEmail : string -> bool;
  normalizeEmail : string -> string;
  isMobilePhone : string -> bool
}.

(** [jwt.verify(token, JWT_SECRET)] at time [t]; [None] where it throws *)
Definition jwt_verify {L : Libraries} (token : string) (t : Z)
  : option Fields :=
  match jwt_decode token with
  | Some (payload, exp) => if t <? exp then Some payload else None
  | None => None
  end.

(** An instance to run the routes on concrete requests. *)
Definition demo_libraries : Libraries := {|
  bcrypt_hash := fun p _ => "$2a$" ++ p;
  bcrypt_compare := fun p h => String.eqb ("$2a$" ++ p) h;
  jwt_sign := fun payload _ t =>
    match field "email" payload with
    | Some e => "reset:" ++ e
    | None => "login"
    end;
  jwt_decode := fun token =>
    match token with
    | String "r" (String "e" (String "s" (String "e" (String "t"
        (String ":" e))))) =>
      Some ([("email", e)], 1700003600000)
    | _ => None
    end;
  isEmail := fun e => nonempty e;
  normalizeEmail := toLowerCase;
  isMobilePhone := fun p => nonempty p
|}.

Record RegisterRequest := mkRegisterRequest {
  reg_username : string;
  reg_email : string;
  reg_password : string;
  reg_other : Fields
}.

Definition field_or_empty (k : string) (o : Fields) : string :=
  match field k o with Some v => v | None => EmptyString end.

Fixpoint set_field (k v : string) (o : Fields) : Fields :=
  match o with
  | [] => []
  | (k', v') :: r =>
    if String.eqb k k' then (k', v) :: r else (k', v') :: set_field k v r
  end.

Definition is_user_name (n : string) (u : User) : bool :=
  String.eqb (username u) n.
Definition is_user_email (e : string) (u : User) : bool :=
  String.eqb (email u) e.

(** [users.findOneAndUpdate({ email }, { password, updatedAt })] *)
Definition set_password (h : string) (t : Z) (u : User) : User :=
  mkUser (user_id u) (username u) (email u) h (profile u) (user_isActive u)
         (lastLogin u) t.

Definition set_lastLogin (t : Z) (u : User) : User :=
  mkUser (user_id u) (username u) (email u) (password u) (profile u)
         (user_isActive u) (Some t) (user_updatedAt u).

Definition required_profile : list string :=
  ["firstname"; "lastname"; "state"; "district"; "mandal"; "pincode";
   "address1"; "address2"; "phone"; "alternatePhone"].

(** The user schema: the required fields and [minlength: 6] *)
Definition user_valid (u : User) : bool :=
  forallb (fun k => nonempty (trim (field_or_empty k (profile u))))
          required_profile
  && nonempty (username u) && nonempty (email u)
  && (6 <=? String.length (password u))%nat.

(** [user.save()] of a new user, under the unique indexes of [username]
    and [email]. *)
Definition User_insert (u : User) : Handler unit :=
  if user_valid u then
    w <- get_world ;;
    if existsb (is_user_name (username u)) (users w)
    then throw (DuplicateKey "username")
    else if existsb (is_user_email (email u)) (users w)
    then throw (DuplicateKey "email")
    else modify (set_users (fun us => (us ++ [u])%list))
  else throw (ValidationError "user").

Definition is_reset_email (e : string) (r : PasswordReset) : bool :=
  String.eqb (reset_email r) e.

(** The filter [{ email, token }] with [email] taken from the decoded
    token; a token without [email] matches no ticket. *)
Definition is_reset (e : option string) (token : string) (r : PasswordReset)
  : bool :=
  match e with
  | Some e => String.eqb (reset_email r) e && String.eqb (reset_token r) token
  | None => false
  end.

(** [PasswordReset.findOneAndUpdate({ email }, { token }, { upsert: true })] *)
Definition PasswordReset_upsert (t : Z) (e token : string) : Handler unit :=
  modify (set_passwordResets (fun rs =>
    match findIndex (is_reset_email e) rs with
    | Some i =>
      update_nth i (fun r => mkPasswordReset (reset_email r) token
                                             (reset_createdAt r)) rs
    | None => (rs ++ [mkPasswordReset e token t])%list
    end)).

(** [PasswordReset.deleteOne(filter)] *)
Definition deleteOne {A} (f : A -> bool) (l : list A) : list A :=
  match findIndex f l with
  | Some i => remove_nth i l
  | None => l
  end.

(** The TTL index [expires: 3600] on [createdAt]: what the database drops
    in the background at time [t]. *)
Definition ttl_sweep (t : Z) (w : World) : World :=
  set_passwordResets
    (filter (fun r => t <? reset_createdAt r + 3600 * 1000)) w.

Section Accounts.
Context {L : Libraries}.

(** The chain [validateRegistration]: the messages of the validators that
    fail, on the body as the sanitizers before them left it. *)
Definition registration_errors (req : RegisterRequest) : list string :=
  (if (2 <=? String.length (trim (field_or_empty "firstname" (reg_other req))))%nat
   then [] else ["First name must be at least 2 characters"])
  ++ (if (2 <=? String.length (trim (field_or_empty "lastname" (reg_other req))))%nat
      then [] else ["Last name must be at least 2 characters"])
  ++ (if (3 <=? String.length (trim (reg_username req)))%nat
      then [] else ["Username must be at least 3 characters"])
  ++ (if isEmail (reg_email req)
      then [] else ["Please provide a valid email"])
  ++ (if (6 <=? String.length (reg_password req))%nat
      then [] else ["Password must be at least 6 characters"])
  ++ (if isMobilePhone (field_or_empty "phone" (reg_other req))
      then [] else ["Please provide a valid phone number"]).

(** The body after the sanitizers [trim()] and [normalizeEmail()]. *)
Definition sanitize_registration (req : RegisterRequest) : RegisterRequest :=
  mkRegisterRequest
    (trim (reg_username req))
    (normalizeEmail (reg_email req))
    (reg_password req)
    (set_field "firstname" (trim (field_or_empty "firstname" (reg_other req)))
      (set_field "lastname" (trim (field_or_empty "lastname" (reg_other req)))
        (reg_other req))).

(** [handleValidationErrors] in front of a handler *)
Definition validated (errors : list string) (h : World -> Response * World)
  : World -> Response * World :=
  match errors with
  | [] => h
  | _ => fun w => (mkResponse 400 (ValidationFailed errors), w)
  end.

(** The handler of POST /api/auth/register, on the sanitized body *)
Definition register_handler (env : Env) (req : RegisterRequest)
  : World -> Response * World :=
  route (try_catch
    (w <- get_world ;;
     let existingUser :=
       find (fun u => is_user_name (toLowerCase (reg_username req)) u
                      || is_user_email (toLowerCase (reg_email req)) u)
            (users w) in
     match existingUser with
     | Some _ => respond 400 (ErrorBody "Username or email already exists")
     | None =>
       let hashedPassword := bcrypt_hash (reg_password req) 12 in
       let user := mkUser (fresh_id env) (toLowerCase (reg_username req))
                          (toLowerCase (reg_email req)) hashedPassword
                          (reg_other req) true None (now env) in
       User_insert user ;;
       try_catch
         (sendMail env (mkMail (email user) "Welcome to Rudra Tailoring Shop!"))
         (fun _ => console_log "Email sending failed:") ;;
       respond 201 (MessageBody "User registered successfully")
     end)
    (internal_error "Registration error:")).

(** The user document the registration handler builds *)
Definition new_user (env : Env) (req : RegisterRequest) : User :=
  mkUser (fresh_id env) (toLowerCase (reg_username req))
         (toLowerCase (reg_email req)) (bcrypt_hash (reg_password req) 12)
         (reg_other req) true None (now env).

(** POST /api/auth/register *)
Definition post_auth_register (env : Env) (req : RegisterRequest)
  : World -> Response * World :=
  validated (registration_errors req)
            (register_handler env (sanitize_registration req)).

(** The chain [validateLogin] *)
Definition login_errors (uname pass : string) : list string :=
  (if nonempty (trim uname) then [] else ["Username is required"])
  ++ (if nonempty pass then [] else ["Password is required"]).

(** The handler of POST /api/auth/login, on the sanitized body *)
Definition login_handler (env : Env) (uname pass : string)
  : World -> Response * World :=
  route (try_catch
    (w <- get_world ;;
     let user := findOne (fun u => is_user_name (toLowerCase uname) u
                                   && user_isActive u) (users w) in
     match user with
     | None => respond 400 (ErrorBody "Invalid credentials")
     | Some (slot, user) =>
       if negb (bcrypt_compare pass (password user))
       then respond 400 (ErrorBody "Invalid credentials")
       else
         let user := set_lastLogin (now env) user in
         modify (set_users (update_nth slot (fun _ => user))) ;;
         let token := jwt_sign [("userId", user_id user);
                                ("username", username user)]
                               (24 * 3600) (now env) in
         respond 200 (LoginBody "Login successful" token (user_id user)
                        (Some (username user)) (Some (email user))
                        (field "firstname" (profile user))
                        (field "lastname" (profile user)))
     end)
    (internal_error "Login error:")).

(** POST /api/auth/login *)
Definition post_auth_login (env : Env) (uname pass : string)
  : World -> Response * World :=
  validated (login_errors uname pass) (login_handler env (trim uname) pass).

(** POST /api/auth/forgot-password *)
Definition post_auth_forgot_password (env : Env) (mail : string)
  : World -> Response * World :=
  route (try_catch
    (w <- get_world ;;
     match find (is_user_email (toLowerCase mail)) (users w) with
     | None => respond 400 (ErrorBody "User with this email does not exist")
     | Some user =>
       let resetToken :=
         jwt_sign [("email", toLowerCase mail)] 3600 (now env) in
       PasswordReset_upsert (now env) (toLowerCase mail) resetToken ;;
       let resetLink :=
         req_protocol env ++ "://" ++ req_host env
         ++ "/reset_password.html?token="
         ++ resetToken in
       try_catch
         (sendMail env
            (mkMail mail "Password Reset Request - Rudra Tailoring Shop"))
         (fun _ => console_log "Email sending failed:") ;;
       respond 200 (ResetLinkBody "Password reset link sent to your email"
                      (if development env then Some resetLink else None))
     end)
    (internal_error "Forgot password error:")).

(** POST /api/auth/reset-password *)
Definition post_auth_reset_password (env : Env) (token newPassword : string)
  : World -> Response * World :=
  route (try_catch
    (if (String.length newPassword <? 6)%nat
     then respond 400 (ErrorBody "Password must be at least 6 characters long")
     else
       match jwt_verify token (now env) with
       | None => throw JsonWebTokenError
       | Some decoded =>
         let mail := field "email" decoded in
         w <- get_world ;;
         match find (is_reset mail token) (passwordResets w) with
         | None => respond 400 (ErrorBody "Invalid or expired reset token")
         | Some resetRecord =>
           let hashedPassword := bcrypt_hash newPassword 12 in
           modify (set_users (fun us =>
             match mail with
             | Some e =>
               match findIndex (is_user_email e) us with
               | Some i => update_nth i (set_password hashedPassword (now env)) us
               | None => us
               end
             | None => us
             end)) ;;
           modify (set_passwordResets (deleteOne (is_reset mail token))) ;;
           respond 200 (MessageBody "Password reset successfully")
         end
       end)
    (fun _ => console_log "Reset password error:" ;;
              respond 500 (ErrorBody "Invalid or expired token"))).

End Accounts.

(** [delete updates.password; delete updates.username; delete updates.email] *)
Definition strip_credentials (updates : Fields) : Fields :=
  filter (fun kv => negb (String.eqb (fst kv) "password"
                          || String.eqb (fst kv) "username"
                          || String.eqb (fst kv) "email")) updates.

(** [$set] of the fields of [updates] on a profile *)
Fixpoint assign (updates o : Fields) : Fields :=
  match updates with
  | [] => o
  | (k, v) :: r =>
    assign r (match field k o with
              | Some _ => set_field k v o
              | None => (o ++ [(k, v)])%list
              end)
  end.

(** PUT /api/user/profile *)
Definition put_user_profile (env : Env) (userId : ObjectId) (updates : Fields)
  : World -> Response * World :=
  route (try_catch
    (let updates := strip_credentials updates in
     modify (set_users (fun us =>
       match findIndex (is_user_id userId) us with
       | Some i =>
         update_nth i (fun u =>
           mkUser (user_id u) (username u) (email u) (password u)
                  (assign updates (profile u)) (user_isActive u)
                  (lastLogin u) (now env)) us
       | None => us
       end)) ;;
     respond 200 (MessageBody "Profile updated successfully"))
    (internal_error "Update profile error:")).

(** ** The earlier server kept in the tree *)

Module Legacy.
Section Legacy.
Context {L : Libraries}.

(** POST /api/auth/register: no validation chain, no case folding *)
Definition register (env : Env) (req : RegisterRequest)
  : World -> Response * World :=
  route (try_catch
    (w <- get_world ;;
     let existingUser :=
       find (fun u => is_user_name (reg_username req) u
                      || is_user_email (reg_email req) u) (users w) in
     match existingUser with
     | Some _ => respond 400 (ErrorBody "Username or email already exists")
     | None =>
       let hashedPassword := bcrypt_hash (reg_password req) 10 in
       let user := mkUser (fresh_id env) (reg_username req) (reg_email req)
                          hashedPassword (reg_other req) true None (now env) in
       User_insert user ;;
       respond 201 (MessageBody "User registered successfully")
     end)
    (internal_error "Registration error:")).


End Legacy.

(** The earlier order schema has no [price] on a line and no
    [orderNumber], [deliveryCharge] or [estimatedDelivery]: they are [0],
    the empty string, [0] and [None] here.  [paymentMethod] and [totalAmount] are
    required. *)
Definition bare_line (item : Item) : OrderLine :=
  mkOrderLine (item_productId item) (item_quantity item) 0
              (item_measurements item).

(** POST /api/orders: the order is stored with the total the client sent *)
Definition place_order (env : Env) (userId : ObjectId) (req : OrderRequest)
  : World -> Response * World :=
  route (try_catch
    (match body_totalAmount req with
     | None => throw (ValidationError "totalAmount")
     | Some totalAmount =>
       if nonempty (body_paymentMethod req) then
         let order :=
           mkOrder (fresh_id env) userId EmptyString
                   (map bare_line (body_products req))
                   (body_deliveryAddress req) (body_paymentMethod req)
                   totalAmount 0 "Placed" None (now env) in
         modify (set_orders (fun os => (os ++ [order])%list)) ;;
         modify (set_carts (fun cs =>
           match findIndex (cart_of userId) cs with
           | Some i => update_nth i (fun c => mkCart (cart_userId c) []
                                                     (cart_updatedAt c)) cs
           | None => cs
           end)) ;;
         respond 201 (LegacyOrderBody "Order placed successfully"
                                      (order_id order))
       else throw (ValidationError "paymentMethod")
     end)
    (internal_error "Create order error:")).

End Legacy.

(** ** Saves of orders that overlap

    [order.save()] suspends twice: at [await countDocuments()] in the
    pre-save hook, and at the insert.  Between the suspension points of one
    save the event loop may run those of another.  A save in flight is at
    one of these stages; the database serves one operation at a time. *)

Inductive Save :=
| Validated (o : Order)
| Counted (o : Order) (count : Z)
| Numbered (o : Order)
| Inserted (o : Order)
| Rejected (o : Order) (e : Exn).

Record Server := mkServer {
  stored : list Order;
  inflight : list Save
}.

(** What the event loop does next: start the save of a new order, let the
    database answer the count of save [i], resume the hook of save [i] at
    time [t], or let the database run the insert of save [i]. *)
Inductive Event :=
| Begin (o : Order)
| Count (i : nat)
| Resume (i : nat) (t : Z)
| Insert (i : nat).

Definition begin (o : Order) : Save :=
  if order_valid o then
    if negb (nonempty (orderNumber o)) then Validated o else Numbered o
  else Rejected o (ValidationError "order").

Definition step (e : Event) (s : Server) : Server :=
  match e with
  | Begin o => mkServer (stored s) (inflight s ++ [begin o])
  | Count i =>
    match nth_error (inflight s) i with
    | Some (Validated o) =>
      mkServer (stored s)
        (update_nth i (fun _ => Counted o (Z.of_nat (List.length (stored s))))
                    (inflight s))
    | _ => s
    end
  | Resume i t =>
    match nth_error (inflight s) i with
    | Some (Counted o count) =>
      mkServer (stored s)
        (update_nth i
           (fun _ => Numbered (set_orderNumber (order_number t count) o))
           (inflight s))
    | _ => s
    end
  | Insert i =>
    match nth_error (inflight s) i with
    | Some (Numbered o) =>
      if existsb (has_number (orderNumber o)) (stored s)
      then mkServer (stored s)
             (update_nth i (fun _ => Rejected o (DuplicateKey "orderNumber"))
                         (inflight s))
      else mkServer (stored s ++ [o])
             (update_nth i (fun _ => Inserted o) (inflight s))
    | _ => s
    end
  end.

Fixpoint run (es : list Event) (s : Server) : Server :=
  match es with
  | [] => s
  | e :: r => run r (step e s)
  end.

(** ** Requests and the worlds the server can be in *)

Inductive Request :=
| Register (req : RegisterRequest)
| Login (uname pass : string)
| ForgotPassword (mail : string)
| ResetPassword (token newPassword : string)
| UpdateProfile (userId : ObjectId) (updates : Fields)
| CartAdd (userId pid : ObjectId) (qty : option Z)
| CartUpdate (userId pid : ObjectId) (qty : Z)
| CartRemove (userId pid : ObjectId)
| PlaceOrder (userId : ObjectId) (req : OrderRequest).

Definition serve {L : Libraries} (env : Env) (r : Request)
  : World -> Response * World :=
  match r with
  | Register req => post_auth_register env req
  | Login u p => post_auth_login env u p
  | ForgotPassword m => post_auth_forgot_password env m
  | ResetPassword t p => post_auth_reset_password env t p
  | UpdateProfile u f => put_user_profile env u f
  | CartAdd u p q => post_cart_add env u p q
  | CartUpdate u p q => put_cart_update env u p q
  | CartRemove u p => delete_cart_remove env u p
  | PlaceOrder u req => post_orders env u req
  end.

(** A catalog (seeded, or inserted by an administrator) and nothing else *)
Definition initial (w : World) : Prop :=
  users w = [] /\ orders w = [] /\ carts w = [] /\ passwordResets w = [].

(** The worlds reached by serving requests one after the other, the
    catalog changing and tickets expiring in between. *)
Inductive reachable {L : Libraries} : World -> Prop :=
| reach_initial w : initial w -> reachable w
| reach_serve env r w : reachable w -> reachable (snd (serve env r w))
| reach_catalog ps w :
    reachable w ->
    reachable (mkWorld (users w) ps (orders w) (carts w) (passwordResets w)
                       (outbox w) (console w))
| reach_expire t w : reachable w -> reachable (ttl_sweep t w).

(** Serving the requests of a list, in order *)
Fixpoint serve_all {L : Libraries} (rs : list (Env * Request)) (w : World)
  : World :=
  match rs with
  | [] => w
  | (env, r) :: rest => serve_all rest (snd (serve env r w))
  end.

(** A forgot-password request for the (case-folded) email [e] *)
Definition asks_ticket_for (e : string) (r : Request) : bool :=
  match r with
  | ForgotPassword m => String.eqb (toLowerCase m) e
  | _ => false
  end.

(** ** What the specification speaks of *)

Fixpoint sumZ (l : list Z) : Z :=
  match l with
  | [] => 0
  | x :: r => x + sumZ r
  end.

(** The live catalog price of a product reference *)
Definition catalog_price (w : World) (pid : ObjectId) : Z :=
  match find (is_product pid) (products w) with
  | Some p => price p
  | None => 0
  end.

(** The sum over all line items of (catalog price x quantity), plus the
    delivery charge *)
Definition spec_totalAmount (w : World) (items : list Item) : Z :=
  sumZ (map (fun i => catalog_price w (item_productId i) * item_quantity i)
            items) + 3.

(** The snapshot of a line item at the live catalog price *)
Definition snapshot (w : World) (i : Item) : OrderLine :=
  mkOrderLine (item_productId i) (item_quantity i)
              (catalog_price w (item_productId i)) (item_measurements i).

(** A line item whose product exists and is active *)
Definition available (w : World) (i : Item) : bool :=
  match find (is_product (item_productId i)) (products w) with
  | Some p => product_isActive p
  | None => false
  end.

(** The first line item that references no active product *)
Definition first_unavailable (w : World) (items : list Item) : option Item :=
  find (fun i => negb (available w i)) items.

(** The stored orders carry, in the order of their creation, the numbers
    that saves running one after the other give them, on a clock that
    renders in thirteen digits (as [Date.now()] does from 2001 to 2286). *)
Definition sequential_numbers (os : list Order) : Prop :=
  forall i o, nth_error os i = Some o ->
    exists t, String.length (String_of t) = 13%nat
              /\ orderNumber o = order_number t (Z.of_nat i).

(** No outstanding ticket for an email *)
Definition no_ticket_for (e : string) (w : World) : Prop :=
  forall r, In r (passwordResets w) -> reset_email r <> e.

(** No product reference twice in a cart *)
Definition no_duplicate (c : Cart) : Prop :=
  NoDup (map productId (cart_products c)).

Definition carts_ok (w : World) : Prop :=
  forall c, In c (carts w) -> no_duplicate c /\ cart_valid c = true.

(** At most one outstanding ticket per email *)
Definition one_ticket_per_email (w : World) : Prop :=
  NoDup (map reset_email (passwordResets w)).

(** Stored user names and emails are in lower case *)
Definition users_normalized (w : World) : Prop :=
  forall u, In u (users w) ->
    toLowerCase (username u) = username u /\ toLowerCase (email u) = email u.

Definition unique_numbers (os : list Order) : Prop :=
  NoDup (map orderNumber os).

(** The lines of the cart of a user; none when the user has no cart *)
Definition cart_lines (userId : ObjectId) (w : World) : list CartLine :=
  match findOne (cart_of userId) (carts w) with
  | Some (_, c) => cart_products c
  | None => []
  end.

(** The quantity stored for a product in a list of lines *)
Definition quantity_of (pid : ObjectId) (ps : list CartLine) : option Z :=
  option_map quantity (find (is_line pid) ps).

(** The order document the handler builds once every line item is
    resolved, before [save] gives it a number. *)
Definition new_order (env : Env) (userId : ObjectId) (req : OrderRequest)
  (w : World) : Order :=
  mkOrder (fresh_id env) userId EmptyString
          (map (snapshot w) (body_products req))
          (body_deliveryAddress req) (body_paymentMethod req)
          (spec_totalAmount w (body_products req)) deliveryCharge "Placed"
          (Some (now env + five_days)) (now env).

Definition log (tag : string) (w : World) : World :=
  set_console (fun l => (l ++ [tag])%list) w.

(** The confirmation mail of an order: sent, or its failure logged *)
Definition confirm (env : Env) (userId : ObjectId) (o : Order) (w : World)
  : World :=
  match find (is_user_id userId) (users w) with
  | Some u =>
    if mail_fails env then log "Order confirmation email failed:" w
    else set_outbox (fun l =>
           (l ++ [mkMail (email u)
                         ("Order Confirmation - " ++ orderNumber o)])%list) w
  | None => log "Order confirmation email failed:" w
  end.

(** A request body without what the client says about money: the
    per-line prices and the total. *)
Definition forget_client_amounts (req : OrderRequest) : OrderRequest :=
  mkOrderRequest
    (map (fun i => mkItem (item_productId i) (item_quantity i) None
                          (item_measurements i)) (body_products req))
    (body_deliveryAddress req) (body_paymentMethod req) None.

(** ** A shop to run the routes on *)

Definition demo_env : Env :=
  mkEnv 1700000000000 "65f000000000000000000001" "http" "localhost:5000"
        false false false.

Definition productA : Product :=
  mkProduct "64a000000000000000000001" "Grey Check Formal Cotton Fabric"
            100 true.

Definition productB : Product :=
  mkProduct "64a000000000000000000002" "Cotton Kurti Fabric" 180 false.

(** The shop with its catalog and nothing else *)
Definition shop0 : World := mkWorld [] [productA; productB] [] [] [] [] [].

Definition asha : RegisterRequest :=
  mkRegisterRequest " Asha " "Asha@Example.com" "secret1"
    [("firstname", "Asha"); ("lastname", "Rao"); ("state", "Telangana");
     ("district", "Hyderabad"); ("mandal", "Ameerpet"); ("pincode", "500016");
     ("address1", "1 Main Road"); ("address2", "Flat 2");
     ("phone", "9000000000"); ("alternatePhone", "9000000001")].

Definition asha_id : ObjectId := "65f000000000000000000001".

(** ... after Asha registered *)
Definition shop1 : World :=
  snd (@serve demo_libraries demo_env (Register asha) shop0).

(** ... after she put two pieces of product A in her cart *)
Definition shop2 : World :=
  snd (@serve demo_libraries demo_env
         (CartAdd asha_id "64a000000000000000000001" (Some 2)) shop1).

(** ... after she asked for a password reset *)
Definition shop3 : World :=
  snd (@serve demo_libraries demo_env (ForgotPassword "asha@example.com")
         shop2).

Definition demo_address : Address :=
  mkAddress "Asha Rao" "9000000000" "500001" "1 Main Road".

(** One line [{productA, qty 2}], with a client-side price and total *)
Definition demo_order (clientPrice clientTotal : option Z) : OrderRequest :=
  mkOrderRequest [mkItem "64a000000000000000000001" 2 clientPrice []]
                 demo_address "UPI" clientTotal.

(** The same request conditions with the cart write failing, and with the
    mail transport failing. *)
Definition env_cart_down : Env :=
  mkEnv 1700000000000 "65f000000000000000000001" "http" "localhost:5000"
        false true false.

Definition env_mail_down : Env :=
  mkEnv 1700000000000 "65f000000000000000000001" "http" "localhost:5000"
        false false true.

(** ** Running a handler *)

Ltac step_handler :=
  cbv beta iota zeta delta
    [route try_catch bind pure respond throw get_world modify console_log
     internal_error Product_findById Cart_findOne Cart_save Cart_clear
     Order_countDocuments pre_save Order_insert Order_save sendMail
     User_findById User_insert PasswordReset_upsert validated].

(** Case analysis on the innermost scrutinees of the goal *)
Ltac split_cases :=
  repeat match goal with
         | |- context [match ?x with _ => _ end] =>
           lazymatch x with
           | context [match _ with _ => _ end] => fail
           | _ => destruct x
           end
         end.

Ltac frame := intros; step_handler; split_cases; reflexivity.

(** * The rest of the server *)

(** ** The token gate *)

(** [String.prototype.split] with a one-character separator *)
Fixpoint split (sep : ascii) (s : string) : list string :=
  match s with
  | EmptyString => [EmptyString]
  | String c r =>
    if Ascii.eqb c sep then EmptyString :: split sep r
    else match split sep r with
         | h :: t => String c h :: t
         | [] => [String c EmptyString]
         end
  end.

(** [authHeader && authHeader.split(' ')[1]], and [None] where [!token]
    holds: no header, no second part, or an empty one. *)
Definition bearer_token (authorization : option string) : option string :=
  match authorization with
  | None => None
  | Some authHeader =>
    match nth_error (split " " authHeader) 1 with
    | Some token => if nonempty token then Some token else None
    | None => None
    end
  end.

(** [authenticateToken]: the response that ends the request, or the
    decoded payload that becomes [req.user] for the route behind it. *)
Definition authenticateToken {L : Libraries} (env : Env)
  (authorization : option string) : Response + Fields :=
  match bearer_token authorization with
  | None => inl (mkResponse 401 (ErrorBody "Access token required"))
  | Some token =>
    match jwt_verify token (now env) with
    | None => inl (mkResponse 403 (ErrorBody "Invalid token"))
    | Some user => inr user
    end
  end.

(** ** Reading routes

    The routes below only read the store.  They answer with a document
    ([res.json(doc)], status 200) or refuse with a status and an error. *)

Inductive Reply (A : Type) :=
| Answer (a : A)
| Refusal (code : Z) (error : string).
Arguments Answer {A} a.
Arguments Refusal {A} code error.

(** GET /api/products/:id *)
Definition get_product (pid : ObjectId) (w : World) : Reply Product :=
  match find (is_product pid) (products w) with
  | None => Refusal 404 "Product not found"
  | Some product =>
    if negb (product_isActive product) then Refusal 404 "Product not found"
    else Answer product
  end.

(** A cart line after [populate('products.productId')]: the reference is
    replaced by the product document, or [null] when there is none. *)
Record PopulatedLine := mkPopulatedLine {
  pl_product : option Product;
  pl_quantity : Z;
  pl_addedAt : Z
}.

Definition populate_line (w : World) (l : CartLine) : PopulatedLine :=
  mkPopulatedLine (find (is_product (productId l)) (products w))
                  (quantity l) (addedAt l).

(** GET /api/cart: the [products] of [cart || { products: [] }] *)
Definition get_cart (userId : ObjectId) (w : World) : list PopulatedLine :=
  match findOne (cart_of userId) (carts w) with
  | Some (_, cart) => map (populate_line w) (cart_products cart)
  | None => []
  end.

(** An order after [populate('products.productId')] *)
Record PopulatedOrder := mkPopulatedOrder {
  po_order : Order;
  po_products : list (option Product)
}.

Definition populate_order (w : World) (o : Order) : PopulatedOrder :=
  mkPopulatedOrder o
    (map (fun l => find (is_product (line_productId l)) (products w))
         (order_products o)).

(** The filter [{ _id: req.params.id, userId }] *)
Definition is_order_of (userId id : ObjectId) (o : Order) : bool :=
  String.eqb (order_id o) id && String.eqb (order_userId o) userId.

(** GET /api/orders/:id *)
Definition get_order (userId id : ObjectId) (w : World)
  : Reply PopulatedOrder :=
  match find (is_order_of userId id) (orders w) with
  | None => Refusal 404 "Order not found"
  | Some order => Answer (populate_order w order)
  end.

(** [.sort({ key: -1 })]: insertion, newest first, documents of equal key
    in the order of the collection. *)
Fixpoint insert_desc {A} (key : A -> Z) (x : A) (l : list A) : list A :=
  match l with
  | [] => [x]
  | y :: r => if key y <=? key x then x :: l else y :: insert_desc key x r
  end.

Definition sort_desc {A} (key : A -> Z) (l : list A) : list A :=
  fold_right (insert_desc key) [] l.

(** [.skip((page - 1) * limit).limit(Number(limit))] for a page and a limit
    that are positive integers *)
Definition paginate {A} (page limit : positive) (l : list A) : list A :=
  firstn (Pos.to_nat limit)
         (skipn ((Pos.to_nat page - 1) * Pos.to_nat limit) l).

Record Pagination := mkPagination {
  pg_current : Z;
  pg_pages : Z;
  pg_total : Z
}.

(** [{ current: Number(page), pages: Math.ceil(total / limit), total }] *)
Definition pagination (page limit : positive) (total : nat) : Pagination :=
  mkPagination (Z.pos page)
               ((Z.of_nat total + Z.pos limit - 1) / Z.pos limit)
               (Z.of_nat total).

Definition order_of (userId : ObjectId) (o : Order) : bool :=
  String.eqb (order_userId o) userId.

Definition or_default (d : positive) (p : option positive) : positive :=
  match p with Some p => p | None => d end.

(** GET /api/orders, with [page = 1] and [limit = 10] by default *)
Definition get_orders (userId : ObjectId) (page limit : option positive)
  (w : World) : list PopulatedOrder * Pagination :=
  let page := or_default 1 page in
  let limit := or_default 10 limit in
  let mine := filter (order_of userId) (orders w) in
  (map (populate_order w) (paginate page limit (sort_desc orderDate mine)),
   pagination page limit (List.length mine)).

(** No user with two carts *)
Definition one_cart_per_user (w : World) : Prop :=
  NoDup (map cart_userId (carts w)).


(** The user a cart or order request acts for *)
Definition acting_user (r : Request) : option ObjectId :=
  match r with
  | CartAdd u _ _ | CartUpdate u _ _ | CartRemove u _ | PlaceOrder u _ =>
    Some u
  | _ => None
  end.

Definition ravi_id : ObjectId := "65f000000000000000000002".

(** The shop after a second user put one piece of product A in a cart *)
Definition shop4 : World :=
  snd (@serve demo_libraries demo_env
         (CartAdd ravi_id "64a000000000000000000001" (Some 1)) shop2).

(** ... and after Asha ordered what is in her cart *)
Definition shop5 : World :=
  snd (@serve demo_libraries demo_env
         (PlaceOrder asha_id (demo_order None None)) shop4).

(** Whether a character occurs in a string *)
Fixpoint occurs (c : ascii) (s : string) : bool :=
  match s with
  | EmptyString => false
  | String d r => Ascii.eqb d c || occurs c r
  end.

(** A route behind [authenticateToken]: the gate's response, or the
    handler's on the decoded payload. *)
Definition behind_gate {L : Libraries} (env : Env)
  (authorization : option string)
  (handler : Fields -> World -> Response * World)
  : World -> Response * World :=
  match authenticateToken env authorization with
  | inl refusal => fun w => (refusal, w)
  | inr user => handler user
  end.

(** An instance whose tokens verify: a token spells out what was signed,
    and expires a day (access) or an hour (reset) after the demonstration
    clock. *)
Definition session_libraries : Libraries := {|
  bcrypt_hash := fun p _ => "$2a$" ++ p;
  bcrypt_compare := fun p h => String.eqb ("$2a$" ++ p) h;
  jwt_sign := fun payload _ _ =>
    match field "userId" payload, field "username" payload,
          field "email" payload with
    | Some id, Some n, _ => "user:" ++ id ++ ":" ++ n
    | _, _, Some e => "reset:" ++ e
    | _, _, _ => "none"
    end;
  jwt_decode := fun token =>
    match split ":" token with
    | [kind; id; n] =>
      if String.eqb kind "user"
      then Some ([("userId", id); ("username", n)], 1700086400000)
      else None
    | [kind; e] =>
      if String.eqb kind "reset"
      then Some ([("email", e)], 1700003600000)
      else None
    | _ => None
    end;
  isEmail := fun e => nonempty e;
  normalizeEmail := toLowerCase;
  isMobilePhone := fun p => nonempty p
|}.

(** No user name and no email twice among the users *)
Definition unique_accounts (w : World) : Prop :=
  NoDup (map username (users w)) /\ NoDup (map email (users w)).

(** ** The browser client

    [AuthService] keeps the access token in [this.token] and under the
    key [authToken] of [localStorage], and what the login route said about
    the user under the key [user]. *)

Record Client := mkClient {
  this_token : option string;
  stored_authToken : option string;
  stored_user : option string;
  location : string
}.

(** Truthiness of a string, [null] or [undefined] *)
Definition truthy (v : option string) : bool :=
  match v with
  | Some s => nonempty s
  | None => false
  end.

(** [new AuthService()], as every page load runs it *)
Definition constructor (c : Client) : Client :=
  mkClient (stored_authToken c) (stored_authToken c) (stored_user c)
           (location c).

(** [setToken(token)]; [localStorage.setItem] stores the string
    "undefined" for [undefined]. *)
Definition setToken (token : option string) (c : Client) : Client :=
  mkClient token
           (Some match token with Some t => t | None => "undefined" end)
           (stored_user c) (location c).

(** [this.token || localStorage.getItem('authToken')] *)
Definition getToken (c : Client) : option string :=
  if truthy (this_token c) then this_token c else stored_authToken c.

Definition removeToken (c : Client) : Client :=
  mkClient None None None (location c).

Definition isAuthenticated (c : Client) : bool := truthy (getToken c).

(** [setCurrentUser(user)], with the text [JSON.stringify(user)] *)
Definition setCurrentUser (text : string) (c : Client) : Client :=
  mkClient (this_token c) (stored_authToken c) (Some text) (location c).

(** [window.location.href = page] *)
Definition go (page : string) (c : Client) : Client :=
  mkClient (this_token c) (stored_authToken c) (stored_user c) page.

Definition logout (c : Client) : Client := go "/login.html" (removeToken c).

Definition requireAuth (c : Client) : bool * Client :=
  if negb (isAuthenticated c) then (false, go "/login.html" c)
  else (true, c).

Definition redirectIfAuthenticated (c : Client) : bool * Client :=
  if isAuthenticated c then (true, go "/p1.html" c) else (false, c).

(** How [makeAuthenticatedRequest] ends: with one of its two errors, or
    with the response. *)
Inductive Fetched :=
| NoToken
| AuthenticationExpired
| Fetched_response (response : Response).

(** [makeAuthenticatedRequest(url, options)] for options without headers
    of their own, as [APIService] calls it; [fetch] is the server behind
    the url, given the Authorization header. *)
Definition makeAuthenticatedRequest
  (fetch : option string -> World -> Response * World)
  (c : Client) (w : World) : Fetched * Client * World :=
  match getToken c with
  | Some token =>
    if nonempty token then
      let (response, w') := fetch (Some ("Bearer " ++ token)) w in
      if status response =? 401
      then (AuthenticationExpired, go "/login.html" (removeToken c), w')
      else (Fetched_response response, c, w')
    else (NoToken, c, w)
  | None => (NoToken, c, w)
  end.

(** [response.ok] *)
Definition response_ok (r : Response) : bool :=
  (200 <=? status r) && (status r <=? 299).

(** [data.token] and [data.error] of a response body *)
Definition data_token (b : Body) : option string :=
  match b with
  | LoginBody _ token _ _ _ _ _ => Some token
  | _ => None
  end.

Definition data_error (b : Body) : option string :=
  match b with
  | ErrorBody e => Some e
  | ValidationFailed _ => Some "Validation failed"
  | _ => None
  end.

Inductive LoginResult :=
| LoginSuccess (data : Body)
| LoginFailure (error : option string).

(** [AuthService.login]: [fetch] is the login route with the body
    [{ username, password }], [JSON_stringify] the text
    [JSON.stringify(data.user)] of a response body. *)
Definition client_login (JSON_stringify : Body -> string)
  (fetch : World -> Response * World) (c : Client) (w : World)
  : LoginResult * Client * World :=
  let (response, w') := fetch w in
  if response_ok response then
    (LoginSuccess (body response),
     setCurrentUser (JSON_stringify (body response))
                    (setToken (data_token (body response)) c),
     w')
  else (LoginFailure (data_error (body response)), c, w').

(** A string up to its first occurrence of a character *)
Fixpoint before (sep : ascii) (s : string) : string :=
  match s with
  | EmptyString => EmptyString
  | String c r =>
    if Ascii.eqb c sep then EmptyString else String c (before sep r)
  end.

(** ** The catalog routes

    What GET /api/products and GET /api/categories read of a product
    document besides the fields of [Product]. *)

Record CatalogEntry := mkCatalogEntry {
  entry_product : Product;
  description : string;
  category : string;
  subcategory : string;
  inStock : bool;
  tags : list string;
  createdAt : Z
}.

(** [req.query] of GET /api/products: the strings as sent, the two prices
    as the numbers [Number(...)] reads from them, page and limit as
    positive integers. *)
Record ProductQuery := mkProductQuery {
  query_category : option string;
  query_subcategory : option string;
  query_search : option string;
  query_minPrice : option Z;
  query_maxPrice : option Z;
  query_inStock : option string;
  query_page : option positive;
  query_limit : option positive
}.

(** A query string that [if (s)] takes: present and not empty *)
Definition given (s : option string) : option string :=
  match s with
  | Some v => if nonempty v then Some v else None
  | None => None
  end.

(** The Mongo query the route builds, as a predicate on documents;
    [test pattern s] is the case-insensitive match of [$regex]. *)
Definition selects (test : string -> string -> bool) (q : ProductQuery)
  (e : CatalogEntry) : bool :=
  product_isActive (entry_product e)
  && match given (query_category q) with
     | Some c => String.eqb (category e) (toLowerCase c)
     | None => true
     end
  && match given (query_subcategory q) with
     | Some c => String.eqb (subcategory e) (toLowerCase c)
     | None => true
     end
  && match query_inStock q with
     | Some v => if String.eqb v "true" then inStock e else true
     | None => true
     end
  && match query_minPrice q with
     | Some m => m <=? price (entry_product e)
     | None => true
     end
  && match query_maxPrice q with
     | Some m => price (entry_product e) <=? m
     | None => true
     end
  && match given (query_search q) with
     | Some s =>
       test s (name (entry_product e)) || test s (description e)
       || existsb (test s) (tags e)
     | None => true
     end.

(** GET /api/products, with [page = 1] and [limit = 12] by default *)
Definition get_products (test : string -> string -> bool) (q : ProductQuery)
  (catalog : list CatalogEntry) : list CatalogEntry * Pagination :=
  let page := or_default 1 (query_page q) in
  let limit := or_default 12 (query_limit q) in
  let found := filter (selects test q) catalog in
  (paginate page limit (sort_desc createdAt found),
   pagination page limit (List.length found)).

(** The query [APIService.getProducts(filters)] sends: the three filters
    it knows, each only when set. *)
Definition getProducts (category subcategory search : option string)
  : ProductQuery :=
  mkProductQuery (given category) (given subcategory) (given search)
                 None None None None None.

(** One more document of category [c] in the groups of [$group], kept in
    the ascending order of [$sort: { _id: 1 }]. *)
Fixpoint tally (c : string) (groups : list (string * Z))
  : list (string * Z) :=
  match groups with
  | [] => [(c, 1)]
  | (c', n) :: r =>
    match OrdersEx.String_as_OT.compare c c' with
    | Eq => (c', n + 1) :: r
    | Lt => (c, 1) :: groups
    | Gt => (c', n) :: tally c r
    end
  end.

(** GET /api/categories: [{ _id: category, count }] over the active
    products *)
Definition get_categories (catalog : list CatalogEntry) : list (string * Z) :=
  fold_right tally []
    (map category
         (filter (fun e => product_isActive (entry_product e)) catalog)).

(** * Requests as they arrive

    The handlers above receive product references in their canonical
    rendering, integer quantities and string passwords.  What follows is
    what the same routes do with the other values a JSON body can hold. *)

(** ** References and numbers *)

Definition is_hex_digit (c : ascii) : bool :=
  let n := nat_of_ascii c in
  ((48 <=? n)%nat && (n <=? 57)%nat)
  || ((65 <=? n)%nat && (n <=? 70)%nat)
  || ((97 <=? n)%nat && (n <=? 102)%nat).

Fixpoint all_hex (s : string) : bool :=
  match s with
  | EmptyString => true
  | String c r => is_hex_digit c && all_hex r
  end.

(** A string of 24 hexadecimal digits *)
Definition hex24 (s : string) : bool :=
  (String.length s =? 24)%nat && all_hex s.

(** The canonical rendering of an [ObjectId], what [toString()] returns:
    24 hexadecimal digits, the letters in lower case *)
Definition canonical (s : string) : bool :=
  hex24 s && String.eqb (toLowerCase s) s.

(** The whole numbers a double holds exactly *)
Definition safe_integer (z : Z) : bool :=
  (- 2 ^ 53 <=? z) && (z <=? 2 ^ 53).

(** Whether the doubles of the order loop, run on these (price, quantity)
    pairs from the running total [acc], are the whole numbers themselves:
    every price, quantity, [itemTotal] and [calculatedTotal], the delivery
    charge added at the end, is one a double holds exactly. *)
Fixpoint exact_lines (acc : Z) (ls : list (Z * Z)) : bool :=
  match ls with
  | [] => safe_integer (acc + 3)
  | (p, q) :: r =>
    safe_integer p && safe_integer q && safe_integer (p * q)
    && safe_integer (acc + p * q) && exact_lines (acc + p * q) r
  end.

Definition exact_total (w : World) (items : list Item) : bool :=
  exact_lines 0
    (map (fun i => (catalog_price w (item_productId i), item_quantity i))
         items).


(** ** The cast of a reference

    [Product.findById(id)] casts [id] to an [ObjectId] before the query is
    sent.  A string of 24 hexadecimal digits is the id it renders, whatever
    the case of its letters; a string that is no id makes the query reject
    with a [CastError].  Which strings besides the 24 hexadecimal digits
    are ids (a string of 12 characters was one for the earlier drivers) is
    the instance's. *)
Class Driver := {
  castObjectId : string -> option ObjectId
}.

Definition hex_driver : Driver := {|
  castObjectId := fun s => if hex24 s then Some (toLowerCase s) else None
|}.

(** ** A save among the saves of other requests

    [order.save()] when the inserts of other requests ([others], in the
    order in which the database ran them) land between the answer to this
    save's [await countDocuments()] and its own insert. *)
Definition Order_save_among (others : list Order) (env : Env) (o : Order)
  : Handler Order :=
  if order_valid o then
    o' <- pre_save env o ;;
    modify (set_orders (fun os => (os ++ others)%list)) ;;
    Order_insert o' ;;
    pure o'
  else throw (ValidationError "order").

(** POST /api/orders with such a save *)
Definition post_orders_among (others : list Order) (env : Env)
  (userId : ObjectId) (req : OrderRequest) : World -> Response * World :=
  route (try_catch
    ('(calculatedTotal, orderProducts) <-
        validate_items (body_products req) 0 [] ;;
     let calculatedTotal := calculatedTotal + deliveryCharge in
     order <- Order_save_among others env
       (mkOrder (fresh_id env) userId EmptyString orderProducts
                (body_deliveryAddress req) (body_paymentMethod req)
                calculatedTotal deliveryCharge "Placed"
                (Some (now env + five_days)) (now env)) ;;
     Cart_clear env userId ;;
     try_catch
       (user <- User_findById userId ;;
        match user with
        | None => throw (TypeError "user is null")
        | Some u =>
          sendMail env
            (mkMail (email u) ("Order Confirmation - " ++ orderNumber order))
        end)
       (fun _ => console_log "Order confirmation email failed:") ;;
     respond 201 (OrderBody "Order placed successfully" (order_id order)
                            (orderNumber order)))
    (internal_error "Create order error:")).

(** ** The routes on the bodies as sent *)

Module Wire.

(** A value of a JSON body *)
Inductive Json :=
| JString (s : string)
| JNumber (n : Q)
| JBool (b : bool)
| JNull.

(** [notEmpty()] of express-validator: the value, rendered as a string, is
    not the empty string; [null] renders as the empty string, a number or
    a boolean as its literal. *)
Definition notEmpty (v : Json) : bool :=
  match v with
  | JString s => nonempty s
  | JNumber _ => true
  | JBool _ => true
  | JNull => false
  end.

Section Routes.
Context {L : Libraries} {D : Driver}.

(** *** Order placement *)

(** [Product.findById(id)] on the string of a request *)
Definition Product_findById (id : string) : Handler (option Product) :=
  match castObjectId id with
  | Some oid => w <- get_world ;; pure (find (is_product oid) (products w))
  | None => throw (CastError "_id")
  end.

(** [{ ...item, price: product.price }]; the order schema casts the
    reference as the query did, to the id of the product found *)
Definition order_line (item : Item) (p : Product) : OrderLine :=
  mkOrderLine (product_id p) (item_quantity item) (price p)
              (item_measurements item).

(** The loop [for (const item of products)] *)
Fixpoint validate_items (items : list Item) (calculatedTotal : Z)
         (orderProducts : list OrderLine) : Handler (Z * list OrderLine) :=
  match items with
  | [] => pure (calculatedTotal, orderProducts)
  | item :: rest =>
    product <- Product_findById (item_productId item) ;;
    match product with
    | None =>
      respond 400
        (ErrorBody ("Product " ++ item_productId item ++ " not found"))
    | Some p =>
      if negb (product_isActive p)
      then respond 400
             (ErrorBody ("Product " ++ item_productId item ++ " not found"))
      else
        let itemTotal := price p * item_quantity item in
        validate_items rest (calculatedTotal + itemTotal)
                       (orderProducts ++ [order_line item p])%list
    end
  end.

(** POST /api/orders *)
Definition post_orders (env : Env) (userId : ObjectId) (req : OrderRequest)
  : World -> Response * World :=
  route (try_catch
    ('(calculatedTotal, orderProducts) <-
        validate_items (body_products req) 0 [] ;;
     let calculatedTotal := calculatedTotal + deliveryCharge in
     order <- Order_save env
       (mkOrder (fresh_id env) userId EmptyString orderProducts
                (body_deliveryAddress req) (body_paymentMethod req)
                calculatedTotal deliveryCharge "Placed"
                (Some (now env + five_days)) (now env)) ;;
     Cart_clear env userId ;;
     try_catch
       (user <- User_findById userId ;;
        match user with
        | None => throw (TypeError "user is null")
        | Some u =>
          sendMail env
            (mkMail (email u) ("Order Confirmation - " ++ orderNumber order))
        end)
       (fun _ => console_log "Order confirmation email failed:") ;;
     respond 201 (OrderBody "Order placed successfully" (order_id order)
                            (orderNumber order)))
    (internal_error "Create order error:")).

(** A line item whose reference is an id, of a product that exists and is
    active *)
Definition available (w : World) (i : Item) : bool :=
  match castObjectId (item_productId i) with
  | Some oid =>
    match find (is_product oid) (products w) with
    | Some p => product_isActive p
    | None => false
    end
  | None => false
  end.

(** *** Login *)

(** The chain [validateLogin] *)
Definition login_errors (uname : string) (pass : Json) : list string :=
  (if nonempty (trim uname) then [] else ["Username is required"])
  ++ (if notEmpty pass then [] else ["Password is required"]).

(** [bcrypt.compare(password, user.password)] of bcryptjs: it rejects
    ("Illegal arguments") unless both arguments are strings *)
Definition compare (pass : Json) (hash : string) : Handler bool :=
  match pass with
  | JString s => pure (bcrypt_compare s hash)
  | _ => throw (TypeError "Illegal arguments")
  end.

(** [user.save()] of a stored user: the whole document is validated *)
Definition User_save (slot : nat) (u : User) : Handler unit :=
  if user_valid u then modify (set_users (update_nth slot (fun _ => u)))
  else throw (ValidationError "user").

(** The handler of POST /api/auth/login, on the sanitized body *)
Definition login_handler (env : Env) (uname : string) (pass : Json)
  : World -> Response * World :=
  route (try_catch
    (w <- get_world ;;
     let user := findOne (fun u => is_user_name (toLowerCase uname) u
                                   && user_isActive u) (users w) in
     match user with
     | None => respond 400 (ErrorBody "Invalid credentials")
     | Some (slot, user) =>
       isValidPassword <- compare pass (password user) ;;
       if negb isValidPassword
       then respond 400 (ErrorBody "Invalid credentials")
       else
         let user := set_lastLogin (now env) user in
         User_save slot user ;;
         let token := jwt_sign [("userId", user_id user);
                                ("username", username user)]
                               (24 * 3600) (now env) in
         respond 200 (LoginBody "Login successful" token (user_id user)
                        (Some (username user)) (Some (email user))
                        (field "firstname" (profile user))
                        (field "lastname" (profile user)))
     end)
    (internal_error "Login error:")).

(** POST /api/auth/login *)
Definition post_auth_login (env : Env) (uname : string) (pass : Json)
  : World -> Response * World :=
  validated (login_errors uname pass) (login_handler env (trim uname) pass).

End Routes.

(** *** The cart

    The cart documents with the quantities as the numbers a body can
    hold.  A quantity is the rational a double stands for; the one sum of
    the add route is taken exactly. *)

Record Line := mkLine {
  productId : ObjectId;
  quantity : Q;
  addedAt : Z
}.

Record Cart := mkCart {
  userId : ObjectId;
  products : list Line;
  updatedAt : Z
}.

(** What the cart routes read and write: the products, the carts and the
    log *)
Record Store := mkStore {
  catalog : list Product;
  carts : list Cart;
  console : list string
}.

Definition cart_of (user : ObjectId) (c : Cart) : bool :=
  String.eqb (userId c) user.

(** [p => p.productId.toString() === productId]: the canonical rendering
    of the stored id against the string of the request *)
Definition is_line (pid : string) (p : Line) : bool :=
  String.eqb (productId p) pid.

Definition add_quantity (q : Q) (p : Line) : Line :=
  mkLine (productId p) (quantity p + q)%Q (addedAt p).

Definition set_quantity (q : Q) (p : Line) : Line :=
  mkLine (productId p) q (addedAt p).

(** The cart schema: [quantity: { type: Number, default: 1, min: 1 }] *)
Definition cart_valid (c : Cart) : bool :=
  forallb (fun l => Qle_bool 1 (quantity l)) (products c).

(** [console.error(tag, error); res.status(500).json(...)] *)
Definition internal_error (tag : string) (s : Store) : Response * Store :=
  (mkResponse 500 (ErrorBody "Internal server error"),
   mkStore (catalog s) (carts s) (console s ++ [tag])%list).

(** [await cart.save(); res.json({ message })], inside the handler's
    [try]: validation, then the document is written where it was found, or
    inserted when it is a new one. *)
Definition save_and_answer (tag : string) (slot : option nat) (c : Cart)
  (message : string) (s : Store) : Response * Store :=
  if cart_valid c then
    (mkResponse 200 (MessageBody message),
     mkStore (catalog s)
             match slot with
             | Some i => update_nth i (fun _ => c) (carts s)
             | None => (carts s ++ [c])%list
             end
             (console s))
  else internal_error tag s.

Section Carts.
Context {D : Driver}.

(** POST /api/cart/add for the authenticated user [user]; [qty = None] is
    a body without [quantity] (default 1); [added] is the clock when a new
    line is pushed ([addedAt: { default: Date.now }]), [t] the one of
    [cart.updatedAt = new Date()]. *)
Definition post_cart_add (t added : Z) (user : ObjectId) (pid : string)
  (qty : option Q) (s : Store) : Response * Store :=
  let quantity := match qty with Some q => q | None => 1%Q end in
  match castObjectId pid with
  | None => internal_error "Add to cart error:" s
  | Some oid =>
    match find (is_product oid) (catalog s) with
    | None => (mkResponse 404 (ErrorBody "Product not found"), s)
    | Some product =>
      if negb (product_isActive product)
      then (mkResponse 404 (ErrorBody "Product not found"), s)
      else
        let found := findOne (cart_of user) (carts s) in
        let cart := match found with
                    | Some (_, c) => c
                    | None => mkCart user [] t
                    end in
        let lines :=
          match findIndex (is_line pid) (products cart) with
          | Some i => update_nth i (add_quantity quantity) (products cart)
          | None => (products cart ++ [mkLine oid quantity added])%list
          end in
        save_and_answer "Add to cart error:" (option_map fst found)
          (mkCart (userId cart) lines t)
          "Product added to cart successfully" s
    end
  end.

End Carts.

(** PUT /api/cart/update *)
Definition put_cart_update (t : Z) (user : ObjectId) (pid : string)
  (quantity : Q) (s : Store) : Response * Store :=
  match findOne (cart_of user) (carts s) with
  | None => (mkResponse 404 (ErrorBody "Cart not found"), s)
  | Some (slot, cart) =>
    match findIndex (is_line pid) (products cart) with
    | None => (mkResponse 404 (ErrorBody "Product not found in cart"), s)
    | Some productIndex =>
      let lines := if Qle_bool quantity 0
                   then remove_nth productIndex (products cart)
                   else update_nth productIndex (set_quantity quantity)
                                   (products cart) in
      save_and_answer "Update cart error:" (Some slot)
        (mkCart (userId cart) lines t) "Cart updated successfully" s
    end
  end.

(** DELETE /api/cart/remove/:productId *)
Definition delete_cart_remove (t : Z) (user : ObjectId) (pid : string)
  (s : Store) : Response * Store :=
  match findOne (cart_of user) (carts s) with
  | None => (mkResponse 404 (ErrorBody "Cart not found"), s)
  | Some (slot, cart) =>
    save_and_answer "Remove from cart error:" (Some slot)
      (mkCart (userId cart)
              (filter (fun p => negb (is_line pid p)) (products cart)) t)
      "Product removed from cart successfully" s
  end.

(** The lines of the cart of a user; none when the user has no cart *)
Definition cart_lines (user : ObjectId) (s : Store) : list Line :=
  match findOne (cart_of user) (carts s) with
  | Some (_, c) => products c
  | None => []
  end.

End Wire.

(** The store of the cart routes in a world of the server *)
Definition wire_line (l : CartLine) : Wire.Line :=
  Wire.mkLine (productId l) (inject_Z (quantity l)) (addedAt l).

Definition wire_cart (c : Cart) : Wire.Cart :=
  Wire.mkCart (cart_userId c) (map wire_line (cart_products c))
              (cart_updatedAt c).

Definition wire_store (w : World) : Wire.Store :=
  Wire.mkStore (products w) (map wire_cart (carts w)) (console w).

(** ** A mail address that the validator rewrites

    [normalizeEmail()] of validator.js lower-cases an address and, for a
    gmail address, removes the dots of its local part. *)








(** ** A second account *)

Definition ravi : RegisterRequest :=
  mkRegisterRequest "Ravi" "Ravi@Example.com" "secret9"
    [("firstname", "Ravi"); ("lastname", "Kumar"); ("state", "Telangana");
     ("district", "Hyderabad"); ("mandal", "Begumpet"); ("pincode", "500003");
     ("address1", "7 Lake Road"); ("address2", "Flat 5");
     ("phone", "9000000002"); ("alternatePhone", "9000000003")].

Definition env_ravi : Env :=
  mkEnv 1700000001000 ravi_id "http" "localhost:5000" false false false.

(** The shop after Ravi registered as well *)
Definition shop6 : World :=
  snd (@serve demo_libraries env_ravi (Register ravi) shop3).

(** * Properties *)

(** ** Lists *)

Lemma findIndex_Some {A} (f : A -> bool) l i :
  findIndex f l = Some i ->
  exists x, nth_error l i = Some x /\ f x = true.
Proof.
  revert i. induction l as [|a l IH]; intros i H; simpl in H; [discriminate|].
  destruct (f a) eqn:Fa.
  - inversion H; subst. exists a. auto.
  - destruct (findIndex f l) as [j|]; [|discriminate].
    inversion H; subst. simpl. apply IH. reflexivity.
Qed.

Lemma findIndex_None {A} (f : A -> bool) l :
  findIndex f l = None <-> forall x, In x l -> f x = false.
Proof.
  induction l as [|a l IH]; simpl.
  - split; [intros _ x []|reflexivity].
  - destruct (f a) eqn:Fa.
    + split; [discriminate|]. intros H. rewrite (H a) in Fa by auto. discriminate.
    + destruct (findIndex f l) as [j|]; simpl.
      * split; [discriminate|]. intros H.
        assert (E : @None nat = None) by reflexivity.
        destruct IH as [_ IH]. discriminate IH. intros x Hx. apply H. auto.
      * split; [|reflexivity]. intros _ x [->|Hx]; [assumption|].
        apply IH; auto.
Qed.

Lemma findIndex_find {A} (f : A -> bool) l :
  find f l = match findIndex f l with
             | Some i => nth_error l i
             | None => None
             end.
Proof.
  induction l as [|a l IH]; simpl; [reflexivity|].
  destruct (f a); [reflexivity|].
  rewrite IH. destruct (findIndex f l); reflexivity.
Qed.

Lemma findOne_Some {A} (f : A -> bool) l i x :
  findOne f l = Some (i, x) ->
  findIndex f l = Some i /\ nth_error l i = Some x /\ f x = true.
Proof.
  unfold findOne. intros H.
  destruct (findIndex f l) as [j|] eqn:E; [|discriminate].
  destruct (findIndex_Some _ _ _ E) as [y [Hy Fy]].
  rewrite Hy in H. simpl in H. inversion H; subst. auto.
Qed.

Lemma findOne_None {A} (f : A -> bool) l :
  findOne f l = None -> findIndex f l = None.
Proof.
  unfold findOne. intros H.
  destruct (findIndex f l) as [j|] eqn:E; [|reflexivity].
  destruct (findIndex_Some _ _ _ E) as [y [Hy _]].
  rewrite Hy in H. discriminate.
Qed.

Lemma findOne_intro {A} (f : A -> bool) l i x :
  findIndex f l = Some i -> nth_error l i = Some x ->
  findOne f l = Some (i, x).
Proof. unfold findOne. intros -> ->. reflexivity. Qed.

Lemma nth_error_update_nth {A} (g : A -> A) l i :
  nth_error (update_nth i g l) i = option_map g (nth_error l i).
Proof.
  revert i. induction l as [|a l IH]; intros [|i]; simpl; auto.
Qed.

Lemma length_update_nth {A} (g : A -> A) l i :
  List.length (update_nth i g l) = List.length l.
Proof.
  revert i. induction l as [|a l IH]; intros [|i]; simpl; auto.
Qed.

Lemma In_update_nth {A} (g : A -> A) l i y :
  In y (update_nth i g l) ->
  In y l \/ exists x, nth_error l i = Some x /\ y = g x.
Proof.
  revert i. induction l as [|a l IH]; intros [|i]; simpl; auto.
  - intros [<-|H]; [right; eauto|left; auto].
  - intros [<-|H]; [left; auto|].
    destruct (IH _ H) as [H'|H']; auto.
Qed.

Lemma map_update_nth {A B} (h : A -> B) (g : A -> A) l i :
  (forall x, h (g x) = h x) -> map h (update_nth i g l) = map h l.
Proof.
  intros Hg. revert i.
  induction l as [|a l IH]; intros [|i]; simpl; auto; congruence.
Qed.

Lemma findIndex_update_nth {A} (f : A -> bool) (g : A -> A) l i :
  (forall x, f (g x) = f x) ->
  findIndex f (update_nth i g l) = findIndex f l.
Proof.
  intros Hg. revert i.
  induction l as [|a l IH]; intros [|i]; simpl; auto.
  - rewrite Hg. reflexivity.
  - rewrite IH. reflexivity.
Qed.

Lemma findIndex_replace {A} (f : A -> bool) l i c :
  findIndex f l = Some i -> f c = true ->
  findIndex f (update_nth i (fun _ => c) l) = Some i.
Proof.
  revert i. induction l as [|a l IH]; intros i H Fc; simpl in *; [discriminate|].
  destruct (f a) eqn:Fa.
  - inversion H; subst. simpl. rewrite Fc. reflexivity.
  - destruct (findIndex f l) as [j|] eqn:E; [|discriminate].
    inversion H; subst. simpl. rewrite Fa, (IH j); auto.
Qed.

Lemma findIndex_app_new {A} (f : A -> bool) l c :
  findIndex f l = None -> f c = true ->
  findIndex f (l ++ [c]) = Some (List.length l).
Proof.
  induction l as [|a l IH]; simpl; intros H Fc.
  - rewrite Fc. reflexivity.
  - destruct (f a); [discriminate|].
    destruct (findIndex f l); [discriminate|].
    rewrite IH; auto.
Qed.

Lemma In_remove_nth {A} (l : list A) i y :
  In y (remove_nth i l) -> In y l.
Proof.
  revert i. induction l as [|a l IH]; intros [|i]; simpl; auto.
  intros [<-|H]; eauto.
Qed.

Lemma map_remove_nth {A B} (h : A -> B) l i :
  map h (remove_nth i l) = remove_nth i (map h l).
Proof.
  revert i. induction l as [|a l IH]; intros [|i]; simpl; auto; congruence.
Qed.

Lemma NoDup_remove_nth {A} (l : list A) i :
  NoDup l -> NoDup (remove_nth i l).
Proof.
  revert i. induction l as [|a l IH]; intros [|i] H; simpl; auto.
  - inversion H; auto.
  - inversion H; subst. constructor; auto.
    intros Hin. apply In_remove_nth in Hin. contradiction.
Qed.

Lemma NoDup_remove_nth_gone {A} (l : list A) i x :
  NoDup l -> nth_error l i = Some x -> ~ In x (remove_nth i l).
Proof.
  revert i. induction l as [|a l IH]; intros [|i] H E; simpl in *;
    try discriminate.
  - inversion E; subst. inversion H; auto.
  - inversion H; subst. intros [->|Hin].
    + apply nth_error_In in E. contradiction.
    + eapply IH; eauto.
Qed.

Lemma NoDup_map_filter {A B} (h : A -> B) (f : A -> bool) l :
  NoDup (map h l) -> NoDup (map h (filter f l)).
Proof.
  induction l as [|a l IH]; simpl; intros H; auto.
  inversion H; subst. destruct (f a); simpl; auto.
  constructor; auto. intros Hin. apply H2.
  apply in_map_iff in Hin. destruct Hin as [x [E Hx]].
  apply filter_In in Hx. apply in_map_iff. exists x. tauto.
Qed.

Lemma find_snoc {A} (f : A -> bool) l x :
  find f (l ++ [x]) = match find f l with
                      | Some y => Some y
                      | None => if f x then Some x else None
                      end.
Proof.
  induction l as [|a l IH]; simpl; [reflexivity|].
  destruct (f a); auto.
Qed.

Lemma NoDup_snoc {A} (l : list A) x :
  NoDup l -> ~ In x l -> NoDup (l ++ [x]).
Proof.
  induction l as [|a l IH]; simpl; intros H Hx.
  - constructor; auto.
  - inversion H; subst. constructor.
    + rewrite in_app_iff. simpl. intuition congruence.
    + apply IH; auto.
Qed.

(** ** The cart *)

Lemma is_line_true pid p : is_line pid p = true <-> productId p = pid.
Proof. unfold is_line. apply String.eqb_eq. Qed.

Lemma not_in_lines pid ps :
  findIndex (is_line pid) ps = None -> ~ In pid (map productId ps).
Proof.
  intros H Hin. apply in_map_iff in Hin. destruct Hin as [x [E Hx]].
  rewrite findIndex_None in H. specialize (H x Hx).
  apply is_line_true in E. congruence.
Qed.

Lemma in_lines pid ps i :
  findIndex (is_line pid) ps = Some i -> In pid (map productId ps).
Proof.
  intros H. destruct (findIndex_Some _ _ _ H) as [x [Hx Fx]].
  apply in_map_iff. exists x. split.
  - apply is_line_true. assumption.
  - eapply nth_error_In. eassumption.
Qed.

Lemma in_lines_index pid ps :
  In pid (map productId ps) -> exists i, findIndex (is_line pid) ps = Some i.
Proof.
  intros H. destruct (findIndex (is_line pid) ps) as [i|] eqn:E; eauto.
  apply not_in_lines in E. contradiction.
Qed.

Lemma add_line_ids_present t pid q ps :
  In pid (map productId ps) ->
  map productId (add_line t pid q ps) = map productId ps.
Proof.
  intros H. destruct (in_lines_index _ _ H) as [i E].
  unfold add_line. rewrite E. apply map_update_nth. reflexivity.
Qed.

Lemma add_line_absent t pid q ps :
  ~ In pid (map productId ps) ->
  add_line t pid q ps = (ps ++ [mkCartLine pid q t])%list.
Proof.
  intros H. unfold add_line.
  destruct (findIndex (is_line pid) ps) as [i|] eqn:E; [|reflexivity].
  apply in_lines in E. contradiction.
Qed.

Lemma add_line_no_duplicate t pid q ps :
  NoDup (map productId ps) -> NoDup (map productId (add_line t pid q ps)).
Proof.
  intros H. unfold add_line.
  destruct (findIndex (is_line pid) ps) as [i|] eqn:E.
  - rewrite map_update_nth; auto.
  - rewrite map_app. simpl. apply NoDup_snoc; auto.
    apply not_in_lines. assumption.
Qed.

Lemma find_update_nth_line pid (g : CartLine -> CartLine) ps i :
  (forall x, productId (g x) = productId x) ->
  findIndex (is_line pid) ps = Some i ->
  find (is_line pid) (update_nth i g ps)
  = option_map g (find (is_line pid) ps).
Proof.
  intros Hg H.
  rewrite !findIndex_find, findIndex_update_nth, H.
  - apply nth_error_update_nth.
  - intros x. unfold is_line. rewrite Hg. reflexivity.
Qed.

Lemma add_line_quantity_present t pid q ps q0 :
  quantity_of pid ps = Some q0 ->
  quantity_of pid (add_line t pid q ps) = Some (q0 + q).
Proof.
  unfold quantity_of, add_line. intros H.
  destruct (findIndex (is_line pid) ps) as [i|] eqn:E.
  - rewrite find_update_nth_line by auto.
    destruct (find (is_line pid) ps); [|discriminate].
    simpl in *. congruence.
  - rewrite findIndex_find, E in H. discriminate.
Qed.

Lemma find_update_nth_other pid pid' (g : CartLine -> CartLine) ps i x :
  pid' <> pid ->
  (forall y, productId (g y) = productId y) ->
  nth_error ps i = Some x -> productId x = pid ->
  find (is_line pid') (update_nth i g ps) = find (is_line pid') ps.
Proof.
  intros Hne Hg. revert i.
  induction ps as [|a l IH]; intros [|i] Hx Hp; simpl in *; try discriminate.
  - inversion Hx; subst. unfold is_line. rewrite Hg.
    destruct (String.eqb_spec (productId x) pid'); [congruence|reflexivity].
  - rewrite (IH i) by assumption. reflexivity.
Qed.

Lemma add_line_quantity_other t pid q ps pid' :
  pid' <> pid ->
  quantity_of pid' (add_line t pid q ps) = quantity_of pid' ps.
Proof.
  intros Hne. unfold quantity_of, add_line.
  destruct (findIndex (is_line pid) ps) as [i|] eqn:E.
  - destruct (findIndex_Some _ _ _ E) as [x [Hx Fx]].
    apply is_line_true in Fx.
    rewrite (find_update_nth_other pid pid' _ ps i x); auto.
  - rewrite find_snoc.
    destruct (find (is_line pid') ps); [reflexivity|].
    unfold is_line. simpl.
    destruct (String.eqb_spec pid pid'); [congruence|reflexivity].
Qed.

Lemma add_line_valid t pid q ps :
  1 <= q ->
  forallb (fun l => 1 <=? quantity l) ps = true ->
  forallb (fun l => 1 <=? quantity l) (add_line t pid q ps) = true.
Proof.
  intros Hq H. rewrite forallb_forall in *. intros x Hx.
  unfold add_line in Hx.
  destruct (findIndex (is_line pid) ps) as [i|].
  - apply In_update_nth in Hx. destruct Hx as [Hx|[y [Hy ->]]]; auto.
    apply nth_error_In in Hy. specialize (H y Hy).
    simpl. apply Z.leb_le. apply Z.leb_le in H. lia.
  - apply in_app_iff in Hx. destruct Hx as [Hx|[<-|[]]]; auto.
    simpl. apply Z.leb_le. assumption.
Qed.

(** What the add route computes *)
Lemma post_cart_add_eq env userId pid qty w :
  post_cart_add env userId pid qty w =
  match find (is_product pid) (products w) with
  | None => (mkResponse 404 (ErrorBody "Product not found"), w)
  | Some p =>
    if negb (product_isActive p)
    then (mkResponse 404 (ErrorBody "Product not found"), w)
    else
      let found := findOne (cart_of userId) (carts w) in
      let cart := match found with
                  | Some (_, c) => c
                  | None => mkCart userId [] (now env)
                  end in
      let cart' :=
        mkCart (cart_userId cart)
               (add_line (now env) pid
                         (match qty with Some q => q | None => 1 end)
                         (cart_products cart))
               (now env) in
      if cart_valid cart' then
        (mkResponse 200 (MessageBody "Product added to cart successfully"),
         set_carts (fun cs =>
           match option_map fst found with
           | Some i => update_nth i (fun _ => cart') cs
           | None => (cs ++ [cart'])%list
           end) w)
      else
        (mkResponse 500 (ErrorBody "Internal server error"),
         set_console (fun l => (l ++ ["Add to cart error:"])%list) w)
  end.
Proof.
  unfold post_cart_add. step_handler.
  destruct (find (is_product pid) (products w)) as [p|]; [|reflexivity].
  destruct (negb (product_isActive p)); [reflexivity|].
  match goal with |- context [cart_valid ?c] => destruct (cart_valid c) end;
    reflexivity.
Qed.

(** What the update route computes *)
Lemma put_cart_update_eq env userId pid q w :
  put_cart_update env userId pid q w =
  match findOne (cart_of userId) (carts w) with
  | None => (mkResponse 404 (ErrorBody "Cart not found"), w)
  | Some (slot, cart) =>
    match findIndex (is_line pid) (cart_products cart) with
    | None => (mkResponse 404 (ErrorBody "Product not found in cart"), w)
    | Some i =>
      let cart' :=
        mkCart (cart_userId cart)
               (if q <=? 0 then remove_nth i (cart_products cart)
                else update_nth i (set_quantity q) (cart_products cart))
               (now env) in
      if cart_valid cart' then
        (mkResponse 200 (MessageBody "Cart updated successfully"),
         set_carts (update_nth slot (fun _ => cart')) w)
      else
        (mkResponse 500 (ErrorBody "Internal server error"),
         set_console (fun l => (l ++ ["Update cart error:"])%list) w)
    end
  end.
Proof.
  unfold put_cart_update. step_handler.
  destruct (findOne (cart_of userId) (carts w)) as [[slot cart]|];
    [|reflexivity].
  destruct (findIndex (is_line pid) (cart_products cart)); [|reflexivity].
  match goal with |- context [cart_valid ?c] => destruct (cart_valid c) end;
    reflexivity.
Qed.

(** What the remove route computes *)
Lemma delete_cart_remove_eq env userId pid w :
  delete_cart_remove env userId pid w =
  match findOne (cart_of userId) (carts w) with
  | None => (mkResponse 404 (ErrorBody "Cart not found"), w)
  | Some (slot, cart) =>
    let cart' :=
      mkCart (cart_userId cart)
             (filter (fun p => negb (is_line pid p)) (cart_products cart))
             (now env) in
    if cart_valid cart' then
      (mkResponse 200 (MessageBody "Product removed from cart successfully"),
       set_carts (update_nth slot (fun _ => cart')) w)
    else
      (mkResponse 500 (ErrorBody "Internal server error"),
       set_console (fun l => (l ++ ["Remove from cart error:"])%list) w)
  end.
Proof.
  unfold delete_cart_remove. step_handler.
  destruct (findOne (cart_of userId) (carts w)) as [[slot cart]|];
    [|reflexivity].
  match goal with |- context [cart_valid ?c] => destruct (cart_valid c) end;
    reflexivity.
Qed.

Lemma carts_ok_replace w i c :
  carts_ok w -> no_duplicate c -> cart_valid c = true ->
  carts_ok (set_carts (update_nth i (fun _ => c)) w).
Proof.
  intros H Hc Hv x Hx. simpl in Hx.
  apply In_update_nth in Hx. destruct Hx as [Hx|[y [_ ->]]]; auto.
Qed.

Lemma carts_ok_insert w c :
  carts_ok w -> no_duplicate c -> cart_valid c = true ->
  carts_ok (set_carts (fun cs => (cs ++ [c])%list) w).
Proof.
  intros H Hc Hv x Hx. simpl in Hx.
  apply in_app_iff in Hx. destruct Hx as [Hx|[<-|[]]]; auto.
Qed.

Lemma carts_ok_same w w' : carts w' = carts w -> carts_ok w -> carts_ok w'.
Proof. unfold carts_ok. intros ->. auto. Qed.

Lemma carts_ok_found w userId slot c :
  carts_ok w -> findOne (cart_of userId) (carts w) = Some (slot, c) ->
  no_duplicate c /\ cart_valid c = true.
Proof.
  intros H E. apply findOne_Some in E. destruct E as [_ [E _]].
  apply H. eapply nth_error_In. eassumption.
Qed.

Lemma post_cart_add_ok env userId pid qty w :
  carts_ok w -> carts_ok (snd (post_cart_add env userId pid qty w)).
Proof.
  intros H. rewrite post_cart_add_eq.
  destruct (find (is_product pid) (products w)) as [p|]; [|assumption].
  destruct (negb (product_isActive p)); [assumption|].
  cbv zeta.
  match goal with |- context [cart_valid ?c] =>
    destruct (cart_valid c) eqn:V end; [|assumption].
  simpl.
  destruct (findOne (cart_of userId) (carts w)) as [[slot c]|] eqn:E; simpl.
  - apply carts_ok_replace; auto.
    apply add_line_no_duplicate. eapply carts_ok_found; eauto.
  - apply carts_ok_insert; auto.
    apply add_line_no_duplicate. constructor.
Qed.

Lemma put_cart_update_ok env userId pid q w :
  carts_ok w -> carts_ok (snd (put_cart_update env userId pid q w)).
Proof.
  intros H. rewrite put_cart_update_eq.
  destruct (findOne (cart_of userId) (carts w)) as [[slot c]|] eqn:E;
    [|assumption].
  destruct (findIndex (is_line pid) (cart_products c)) as [i|]; [|assumption].
  cbv zeta.
  match goal with |- context [cart_valid ?c] =>
    destruct (cart_valid c) eqn:V end; [|assumption].
  simpl. apply carts_ok_replace; auto.
  destruct (carts_ok_found _ _ _ _ H E) as [Hn _].
  unfold no_duplicate in *. simpl.
  destruct (q <=? 0).
  - rewrite map_remove_nth. apply NoDup_remove_nth. assumption.
  - rewrite map_update_nth; auto.
Qed.

Lemma delete_cart_remove_ok env userId pid w :
  carts_ok w -> carts_ok (snd (delete_cart_remove env userId pid w)).
Proof.
  intros H. rewrite delete_cart_remove_eq.
  destruct (findOne (cart_of userId) (carts w)) as [[slot c]|] eqn:E;
    [|assumption].
  cbv zeta.
  match goal with |- context [cart_valid ?c] =>
    destruct (cart_valid c) eqn:V end; [|assumption].
  simpl. apply carts_ok_replace; auto.
  destruct (carts_ok_found _ _ _ _ H E) as [Hn _].
  unfold no_duplicate in *. simpl. apply NoDup_map_filter. assumption.
Qed.

(** The lines of the user's cart after a save of it *)
Lemma cart_lines_saved userId w found c :
  findOne (cart_of userId) (carts w) = found ->
  cart_userId c = userId ->
  cart_lines userId
    (set_carts (fun cs =>
       match option_map fst found with
       | Some i => update_nth i (fun _ => c) cs
       | None => (cs ++ [c])%list
       end) w)
  = cart_products c.
Proof.
  intros E Hu. unfold cart_lines. simpl.
  assert (Fc : cart_of userId c = true)
    by (unfold cart_of; apply String.eqb_eq; assumption).
  destruct found as [[slot c0]|]; simpl.
  - apply findOne_Some in E. destruct E as [E _].
    erewrite findOne_intro; [reflexivity| |].
    + apply findIndex_replace; eassumption.
    + rewrite nth_error_update_nth.
      destruct (findIndex_Some _ _ _ E) as [x [-> _]]. reflexivity.
  - apply findOne_None in E.
    erewrite findOne_intro; [reflexivity| |].
    + apply findIndex_app_new; eassumption.
    + rewrite nth_error_app2, Nat.sub_diag by lia. reflexivity.
Qed.

Lemma cart_lines_replaced userId w slot c0 c :
  findOne (cart_of userId) (carts w) = Some (slot, c0) ->
  cart_userId c = userId ->
  cart_lines userId (set_carts (update_nth slot (fun _ => c)) w)
  = cart_products c.
Proof.
  intros E Hu. exact (cart_lines_saved userId w (Some (slot, c0)) c E Hu).
Qed.

Lemma cart_found_user userId w slot c :
  findOne (cart_of userId) (carts w) = Some (slot, c) -> cart_userId c = userId.
Proof.
  intros E. apply findOne_Some in E. destruct E as [_ [_ E]].
  apply String.eqb_eq. assumption.
Qed.

(** ** Order placement *)

Lemma validate_items_eq w items : forall acc lines,
  validate_items items acc lines w =
  match first_unavailable w items with
  | Some item =>
    (Return (mkResponse 400
       (ErrorBody ("Product " ++ item_productId item ++ " not found"))), w)
  | None =>
    (Normal (acc + sumZ (map (fun i => catalog_price w (item_productId i)
                                       * item_quantity i) items),
             (lines ++ map (snapshot w) items)%list), w)
  end.
Proof.
  unfold first_unavailable.
  induction items as [|item rest IH]; intros acc lines.
  - simpl. unfold pure. rewrite Z.add_0_r, app_nil_r. reflexivity.
  - cbn [validate_items find map sumZ]. step_handler.
    assert (Ha : available w item
                 = match find (is_product (item_productId item)) (products w)
                   with Some p => product_isActive p | None => false end)
      by reflexivity.
    assert (Hp : catalog_price w (item_productId item)
                 = match find (is_product (item_productId item)) (products w)
                   with Some p => price p | None => 0 end)
      by reflexivity.
    assert (Hs : snapshot w item = mkOrderLine (item_productId item)
                   (item_quantity item) (catalog_price w (item_productId item))
                   (item_measurements item))
      by reflexivity.
    rewrite Ha, Hs, Hp.
    destruct (find (is_product (item_productId item)) (products w)) as [p|];
      [|reflexivity].
    destruct (product_isActive p); cbn [negb]; [|reflexivity].
    rewrite IH.
    destruct (find (fun i => negb (available w i)) rest); [reflexivity|].
    rewrite Z.add_assoc, <- app_assoc. reflexivity.
Qed.

(** What the order route computes *)
Lemma post_orders_eq env userId req w :
  post_orders env userId req w =
  match first_unavailable w (body_products req) with
  | Some item =>
    (mkResponse 400
       (ErrorBody ("Product " ++ item_productId item ++ " not found")), w)
  | None =>
    let order := new_order env userId req w in
    if order_valid order then
      let order :=
        set_orderNumber
          (order_number (now env) (Z.of_nat (List.length (orders w)))) order in
      if existsb (has_number (orderNumber order)) (orders w)
      then (mkResponse 500 (ErrorBody "Internal server error"),
            log "Create order error:" w)
      else
        let w1 := set_orders (fun os => (os ++ [order])%list) w in
        if cart_clear_fails env
        then (mkResponse 500 (ErrorBody "Internal server error"),
              log "Create order error:" w1)
        else
          let w2 := set_carts (fun cs =>
            match findIndex (cart_of userId) cs with
            | Some i => update_nth i (clear_cart (now env)) cs
            | None => cs
            end) w1 in
          (mkResponse 201 (OrderBody "Order placed successfully"
                             (order_id order) (orderNumber order)),
           confirm env userId order w2)
    else (mkResponse 500 (ErrorBody "Internal server error"),
          log "Create order error:" w)
  end.
Proof.
  unfold post_orders. step_handler. rewrite validate_items_eq.
  destruct (first_unavailable w (body_products req)); [reflexivity|].
  change (0 + sumZ (map (fun i => catalog_price w (item_productId i)
                                  * item_quantity i) (body_products req))
          + deliveryCharge)
    with (spec_totalAmount w (body_products req)).
  change ([] ++ map (snapshot w) (body_products req))%list
    with (map (snapshot w) (body_products req)).
  fold (new_order env userId req w).
  destruct (order_valid (new_order env userId req w)); [|reflexivity].
  simpl.
  match goal with |- context [existsb ?f ?l] => destruct (existsb f l) end;
    [reflexivity|].
  destruct (cart_clear_fails env); [reflexivity|].
  unfold confirm. simpl.
  destruct (find (is_user_id userId) (users w)); [|reflexivity].
  destruct (mail_fails env); reflexivity.
Qed.

Lemma first_unavailable_forget w items :
  first_unavailable w
    (map (fun i => mkItem (item_productId i) (item_quantity i) None
                          (item_measurements i)) items)
  = option_map (fun i => mkItem (item_productId i) (item_quantity i) None
                                (item_measurements i))
               (first_unavailable w items).
Proof.
  unfold first_unavailable.
  induction items as [|i r IH]; simpl; [reflexivity|].
  change (available w (mkItem (item_productId i) (item_quantity i) None
                              (item_measurements i)))
    with (available w i).
  destruct (available w i); simpl; auto.
Qed.

Lemma new_order_forget env userId req w :
  new_order env userId (forget_client_amounts req) w
  = new_order env userId req w.
Proof.
  unfold new_order, forget_client_amounts, spec_totalAmount. simpl.
  rewrite !map_map. reflexivity.
Qed.

Lemma post_orders_forget env userId req w :
  post_orders env userId (forget_client_amounts req) w
  = post_orders env userId req w.
Proof.
  rewrite !post_orders_eq, new_order_forget.
  unfold forget_client_amounts at 1. cbn [body_products].
  rewrite first_unavailable_forget.
  destruct (first_unavailable w (body_products req)); reflexivity.
Qed.

Lemma app_one_inv {A} (l : list A) x y :
  (l ++ [x] = l ++ [y])%list -> x = y.
Proof. intros H. apply app_inv_head in H. congruence. Qed.

Lemma app_one_neq {A} (l : list A) x : (l ++ [x])%list <> l.
Proof.
  intros H. apply (f_equal (@List.length A)) in H.
  rewrite length_app in H. simpl in H. lia.
Qed.

Lemma orders_log tag w : orders (log tag w) = orders w.
Proof. reflexivity. Qed.

Lemma orders_confirm env userId o w :
  orders (confirm env userId o w) = orders w.
Proof.
  unfold confirm. destruct (find _ _); [destruct (mail_fails env)|];
    reflexivity.
Qed.

(** The orders after a run of the order route: those before, and at most
    one more, the order built from the catalog. *)
Lemma post_orders_orders env userId req w :
  orders (snd (post_orders env userId req w)) = orders w
  \/ orders (snd (post_orders env userId req w))
     = (orders w ++
        [set_orderNumber
           (order_number (now env) (Z.of_nat (List.length (orders w))))
           (new_order env userId req w)])%list.
Proof.
  rewrite post_orders_eq.
  destruct (first_unavailable w (body_products req)); [left; reflexivity|].
  cbv zeta.
  destruct (order_valid _); [|left; reflexivity].
  destruct (existsb _ _); [left; reflexivity|].
  destruct (cart_clear_fails env); [right; reflexivity|].
  right. cbn [snd]. rewrite orders_confirm. reflexivity.
Qed.

(** X23. The current order route recomputes the total.  For every order
    that POST /api/orders persists, when the prices, quantities, products
    and running sums of the loop are whole numbers that a double holds
    exactly (at most 2^53 in magnitude), [totalAmount] is the sum over the
    line items of (live catalog price x quantity) plus the delivery charge
    of 3; each stored line carries the catalog price, and the per-line
    prices and the total the client sent have no influence: the route does
    the same on the request with them erased.  With one line of quantity 2
    of a product whose catalog price is 100, the total is 203. *)
Lemma order_total_is_recomputed env userId req w o :
  orders (snd (post_orders env userId req w)) = (orders w ++ [o])%list ->
  (exact_total w (body_products req) = true ->
   totalAmount o = spec_totalAmount w (body_products req))
  /\ order_deliveryCharge o = 3
  /\ order_products o = map (snapshot w) (body_products req)
  /\ post_orders env userId (forget_client_amounts req) w
     = post_orders env userId req w
  /\ (forall a p,
        map (fun i => (item_productId i, item_quantity i)) (body_products req)
          = [(a, 2)] ->
        find (is_product a) (products w) = Some p -> price p = 100 ->
        totalAmount o = 203).
Proof.
  intros H.
  destruct (post_orders_orders env userId req w) as [E|E]; rewrite E in H.
  - symmetry in H. apply app_one_neq in H. contradiction.
  - apply app_one_inv in H. subst o.
    split; [intros _; reflexivity|].
    split; [reflexivity|]. split; [reflexivity|].
    split; [apply post_orders_forget|].
    intros a p Hi Hp Hprice. cbn [totalAmount set_orderNumber new_order].
    unfold spec_totalAmount.
    destruct (body_products req) as [|i [|j r]]; try discriminate.
    simpl in Hi. inversion Hi; subst. simpl.
    unfold catalog_price. rewrite Hp, Hprice, H1. reflexivity.
Qed.

(** [order.save()] of the document the handler builds *)
Lemma Order_save_new env userId req w :
  Order_save env (new_order env userId req w) w =
  if order_valid (new_order env userId req w) then
    let o := set_orderNumber
               (order_number (now env) (Z.of_nat (List.length (orders w))))
               (new_order env userId req w) in
    if existsb (has_number (orderNumber o)) (orders w)
    then (Throw (DuplicateKey "orderNumber"), w)
    else (Normal o, set_orders (fun os => (os ++ [o])%list) w)
  else (Throw (ValidationError "order"), w).
Proof.
  step_handler.
  destruct (order_valid (new_order env userId req w)); [|reflexivity].
  simpl. destruct (existsb _ _); reflexivity.
Qed.

(** C4, as the code has it. Once [order.save()] has succeeded the order
    stays in the store whatever happens to the two secondary effects.  A
    failure of the confirmation mail is logged and swallowed: the response
    is still the 201 success.  A failure of the cart write is not
    swallowed: it is logged by the handler's outer [catch] and the client
    gets 500 "Internal server error"; the cart is left as it was and no
    mail is sent. *)
Theorem order_survives_secondary_failures env userId req w o w1 :
  first_unavailable w (body_products req) = None ->
  Order_save env (new_order env userId req w) w = (Normal o, w1) ->
  let resp := fst (post_orders env userId req w) in
  let w' := snd (post_orders env userId req w) in
  orders w' = (orders w ++ [o])%list
  /\ (cart_clear_fails env = false ->
      resp = mkResponse 201 (OrderBody "Order placed successfully"
                                       (order_id o) (orderNumber o))
      /\ (mail_fails env = true ->
          outbox w' = outbox w
          /\ console w'
             = (console w ++ ["Order confirmation email failed:"])%list))
  /\ (cart_clear_fails env = true ->
      resp = mkResponse 500 (ErrorBody "Internal server error")
      /\ carts w' = carts w /\ outbox w' = outbox w
      /\ console w' = (console w ++ ["Create order error:"])%list).
Proof.
  intros Hav Hsave. cbv zeta.
  rewrite Order_save_new in Hsave. rewrite post_orders_eq, Hav. cbv zeta.
  destruct (order_valid (new_order env userId req w)); [|discriminate].
  cbv zeta in Hsave.
  destruct (existsb _ _); [discriminate|].
  inversion Hsave; subst o w1; clear Hsave.
  destruct (cart_clear_fails env).
  - split; [reflexivity|]. split; [discriminate|].
    intros _. repeat split.
  - cbn [fst snd]. rewrite orders_confirm.
    split; [reflexivity|]. split; [|discriminate].
    intros _. split; [reflexivity|]. intros Hm.
    unfold confirm. rewrite Hm.
    destruct (find _ _); split; reflexivity.
Qed.

(** C4 as stated fails: with the cart write down, the order of
    [demo_order] is persisted and the client is answered 500. *)
Lemma cart_clear_failure_is_surfaced :
  exists o,
    orders (snd (post_orders env_cart_down asha_id (demo_order None None)
                             shop2))
      = (orders shop2 ++ [o])%list
    /\ cart_clear_fails env_cart_down = true
    /\ fst (post_orders env_cart_down asha_id (demo_order None None) shop2)
       = mkResponse 500 (ErrorBody "Internal server error").
Proof. eexists. vm_compute. repeat split. Qed.

(** ** Order numbers *)

Lemma has_number_absent n os :
  existsb (has_number n) os = false <-> ~ In n (map orderNumber os).
Proof.
  induction os as [|o os IH]; simpl.
  - tauto.
  - unfold has_number at 1.
    destruct (String.eqb_spec (orderNumber o) n); simpl.
    + split; [discriminate|]. intros H. exfalso. auto.
    + rewrite IH. tauto.
Qed.

Lemma unique_numbers_insert os o :
  unique_numbers os -> existsb (has_number (orderNumber o)) os = false ->
  unique_numbers (os ++ [o]).
Proof.
  unfold unique_numbers. intros H E. rewrite map_app. simpl.
  apply NoDup_snoc; [assumption|]. apply has_number_absent. assumption.
Qed.

Lemma step_unique e s :
  unique_numbers (stored s) -> unique_numbers (stored (step e s)).
Proof.
  intros H. destruct e as [o|i|i t|i]; simpl; auto.
  - destruct (nth_error (inflight s) i) as [[]|]; auto.
  - destruct (nth_error (inflight s) i) as [[]|]; auto.
  - destruct (nth_error (inflight s) i) as [[o| | |o| ]|]; auto.
    destruct (existsb _ _) eqn:E; simpl; auto.
    apply unique_numbers_insert; assumption.
Qed.

Lemma run_unique es : forall s,
  unique_numbers (stored s) -> unique_numbers (stored (run es s)).
Proof.
  induction es as [|e es IH]; intros s H; simpl; auto.
  apply IH. apply step_unique. assumption.
Qed.

Lemma nth_error_snoc {A} (l : list A) x :
  nth_error (l ++ [x]) (List.length l) = Some x.
Proof. rewrite nth_error_app2, Nat.sub_diag by lia. reflexivity. Qed.

Lemma update_nth_snoc {A} (g : A -> A) (l : list A) x :
  update_nth (List.length l) g (l ++ [x]) = (l ++ [g x])%list.
Proof. induction l as [|a l IH]; simpl; congruence. Qed.

(** A save that nothing overlaps is the run of its four events in a row. *)
Lemma Order_save_is_a_run env o w fl :
  let i := List.length fl in
  stored (run [Begin o; Count i; Resume i (now env); Insert i]
              (mkServer (orders w) fl))
  = orders (snd (Order_save env o w)).
Proof.
  cbv zeta. unfold Order_save. step_handler.
  cbn [run step stored inflight]. unfold begin.
  destruct (order_valid o).
  - destruct (negb (nonempty (orderNumber o))).
    + rewrite nth_error_snoc, update_nth_snoc. cbn [inflight stored].
      rewrite nth_error_snoc, update_nth_snoc. cbn [inflight stored].
      rewrite nth_error_snoc.
      destruct (existsb _ _); reflexivity.
    + rewrite nth_error_snoc. cbn [inflight stored].
      rewrite nth_error_snoc. cbn [inflight stored].
      rewrite nth_error_snoc.
      destruct (existsb _ _); reflexivity.
  - rewrite nth_error_snoc. cbn [inflight stored].
    rewrite nth_error_snoc. cbn [inflight stored].
    rewrite nth_error_snoc. reflexivity.
Qed.

(** C3 as stated fails: two saves of valid orders that overlap in the
    same millisecond both read the count 0 before either inserts, both are
    given the number ORD17000000000000001, and the unique index rejects the
    insert of the second. *)
Lemma overlapping_saves_collide :
  let o1 := new_order demo_env asha_id (demo_order None None) shop2 in
  let es := [Begin o1; Begin o1; Count 0; Count 1;
             Resume 0 1700000000000; Resume 1 1700000000000] in
  order_valid o1 = true
  /\ inflight (run es (mkServer [] []))
     = [Numbered (set_orderNumber "ORD17000000000000001" o1);
        Numbered (set_orderNumber "ORD17000000000000001" o1)]
  /\ inflight (run (es ++ [Insert 0; Insert 1]) (mkServer [] []))
     = [Inserted (set_orderNumber "ORD17000000000000001" o1);
        Rejected (set_orderNumber "ORD17000000000000001" o1)
                 (DuplicateKey "orderNumber")]
  /\ stored (run (es ++ [Insert 0; Insert 1]) (mkServer [] []))
     = [set_orderNumber "ORD17000000000000001" o1].
Proof. vm_compute. repeat split. Qed.

(** ** What each route leaves alone *)

Section Frames.
Context {L : Libraries}.

Lemma register_carts env req w :
  carts (snd (post_auth_register env req w)) = carts w.
Proof. unfold post_auth_register, register_handler. frame. Qed.

Lemma register_orders env req w :
  orders (snd (post_auth_register env req w)) = orders w.
Proof. unfold post_auth_register, register_handler. frame. Qed.

Lemma register_resets env req w :
  passwordResets (snd (post_auth_register env req w)) = passwordResets w.
Proof. unfold post_auth_register, register_handler. frame. Qed.

Lemma login_carts env u p w :
  carts (snd (post_auth_login env u p w)) = carts w.
Proof. unfold post_auth_login, login_handler. frame. Qed.

Lemma login_orders env u p w :
  orders (snd (post_auth_login env u p w)) = orders w.
Proof. unfold post_auth_login, login_handler. frame. Qed.

Lemma login_resets env u p w :
  passwordResets (snd (post_auth_login env u p w)) = passwordResets w.
Proof. unfold post_auth_login, login_handler. frame. Qed.

Lemma forgot_carts env m w :
  carts (snd (post_auth_forgot_password env m w)) = carts w.
Proof. unfold post_auth_forgot_password. frame. Qed.

Lemma forgot_orders env m w :
  orders (snd (post_auth_forgot_password env m w)) = orders w.
Proof. unfold post_auth_forgot_password. frame. Qed.

Lemma forgot_users env m w :
  users (snd (post_auth_forgot_password env m w)) = users w.
Proof. unfold post_auth_forgot_password. frame. Qed.

Lemma reset_carts env t p w :
  carts (snd (post_auth_reset_password env t p w)) = carts w.
Proof. unfold post_auth_reset_password. frame. Qed.

Lemma reset_orders env t p w :
  orders (snd (post_auth_reset_password env t p w)) = orders w.
Proof. unfold post_auth_reset_password. frame. Qed.

Lemma profile_carts env u f w :
  carts (snd (put_user_profile env u f w)) = carts w.
Proof. unfold put_user_profile. frame. Qed.

Lemma profile_orders env u f w :
  orders (snd (put_user_profile env u f w)) = orders w.
Proof. unfold put_user_profile. frame. Qed.

Lemma profile_resets env u f w :
  passwordResets (snd (put_user_profile env u f w)) = passwordResets w.
Proof. unfold put_user_profile. frame. Qed.

Lemma cart_add_orders env u p q w :
  orders (snd (post_cart_add env u p q w)) = orders w.
Proof. rewrite post_cart_add_eq. cbv zeta. split_cases; reflexivity. Qed.

Lemma cart_add_resets env u p q w :
  passwordResets (snd (post_cart_add env u p q w)) = passwordResets w.
Proof. rewrite post_cart_add_eq. cbv zeta. split_cases; reflexivity. Qed.

Lemma cart_add_users env u p q w :
  users (snd (post_cart_add env u p q w)) = users w.
Proof. rewrite post_cart_add_eq. cbv zeta. split_cases; reflexivity. Qed.

Lemma cart_update_orders env u p q w :
  orders (snd (put_cart_update env u p q w)) = orders w.
Proof. rewrite put_cart_update_eq. cbv zeta. split_cases; reflexivity. Qed.

Lemma cart_update_resets env u p q w :
  passwordResets (snd (put_cart_update env u p q w)) = passwordResets w.
Proof. rewrite put_cart_update_eq. cbv zeta. split_cases; reflexivity. Qed.

Lemma cart_update_users env u p q w :
  users (snd (put_cart_update env u p q w)) = users w.
Proof. rewrite put_cart_update_eq. cbv zeta. split_cases; reflexivity. Qed.

Lemma cart_remove_orders env u p w :
  orders (snd (delete_cart_remove env u p w)) = orders w.
Proof. rewrite delete_cart_remove_eq. cbv zeta. split_cases; reflexivity. Qed.

Lemma cart_remove_resets env u p w :
  passwordResets (snd (delete_cart_remove env u p w)) = passwordResets w.
Proof. rewrite delete_cart_remove_eq. cbv zeta. split_cases; reflexivity. Qed.

Lemma cart_remove_users env u p w :
  users (snd (delete_cart_remove env u p w)) = users w.
Proof. rewrite delete_cart_remove_eq. cbv zeta. split_cases; reflexivity. Qed.

Lemma confirm_frame env u o w :
  users (confirm env u o w) = users w
  /\ passwordResets (confirm env u o w) = passwordResets w
  /\ carts (confirm env u o w) = carts w.
Proof.
  unfold confirm. destruct (find _ _); [destruct (mail_fails env)|];
    repeat split.
Qed.

Lemma orders_resets env u req w :
  passwordResets (snd (post_orders env u req w)) = passwordResets w.
Proof.
  rewrite post_orders_eq. cbv zeta.
  destruct (first_unavailable _ _); [reflexivity|].
  destruct (order_valid _); [|reflexivity].
  destruct (existsb _ _); [reflexivity|].
  destruct (cart_clear_fails env); [reflexivity|].
  cbn [snd]. rewrite (proj1 (proj2 (confirm_frame _ _ _ _))). reflexivity.
Qed.

Lemma orders_users env u req w :
  users (snd (post_orders env u req w)) = users w.
Proof.
  rewrite post_orders_eq. cbv zeta.
  destruct (first_unavailable _ _); [reflexivity|].
  destruct (order_valid _); [|reflexivity].
  destruct (existsb _ _); [reflexivity|].
  destruct (cart_clear_fails env); [reflexivity|].
  cbn [snd]. rewrite (proj1 (confirm_frame _ _ _ _)). reflexivity.
Qed.

Lemma post_orders_ok env u req w :
  carts_ok w -> carts_ok (snd (post_orders env u req w)).
Proof.
  intros H. rewrite post_orders_eq. cbv zeta.
  destruct (first_unavailable _ _); [assumption|].
  destruct (order_valid _); [|assumption].
  destruct (existsb _ _); [assumption|].
  destruct (cart_clear_fails env); [assumption|].
  cbn [snd]. intros c Hc.
  rewrite (proj2 (proj2 (confirm_frame _ _ _ _))) in Hc. simpl in Hc.
  destruct (findIndex (cart_of u) (carts w)) as [i|]; [|auto].
  apply In_update_nth in Hc. destruct Hc as [Hc|[x [_ ->]]]; [auto|].
  split; [constructor|reflexivity].
Qed.

End Frames.

(** ** Carts never hold a product twice *)

Section Carts.
Context {L : Libraries}.

Lemma serve_carts_ok env r w : carts_ok w -> carts_ok (snd (serve env r w)).
Proof.
  intros H. destruct r; simpl.
  - eapply carts_ok_same; [apply register_carts|assumption].
  - eapply carts_ok_same; [apply login_carts|assumption].
  - eapply carts_ok_same; [apply forgot_carts|assumption].
  - eapply carts_ok_same; [apply reset_carts|assumption].
  - eapply carts_ok_same; [apply profile_carts|assumption].
  - apply post_cart_add_ok; assumption.
  - apply put_cart_update_ok; assumption.
  - apply delete_cart_remove_ok; assumption.
  - apply post_orders_ok; assumption.
Qed.

Lemma reachable_carts_ok w : reachable w -> carts_ok w.
Proof.
  induction 1 as [w [_ [_ [Hc _]]]|env r w _ IH|ps w _ IH|t w _ IH].
  - intros c Hin. rewrite Hc in Hin. destruct Hin.
  - apply serve_carts_ok. assumption.
  - exact IH.
  - exact IH.
Qed.

End Carts.

Lemma valid_update_nth (g : CartLine -> CartLine) ps i :
  (forall x, 1 <= quantity (g x)) ->
  forallb (fun l => 1 <=? quantity l) ps = true ->
  forallb (fun l => 1 <=? quantity l) (update_nth i g ps) = true.
Proof.
  intros Hg H. rewrite forallb_forall in *. intros x Hx.
  apply In_update_nth in Hx. destruct Hx as [Hx|[y [_ ->]]]; auto.
  apply Z.leb_le. apply Hg.
Qed.

Lemma valid_remove_nth ps i :
  forallb (fun l => 1 <=? quantity l) ps = true ->
  forallb (fun l => 1 <=? quantity l) (remove_nth i ps) = true.
Proof.
  intros H. rewrite forallb_forall in *. intros x Hx.
  apply In_remove_nth in Hx. auto.
Qed.

Lemma cart_lines_found userId w slot c :
  findOne (cart_of userId) (carts w) = Some (slot, c) ->
  cart_lines userId w = cart_products c.
Proof. unfold cart_lines. intros ->. reflexivity. Qed.

Lemma cart_lines_none userId w :
  findOne (cart_of userId) (carts w) = None -> cart_lines userId w = [].
Proof. unfold cart_lines. intros ->. reflexivity. Qed.

(** After a successful add the user's lines are [add_line] of those before *)
Lemma post_cart_add_lines env userId pid qty w :
  status (fst (post_cart_add env userId pid qty w)) = 200 ->
  cart_lines userId (snd (post_cart_add env userId pid qty w))
  = add_line (now env) pid (match qty with Some q => q | None => 1 end)
             (cart_lines userId w).
Proof.
  rewrite post_cart_add_eq.
  destruct (find (is_product pid) (products w)) as [p|]; [|discriminate].
  destruct (negb (product_isActive p)); [discriminate|].
  cbv zeta.
  match goal with |- context [cart_valid ?c] => destruct (cart_valid c) end;
    [|discriminate].
  intros _. cbn [snd].
  destruct (findOne (cart_of userId) (carts w)) as [[slot c]|] eqn:E.
  - erewrite (cart_lines_saved userId w (Some (slot, c))); [| exact E |].
    + cbn [cart_products]. unfold cart_lines. rewrite E. reflexivity.
    + cbn [cart_userId]. eapply cart_found_user. eassumption.
  - erewrite (cart_lines_saved userId w None); [| exact E | reflexivity].
    cbn [cart_products]. unfold cart_lines. rewrite E. reflexivity.
Qed.

Lemma post_cart_add_rejected env userId pid qty w :
  status (fst (post_cart_add env userId pid qty w)) <> 200 ->
  carts (snd (post_cart_add env userId pid qty w)) = carts w.
Proof.
  rewrite post_cart_add_eq.
  destruct (find (is_product pid) (products w)) as [p|]; [|reflexivity].
  destruct (negb (product_isActive p)); [reflexivity|].
  cbv zeta.
  match goal with |- context [cart_valid ?c] => destruct (cart_valid c) end;
    [|reflexivity].
  intros H. exfalso. apply H. reflexivity.
Qed.

Lemma post_cart_add_accepts env userId pid qty w p :
  carts_ok w ->
  find (is_product pid) (products w) = Some p -> product_isActive p = true ->
  1 <= match qty with Some q => q | None => 1 end ->
  status (fst (post_cart_add env userId pid qty w)) = 200.
Proof.
  intros Hok Hp Ha Hq. rewrite post_cart_add_eq, Hp, Ha. cbv zeta. cbn [negb].
  match goal with |- context [cart_valid ?c] =>
    assert (V : cart_valid c = true) end.
  { unfold cart_valid. cbn [cart_products]. apply add_line_valid; [assumption|].
    destruct (findOne (cart_of userId) (carts w)) as [[slot c]|] eqn:E.
    - apply (carts_ok_found _ _ _ _ Hok E).
    - reflexivity. }
  rewrite V. reflexivity.
Qed.

Lemma add_line_twice t1 t2 pid q1 q2 ps :
  ~ In pid (map productId ps) ->
  add_line t2 pid q2 (add_line t1 pid q1 ps)
  = (ps ++ [mkCartLine pid (q1 + q2) t1])%list.
Proof.
  intros H. rewrite (add_line_absent t1) by assumption.
  unfold add_line.
  assert (E : findIndex (is_line pid) ps = None).
  { destruct (findIndex (is_line pid) ps) eqn:E; [|reflexivity].
    apply in_lines in E. contradiction. }
  rewrite (findIndex_app_new _ _ _ E)
    by (unfold is_line; apply String.eqb_refl).
  rewrite update_nth_snoc. reflexivity.
Qed.

(** ** The rendering of order numbers *)

Lemma append_same_length (a a' b b' : string) :
  String.length a = String.length a' ->
  a ++ b = a' ++ b' -> a = a' /\ b = b'.
Proof.
  revert a'. induction a as [|c a IH]; intros [|c' a'] Hl H; simpl in *;
    try discriminate.
  - auto.
  - inversion H; subst. destruct (IH a') as [-> ->]; auto.
Qed.

Lemma read_zeros k s :
  option_map N.of_uint (NilEmpty.uint_of_string (replicate k "0" ++ s))
  = option_map N.of_uint (NilEmpty.uint_of_string s).
Proof.
  induction k as [|k IH]; simpl; [reflexivity|].
  rewrite <- IH.
  destruct (NilEmpty.uint_of_string (replicate k "0" ++ s)); reflexivity.
Qed.

Lemma read_String_of n :
  option_map N.of_uint (NilEmpty.uint_of_string (String_of n))
  = Some (Z.to_N n).
Proof.
  unfold String_of.
  rewrite <- (DecimalN.Unsigned.of_to (Z.to_N n)) at 2.
  destruct (N.to_uint (Z.to_N n)) eqn:E;
    try (cbn [NilZero.string_of_uint]; rewrite NilEmpty.usu; reflexivity).
  reflexivity.
Qed.

Lemma padStart_injective k a b :
  0 <= a -> 0 <= b ->
  padStart k "0" (String_of a) = padStart k "0" (String_of b) -> a = b.
Proof.
  intros Ha Hb H.
  apply (f_equal (fun s => option_map N.of_uint (NilEmpty.uint_of_string s)))
    in H.
  unfold padStart in H. rewrite !read_zeros, !read_String_of in H.
  inversion H. lia.
Qed.

Lemma order_number_injective t t' c c' :
  String.length (String_of t) = String.length (String_of t') ->
  0 <= c -> 0 <= c' ->
  order_number t c = order_number t' c' -> c = c'.
Proof.
  intros Hl Hc Hc' H. unfold order_number in H.
  cbn [append] in H. inversion H as [H'].
  apply append_same_length in H'; [|assumption].
  destruct H' as [_ H']. apply padStart_injective in H'; lia.
Qed.

Lemma sequential_number_is_new t os :
  sequential_numbers os ->
  String.length (String_of t) = 13%nat ->
  ~ In (order_number t (Z.of_nat (List.length os))) (map orderNumber os).
Proof.
  intros Hseq Ht Hin. apply in_map_iff in Hin. destruct Hin as [o [Ho Hin]].
  apply In_nth_error in Hin. destruct Hin as [i Hi].
  assert (Hlt : (i < List.length os)%nat)
    by (apply nth_error_Some; congruence).
  destruct (Hseq i o Hi) as [t' [Ht' Hn]].
  rewrite Hn in Ho. apply order_number_injective in Ho; try lia.
Qed.

Lemma sequential_numbers_snoc t os o :
  sequential_numbers os ->
  String.length (String_of t) = 13%nat ->
  orderNumber o = order_number t (Z.of_nat (List.length os)) ->
  sequential_numbers (os ++ [o]).
Proof.
  intros Hseq Ht Ho i x Hx.
  destruct (Nat.lt_ge_cases i (List.length os)) as [Hlt|Hge].
  - rewrite nth_error_app1 in Hx by assumption. apply Hseq. assumption.
  - rewrite nth_error_app2 in Hx by assumption.
    destruct (i - List.length os)%nat as [|k] eqn:E; simpl in Hx.
    + inversion Hx; subst x. exists t. split; [assumption|].
      replace i with (List.length os) by lia. assumption.
    + destruct k; discriminate.
Qed.

(** ** Order numbers in the store *)

Lemma post_orders_unique env u req w :
  unique_numbers (orders w) ->
  unique_numbers (orders (snd (post_orders env u req w))).
Proof.
  intros H. rewrite post_orders_eq. cbv zeta.
  destruct (first_unavailable _ _); [assumption|].
  destruct (order_valid _); [|assumption].
  destruct (existsb _ _) eqn:E; [assumption|].
  destruct (cart_clear_fails env); cbn [snd].
  - rewrite orders_log. apply unique_numbers_insert; assumption.
  - rewrite orders_confirm. apply unique_numbers_insert; assumption.
Qed.

Lemma post_orders_fresh env u req w o :
  orders (snd (post_orders env u req w)) = (orders w ++ [o])%list ->
  o = set_orderNumber
        (order_number (now env) (Z.of_nat (List.length (orders w))))
        (new_order env u req w)
  /\ ~ In (orderNumber o) (map orderNumber (orders w))
  /\ (status (fst (post_orders env u req w)) = 201 ->
      body (fst (post_orders env u req w))
      = OrderBody "Order placed successfully" (order_id o) (orderNumber o)).
Proof.
  rewrite post_orders_eq. cbv zeta.
  destruct (first_unavailable _ _);
    [intros H; symmetry in H; apply app_one_neq in H; contradiction|].
  destruct (order_valid _);
    [|intros H; symmetry in H; apply app_one_neq in H; contradiction].
  destruct (existsb _ _) eqn:E;
    [intros H; symmetry in H; apply app_one_neq in H; contradiction|].
  apply has_number_absent in E.
  destruct (cart_clear_fails env); cbn [fst snd].
  - rewrite orders_log. intros H. apply app_one_inv in H. subst o.
    split; [reflexivity|]. split; [assumption|]. discriminate.
  - rewrite orders_confirm. intros H. apply app_one_inv in H. subst o.
    split; [reflexivity|]. split; [assumption|]. reflexivity.
Qed.

Lemma post_orders_sequential env u req w :
  sequential_numbers (orders w) ->
  String.length (String_of (now env)) = 13%nat ->
  (first_unavailable w (body_products req) = None ->
   order_valid (new_order env u req w) = true ->
   orders (snd (post_orders env u req w))
   = (orders w ++
      [set_orderNumber
         (order_number (now env) (Z.of_nat (List.length (orders w))))
         (new_order env u req w)])%list)
  /\ sequential_numbers (orders (snd (post_orders env u req w))).
Proof.
  intros Hseq Ht.
  pose proof (sequential_number_is_new _ _ Hseq Ht) as Hnew.
  apply has_number_absent in Hnew.
  rewrite post_orders_eq. cbv zeta.
  destruct (first_unavailable _ _); [split; [discriminate|assumption]|].
  destruct (order_valid _); [|split; [discriminate|assumption]].
  cbn [orderNumber set_orderNumber]. rewrite Hnew.
  destruct (cart_clear_fails env); cbn [snd].
  - rewrite orders_log. split; [reflexivity|].
    apply (sequential_numbers_snoc (now env)); auto.
  - rewrite orders_confirm. split; [reflexivity|].
    apply (sequential_numbers_snoc (now env)); auto.
Qed.

Section Numbers.
Context {L : Libraries}.

Lemma serve_unique env r w :
  unique_numbers (orders w) -> unique_numbers (orders (snd (serve env r w))).
Proof.
  intros H. destruct r; cbn [serve].
  - rewrite register_orders. assumption.
  - rewrite login_orders. assumption.
  - rewrite forgot_orders. assumption.
  - rewrite reset_orders. assumption.
  - rewrite profile_orders. assumption.
  - rewrite cart_add_orders. assumption.
  - rewrite cart_update_orders. assumption.
  - rewrite cart_remove_orders. assumption.
  - apply post_orders_unique. assumption.
Qed.

Lemma reachable_unique w : reachable w -> unique_numbers (orders w).
Proof.
  induction 1 as [w [_ [Ho _]]|env r w _ IH|ps w _ IH|t w _ IH].
  - unfold unique_numbers. rewrite Ho. constructor.
  - apply serve_unique. assumption.
  - exact IH.
  - exact IH.
Qed.

End Numbers.

Lemma Order_save_among_nil env o w :
  Order_save_among [] env o w = Order_save env o w.
Proof.
  unfold Order_save_among, Order_save. destruct w as [us ps os cs rs ob co].
  step_handler.
  destruct (order_valid o); [|reflexivity].
  destruct (negb (nonempty (orderNumber o)));
    unfold set_orders;
    cbn [orders users products carts passwordResets outbox console];
    rewrite ?app_nil_r;
    match goal with
    | |- context [existsb ?f ?l] => destruct (existsb f l)
    end; reflexivity.
Qed.

Lemma post_orders_among_nil env userId req w :
  post_orders_among [] env userId req w = post_orders env userId req w.
Proof.
  unfold post_orders_among, post_orders, route, try_catch, bind.
  destruct (validate_items (body_products req) 0 [] w)
    as [[[t ps]|r|e] w1]; try reflexivity.
  rewrite Order_save_among_nil. reflexivity.
Qed.

Lemma post_orders_among_collision env userId req w others :
  first_unavailable w (body_products req) = None ->
  order_valid (new_order env userId req w) = true ->
  In (order_number (now env) (Z.of_nat (List.length (orders w))))
     (map orderNumber (orders w ++ others)) ->
  post_orders_among others env userId req w
  = (mkResponse 500 (ErrorBody "Internal server error"),
     log "Create order error:"
         (set_orders (fun os => (os ++ others)%list) w)).
Proof.
  intros Hav Hv Hin.
  unfold post_orders_among, Order_save_among. step_handler.
  rewrite validate_items_eq, Hav.
  change (0 + sumZ (map (fun i => catalog_price w (item_productId i)
                                  * item_quantity i) (body_products req))
          + deliveryCharge)
    with (spec_totalAmount w (body_products req)).
  change ([] ++ map (snapshot w) (body_products req))%list
    with (map (snapshot w) (body_products req)).
  fold (new_order env userId req w). rewrite Hv. simpl.
  match goal with |- context [existsb ?f ?l] =>
    destruct (existsb f l) eqn:E end; [reflexivity|].
  apply has_number_absent in E. contradiction.
Qed.

(** C3, as the code has it. Every order that POST /api/orders persists
    carries the number "ORD", the milliseconds of the clock, and the count
    of stored orders plus one padded with zeros to four digits; the count
    is read from the store by the save itself, and the number is the one
    the client is told.  The number is none that a stored order has: in
    every world the server reaches, the stored orders have pairwise
    different numbers.  For saves that overlap this is the work of the
    unique index, not of the counter: whatever the order in which the event
    loop runs the counts, the resumptions of the hook and the inserts of
    the saves in flight, the stored orders have pairwise different numbers,
    the count a save reads is the number of orders stored when the database
    answers it, and a save that nothing overlaps is one such run.  An
    insert whose number a stored order has is rejected and stores nothing;
    a request between whose count and insert another request stored an
    order with the number the hook builds is answered 500 "Internal server
    error": its own order is not stored, the carts and the outbox are as
    they were, and the failure is logged.  When the saves so far ran one
    after the other on a clock of thirteen digits, the number the hook
    builds is new, so the save of a valid order is not rejected, and the
    next save finds the store in the same condition. *)
Theorem order_numbers_are_unique {L : Libraries} env userId req w es fl :
  reachable w ->
  let resp := fst (post_orders env userId req w) in
  let w' := snd (post_orders env userId req w) in
  NoDup (map orderNumber (orders w))
  /\ NoDup (map orderNumber (orders w'))
  /\ (forall o, orders w' = (orders w ++ [o])%list ->
        orderNumber o
        = "ORD" ++ String_of (now env)
                ++ padStart 4 "0"
                     (String_of (Z.of_nat (List.length (orders w)) + 1))
        /\ ~ In (orderNumber o) (map orderNumber (orders w))
        /\ (status resp = 201 ->
            body resp = OrderBody "Order placed successfully"
                                  (order_id o) (orderNumber o)))
  /\ NoDup (map orderNumber (stored (run es (mkServer (orders w) fl))))
  /\ (forall s i o,
        nth_error (inflight s) i = Some (Validated o) ->
        nth_error (inflight (step (Count i) s)) i
        = Some (Counted o (Z.of_nat (List.length (stored s)))))
  /\ (forall s i o count t,
        nth_error (inflight s) i = Some (Counted o count) ->
        nth_error (inflight (step (Resume i t) s)) i
        = Some (Numbered (set_orderNumber
                            ("ORD" ++ String_of t
                                   ++ padStart 4 "0" (String_of (count + 1)))
                            o)))
  /\ (forall o,
        stored (run [Begin o; Count (List.length fl);
                     Resume (List.length fl) (now env);
                     Insert (List.length fl)] (mkServer (orders w) fl))
        = orders (snd (Order_save env o w)))
  /\ (forall s i o,
        nth_error (inflight s) i = Some (Numbered o) ->
        In (orderNumber o) (map orderNumber (stored s)) ->
        step (Insert i) s
        = mkServer (stored s)
            (update_nth i (fun _ => Rejected o (DuplicateKey "orderNumber"))
                        (inflight s)))
  /\ (forall others,
        first_unavailable w (body_products req) = None ->
        order_valid (new_order env userId req w) = true ->
        In (order_number (now env) (Z.of_nat (List.length (orders w))))
           (map orderNumber others) ->
        post_orders_among others env userId req w
        = (mkResponse 500 (ErrorBody "Internal server error"),
           log "Create order error:"
               (set_orders (fun os => (os ++ others)%list) w)))
  /\ post_orders_among [] env userId req w = post_orders env userId req w
  /\ (sequential_numbers (orders w) ->
      String.length (String_of (now env)) = 13%nat ->
      (first_unavailable w (body_products req) = None ->
       order_valid (new_order env userId req w) = true ->
       exists o, orders w' = (orders w ++ [o])%list)
      /\ sequential_numbers (orders w')).
Proof.
  intros Hr. cbv zeta. pose proof (reachable_unique w Hr) as Hu.
  split; [exact Hu|].
  split; [apply post_orders_unique; exact Hu|].
  split.
  { intros o Ho. destruct (post_orders_fresh _ _ _ _ _ Ho) as [E [Hn Hb]].
    split; [|split; assumption]. rewrite E. reflexivity. }
  split; [apply (run_unique es (mkServer (orders w) fl)); exact Hu|].
  split.
  { intros s i o H. cbn [step]. rewrite H. cbn [inflight].
    rewrite nth_error_update_nth, H. reflexivity. }
  split.
  { intros s i o count t H. cbn [step]. rewrite H. cbn [inflight].
    rewrite nth_error_update_nth, H. reflexivity. }
  split; [intros o; apply Order_save_is_a_run|].
  split.
  { intros s i o H Hin. cbn [step]. rewrite H.
    destruct (existsb (has_number (orderNumber o)) (stored s)) eqn:E;
      [reflexivity|].
    apply has_number_absent in E. contradiction. }
  split.
  { intros others Hav Hv Hin. apply post_orders_among_collision; auto.
    rewrite map_app. apply in_or_app. right. exact Hin. }
  split; [apply post_orders_among_nil|].
  intros Hseq Ht.
  destruct (post_orders_sequential env userId req w Hseq Ht) as [Hp Hs].
  split; [|exact Hs]. intros Hav Hv. eexists. apply Hp; assumption.
Qed.

(** ** Accounts *)

Section AccountProperties.
Context {L : Libraries}.

(** What the login handler computes *)
Lemma login_handler_eq env uname pass w :
  login_handler env uname pass w =
  match findOne (fun u => is_user_name (toLowerCase uname) u
                          && user_isActive u) (users w) with
  | None => (mkResponse 400 (ErrorBody "Invalid credentials"), w)
  | Some (slot, user) =>
    if negb (bcrypt_compare pass (password user))
    then (mkResponse 400 (ErrorBody "Invalid credentials"), w)
    else
      (mkResponse 200
         (LoginBody "Login successful"
            (jwt_sign [("userId", user_id user); ("username", username user)]
                      (24 * 3600) (now env))
            (user_id user) (Some (username user)) (Some (email user))
            (field "firstname" (profile user))
            (field "lastname" (profile user))),
       set_users (update_nth slot (fun _ => set_lastLogin (now env) user)) w)
  end.
Proof.
  unfold login_handler. step_handler.
  destruct (findOne _ (users w)) as [[slot user]|]; [|reflexivity].
  destruct (negb _); reflexivity.
Qed.

Lemma login_handler_invalid env uname pass w :
  (forall user, In user (users w) ->
     username user = toLowerCase uname ->
     bcrypt_compare pass (password user) = false) ->
  login_handler env uname pass w
  = (mkResponse 400 (ErrorBody "Invalid credentials"), w).
Proof.
  intros H. rewrite login_handler_eq.
  destruct (findOne _ (users w)) as [[slot user]|] eqn:E; [|reflexivity].
  apply findOne_Some in E. destruct E as [_ [Hn Hf]].
  apply andb_prop in Hf. destruct Hf as [Hname _].
  apply String.eqb_eq in Hname.
  rewrite (H user); [reflexivity| |assumption].
  eapply nth_error_In. eassumption.
Qed.

(** What the forgot-password route computes *)
Lemma post_auth_forgot_password_eq env mail w :
  post_auth_forgot_password env mail w =
  match find (is_user_email (toLowerCase mail)) (users w) with
  | None =>
    (mkResponse 400 (ErrorBody "User with this email does not exist"), w)
  | Some user =>
    let resetToken := jwt_sign [("email", toLowerCase mail)] 3600 (now env) in
    let w1 := set_passwordResets (fun rs =>
      match findIndex (is_reset_email (toLowerCase mail)) rs with
      | Some i =>
        update_nth i (fun r => mkPasswordReset (reset_email r) resetToken
                                               (reset_createdAt r)) rs
      | None =>
        (rs ++ [mkPasswordReset (toLowerCase mail) resetToken (now env)])%list
      end) w in
    (mkResponse 200
       (ResetLinkBody "Password reset link sent to your email"
          (if development env
           then Some (req_protocol env ++ "://" ++ req_host env
                      ++ "/reset_password.html?token=" ++ resetToken)
           else None)),
     if mail_fails env then log "Email sending failed:" w1
     else set_outbox (fun l =>
            (l ++ [mkMail mail
                     "Password Reset Request - Rudra Tailoring Shop"])%list)
            w1)
  end.
Proof.
  unfold post_auth_forgot_password. step_handler.
  destruct (find _ (users w)); [|reflexivity].
  destruct (mail_fails env); reflexivity.
Qed.


End AccountProperties.

(** ** Password reset tickets *)

Lemma upsert_unique t e token rs :
  NoDup (map reset_email rs) ->
  NoDup (map reset_email
    (match findIndex (is_reset_email e) rs with
     | Some i =>
       update_nth i (fun r => mkPasswordReset (reset_email r) token
                                              (reset_createdAt r)) rs
     | None => (rs ++ [mkPasswordReset e token t])%list
     end)).
Proof.
  intros H. destruct (findIndex (is_reset_email e) rs) as [i|] eqn:E.
  - rewrite map_update_nth; auto.
  - rewrite map_app. simpl. apply NoDup_snoc; [assumption|].
    intros Hin. apply in_map_iff in Hin. destruct Hin as [r [He Hr]].
    rewrite findIndex_None in E. specialize (E r Hr).
    unfold is_reset_email in E. rewrite He, String.eqb_refl in E.
    discriminate.
Qed.

Lemma In_update_nth_other {A} (g : A -> A) l i y :
  In y (update_nth i g l) ->
  (exists j, j <> i /\ nth_error l j = Some y)
  \/ exists x, nth_error l i = Some x /\ y = g x.
Proof.
  revert i. induction l as [|a l IH]; intros [|i]; simpl; try tauto.
  - intros [<-|H]; [right; eauto|].
    left. apply In_nth_error in H. destruct H as [j Hj].
    exists (S j). split; [discriminate|assumption].
  - intros [<-|H].
    + left. exists O. split; [discriminate|reflexivity].
    + destruct (IH _ H) as [[j [Hne Hj]]|H'].
      * left. exists (S j). split; [congruence|assumption].
      * right. assumption.
Qed.

Lemma upsert_token t e token rs r :
  NoDup (map reset_email rs) ->
  In r (match findIndex (is_reset_email e) rs with
        | Some i =>
          update_nth i (fun r => mkPasswordReset (reset_email r) token
                                                 (reset_createdAt r)) rs
        | None => (rs ++ [mkPasswordReset e token t])%list
        end) ->
  reset_email r = e -> reset_token r = token.
Proof.
  intros Hnd Hin He.
  destruct (findIndex (is_reset_email e) rs) as [i|] eqn:E.
  - destruct (findIndex_Some _ _ _ E) as [x [Hx Fx]].
    apply String.eqb_eq in Fx.
    apply In_update_nth_other in Hin.
    destruct Hin as [[j [Hne Hj]]|[y [Hy ->]]]; [|reflexivity].
    exfalso. apply Hne.
    assert (Hlt : (j < List.length (map reset_email rs))%nat).
    { rewrite length_map. apply nth_error_Some. congruence. }
    apply (proj1 (NoDup_nth_error (map reset_email rs)) Hnd j i Hlt).
    rewrite !nth_error_map, Hj, Hx. simpl. congruence.
  - apply in_app_iff in Hin. destruct Hin as [Hin|[<-|[]]]; [|reflexivity].
    rewrite findIndex_None in E. specialize (E r Hin).
    unfold is_reset_email in E. rewrite He, String.eqb_refl in E.
    discriminate.
Qed.

Lemma upsert_present t e token rs :
  exists r,
    In r (match findIndex (is_reset_email e) rs with
          | Some i =>
            update_nth i (fun r => mkPasswordReset (reset_email r) token
                                                   (reset_createdAt r)) rs
          | None => (rs ++ [mkPasswordReset e token t])%list
          end)
    /\ reset_email r = e /\ reset_token r = token.
Proof.
  destruct (findIndex (is_reset_email e) rs) as [i|] eqn:E.
  - destruct (findIndex_Some _ _ _ E) as [x [Hx Fx]].
    apply String.eqb_eq in Fx.
    exists (mkPasswordReset (reset_email x) token (reset_createdAt x)).
    split; [|split; [assumption|reflexivity]].
    eapply nth_error_In. rewrite nth_error_update_nth, Hx. reflexivity.
  - exists (mkPasswordReset e token t).
    split; [|split; reflexivity].
    apply in_app_iff. right. left. reflexivity.
Qed.

Lemma upsert_other t e token rs e' :
  e' <> e ->
  (forall r, In r rs -> reset_email r <> e') ->
  forall r,
    In r (match findIndex (is_reset_email e) rs with
          | Some i =>
            update_nth i (fun r => mkPasswordReset (reset_email r) token
                                                   (reset_createdAt r)) rs
          | None => (rs ++ [mkPasswordReset e token t])%list
          end) ->
    reset_email r <> e'.
Proof.
  intros Hne H r Hin.
  destruct (findIndex (is_reset_email e) rs) as [i|] eqn:E.
  - apply In_update_nth in Hin. destruct Hin as [Hin|[x [Hx ->]]]; auto.
    simpl. apply H. eapply nth_error_In. eassumption.
  - apply in_app_iff in Hin. destruct Hin as [Hin|[<-|[]]]; auto.
Qed.

Lemma deleteOne_unique {A B} (h : A -> B) (f : A -> bool) l :
  NoDup (map h l) -> NoDup (map h (deleteOne f l)).
Proof.
  intros H. unfold deleteOne. destruct (findIndex f l); [|assumption].
  rewrite map_remove_nth. apply NoDup_remove_nth. assumption.
Qed.

Lemma In_deleteOne {A} (f : A -> bool) l x :
  In x (deleteOne f l) -> In x l.
Proof.
  unfold deleteOne. destruct (findIndex f l); [|auto].
  apply In_remove_nth.
Qed.

Lemma deleteOne_gone e token rs r :
  NoDup (map reset_email rs) ->
  find (is_reset (Some e) token) rs = Some r ->
  forall r', In r' (deleteOne (is_reset (Some e) token) rs) ->
             reset_email r' <> e.
Proof.
  intros Hnd Hf r' Hin He. unfold deleteOne in Hin.
  rewrite findIndex_find in Hf.
  destruct (findIndex (is_reset (Some e) token) rs) as [i|] eqn:E;
    [|discriminate].
  destruct (findIndex_Some _ _ _ E) as [x [Hx Fx]].
  unfold is_reset in Fx. apply andb_prop in Fx. destruct Fx as [Fx _].
  apply String.eqb_eq in Fx.
  apply (NoDup_remove_nth_gone (map reset_email rs) i e Hnd).
  - rewrite nth_error_map, Hx. simpl. congruence.
  - rewrite <- map_remove_nth. apply in_map_iff. eauto.
Qed.

Section Tickets.
Context {L : Libraries}.

(** What the reset-password route computes *)
Lemma post_auth_reset_password_eq env token newPassword w :
  post_auth_reset_password env token newPassword w =
  if (String.length newPassword <? 6)%nat
  then (mkResponse 400
          (ErrorBody "Password must be at least 6 characters long"), w)
  else
    match jwt_verify token (now env) with
    | None => (mkResponse 500 (ErrorBody "Invalid or expired token"),
               log "Reset password error:" w)
    | Some decoded =>
      let mail := field "email" decoded in
      match find (is_reset mail token) (passwordResets w) with
      | None =>
        (mkResponse 400 (ErrorBody "Invalid or expired reset token"), w)
      | Some _ =>
        (mkResponse 200 (MessageBody "Password reset successfully"),
         set_passwordResets (deleteOne (is_reset mail token))
           (set_users (fun us =>
              match mail with
              | Some e =>
                match findIndex (is_user_email e) us with
                | Some i =>
                  update_nth i (set_password (bcrypt_hash newPassword 12)
                                             (now env)) us
                | None => us
                end
              | None => us
              end) w))
      end
    end.
Proof.
  unfold post_auth_reset_password. step_handler.
  destruct (String.length newPassword <? 6)%nat; [reflexivity|].
  destruct (jwt_verify token (now env)); [|reflexivity].
  destruct (find _ (passwordResets w)); reflexivity.
Qed.

Lemma forgot_tickets env m w :
  passwordResets (snd (post_auth_forgot_password env m w)) = passwordResets w
  \/ passwordResets (snd (post_auth_forgot_password env m w))
     = match findIndex (is_reset_email (toLowerCase m)) (passwordResets w) with
       | Some i =>
         update_nth i
           (fun r => mkPasswordReset (reset_email r)
                       (jwt_sign [("email", toLowerCase m)] 3600 (now env))
                       (reset_createdAt r)) (passwordResets w)
       | None =>
         (passwordResets w ++
          [mkPasswordReset (toLowerCase m)
             (jwt_sign [("email", toLowerCase m)] 3600 (now env))
             (now env)])%list
       end
     /\ status (fst (post_auth_forgot_password env m w)) = 200.
Proof.
  rewrite post_auth_forgot_password_eq.
  destruct (find _ (users w)); [|left; reflexivity].
  right. cbv zeta. destruct (mail_fails env); split; reflexivity.
Qed.

Lemma forgot_tickets_ok env m w :
  status (fst (post_auth_forgot_password env m w)) = 200 ->
  passwordResets (snd (post_auth_forgot_password env m w))
  = match findIndex (is_reset_email (toLowerCase m)) (passwordResets w) with
    | Some i =>
      update_nth i
        (fun r => mkPasswordReset (reset_email r)
                    (jwt_sign [("email", toLowerCase m)] 3600 (now env))
                    (reset_createdAt r)) (passwordResets w)
    | None =>
      (passwordResets w ++
       [mkPasswordReset (toLowerCase m)
          (jwt_sign [("email", toLowerCase m)] 3600 (now env))
          (now env)])%list
    end.
Proof.
  rewrite post_auth_forgot_password_eq.
  destruct (find _ (users w)); [|discriminate].
  intros _. cbv zeta. destruct (mail_fails env); reflexivity.
Qed.

Lemma reset_tickets env token pw w :
  passwordResets (snd (post_auth_reset_password env token pw w))
  = passwordResets w
  \/ exists mail,
       passwordResets (snd (post_auth_reset_password env token pw w))
       = deleteOne (is_reset mail token) (passwordResets w).
Proof.
  rewrite post_auth_reset_password_eq.
  destruct (String.length pw <? 6)%nat; [left; reflexivity|].
  destruct (jwt_verify token (now env)); [|left; reflexivity].
  cbv zeta. destruct (find _ (passwordResets w)); [|left; reflexivity].
  right. eexists. reflexivity.
Qed.

Lemma serve_one_ticket env r w :
  one_ticket_per_email w -> one_ticket_per_email (snd (serve env r w)).
Proof.
  unfold one_ticket_per_email. intros H. destruct r; cbn [serve].
  - rewrite register_resets. assumption.
  - rewrite login_resets. assumption.
  - destruct (forgot_tickets env mail w) as [->|[-> _]]; [assumption|].
    apply upsert_unique. assumption.
  - destruct (reset_tickets env token newPassword w) as [->|[m ->]];
      [assumption|].
    apply deleteOne_unique. assumption.
  - rewrite profile_resets. assumption.
  - rewrite cart_add_resets. assumption.
  - rewrite cart_update_resets. assumption.
  - rewrite cart_remove_resets. assumption.
  - rewrite orders_resets. assumption.
Qed.

Lemma reachable_one_ticket w : reachable w -> one_ticket_per_email w.
Proof.
  induction 1 as [w [_ [_ [_ Hr]]]|env r w _ IH|ps w _ IH|t w _ IH].
  - unfold one_ticket_per_email. rewrite Hr. constructor.
  - apply serve_one_ticket. assumption.
  - exact IH.
  - unfold one_ticket_per_email, ttl_sweep. cbn [passwordResets set_passwordResets].
    apply NoDup_map_filter. exact IH.
Qed.

Lemma serve_no_ticket e env r w :
  asks_ticket_for e r = false ->
  no_ticket_for e w -> no_ticket_for e (snd (serve env r w)).
Proof.
  unfold no_ticket_for. intros Ha H. destruct r; cbn [serve].
  - rewrite register_resets. assumption.
  - rewrite login_resets. assumption.
  - destruct (forgot_tickets env mail w) as [->|[-> _]]; [assumption|].
    apply upsert_other; [|assumption].
    cbn [asks_ticket_for] in Ha. apply String.eqb_neq in Ha. congruence.
  - destruct (reset_tickets env token newPassword w) as [->|[m ->]];
      [assumption|].
    intros r Hr. apply H. eapply In_deleteOne. eassumption.
  - rewrite profile_resets. assumption.
  - rewrite cart_add_resets. assumption.
  - rewrite cart_update_resets. assumption.
  - rewrite cart_remove_resets. assumption.
  - rewrite orders_resets. assumption.
Qed.

Lemma serve_all_no_ticket e rs : forall w,
  forallb (fun er => negb (asks_ticket_for e (snd er))) rs = true ->
  no_ticket_for e w -> no_ticket_for e (serve_all rs w).
Proof.
  induction rs as [|[env r] rs IH]; intros w Hrs H; cbn [serve_all];
    [assumption|].
  cbn [forallb snd] in Hrs. apply andb_prop in Hrs. destruct Hrs as [Hr Hrs].
  apply IH; [assumption|].
  apply serve_no_ticket; [|assumption].
  destruct (asks_ticket_for e r); [discriminate|reflexivity].
Qed.

(** Without a ticket for the email of a token, a reset with it fails *)
Lemma reset_without_ticket env token pw w decoded exp e :
  jwt_decode token = Some (decoded, exp) ->
  field "email" decoded = Some e ->
  no_ticket_for e w ->
  status (fst (post_auth_reset_password env token pw w)) <> 200.
Proof.
  intros Hd He Hn. rewrite post_auth_reset_password_eq.
  destruct (String.length pw <? 6)%nat; [discriminate|].
  unfold jwt_verify. rewrite Hd.
  destruct (now env <? exp); [|discriminate].
  cbv zeta. rewrite He.
  destruct (find _ (passwordResets w)) as [r|] eqn:E; [|discriminate].
  apply find_some in E. destruct E as [Hin Hr].
  unfold is_reset in Hr. apply andb_prop in Hr. destruct Hr as [Hr _].
  apply String.eqb_eq in Hr. exfalso. eapply Hn; eassumption.
Qed.

End Tickets.

(** C8. In every world the server reaches there is at most one reset
    ticket per email, and a forgot-password request keeps it so: after an
    accepted one the ticket of that email carries the token just signed.  A
    reset succeeds only when the token verifies and a ticket with the
    email of the token and that very token is in the store.  After a
    successful reset no ticket for that email is left, a reset with the
    same token on a store without a ticket for the email fails, and so does
    a reset with the same token after any requests among which none is a
    forgot-password for that email. *)
Theorem reset_ticket_is_single_use {L : Libraries} env token newPassword w :
  reachable w ->
  let resp := fst (post_auth_reset_password env token newPassword w) in
  let w' := snd (post_auth_reset_password env token newPassword w) in
  NoDup (map reset_email (passwordResets w))
  /\ (forall env' m,
        let w2 := snd (post_auth_forgot_password env' m w) in
        NoDup (map reset_email (passwordResets w2))
        /\ (status (fst (post_auth_forgot_password env' m w)) = 200 ->
            (exists r, In r (passwordResets w2)
                       /\ reset_email r = toLowerCase m
                       /\ reset_token r
                          = jwt_sign [("email", toLowerCase m)] 3600 (now env'))
            /\ (forall r, In r (passwordResets w2) ->
                  reset_email r = toLowerCase m ->
                  reset_token r
                  = jwt_sign [("email", toLowerCase m)] 3600 (now env'))))
  /\ (status resp = 200 ->
      exists decoded exp e r,
        jwt_decode token = Some (decoded, exp) /\ now env < exp
        /\ field "email" decoded = Some e
        /\ In r (passwordResets w)
        /\ reset_email r = e /\ reset_token r = token
        /\ no_ticket_for e w'
        /\ (forall w'' env2 pw2,
              no_ticket_for e w'' ->
              status (fst (post_auth_reset_password env2 token pw2 w''))
              <> 200)
        /\ (forall rs env2 pw2,
              forallb (fun er => negb (asks_ticket_for e (snd er))) rs = true ->
              status (fst (post_auth_reset_password env2 token pw2
                                                    (serve_all rs w')))
              <> 200)).
Proof.
  intros Hr. cbv zeta. pose proof (reachable_one_ticket w Hr) as Hone.
  split; [exact Hone|]. split.
  { intros env' m. split.
    - apply (serve_one_ticket env' (ForgotPassword m) w Hone).
    - intros Hs. rewrite (forgot_tickets_ok env' m w Hs). split.
      + apply upsert_present.
      + intros r. apply upsert_token. exact Hone. }
  rewrite post_auth_reset_password_eq.
  destruct (String.length newPassword <? 6)%nat; [discriminate|].
  unfold jwt_verify.
  destruct (jwt_decode token) as [[decoded exp]|] eqn:Hd; [|discriminate].
  destruct (Z.ltb_spec (now env) exp) as [Hexp|Hexp]; [|discriminate].
  cbv zeta.
  destruct (find _ (passwordResets w)) as [r|] eqn:Hf; [|discriminate].
  intros _. cbn [snd].
  destruct (field "email" decoded) as [e|] eqn:He;
    [|apply find_some in Hf; destruct Hf as [_ Hf]; discriminate].
  pose proof (find_some _ _ Hf) as [Hin Hm].
  unfold is_reset in Hm. apply andb_prop in Hm. destruct Hm as [Hm1 Hm2].
  apply String.eqb_eq in Hm1. apply String.eqb_eq in Hm2.
  assert (Hno : no_ticket_for e
                  (set_passwordResets (deleteOne (is_reset (Some e) token))
                     (set_users (fun us =>
                        match findIndex (is_user_email e) us with
                        | Some i =>
                          update_nth i (set_password
                                          (bcrypt_hash newPassword 12)
                                          (now env)) us
                        | None => us
                        end) w))).
  { intros r' Hr'. cbn [passwordResets set_passwordResets set_users] in Hr'.
    eapply deleteOne_gone; eassumption. }
  exists decoded, exp, e, r.
  do 6 (split; [assumption || reflexivity|]).
  split; [exact Hno|]. split.
  - intros w'' env2 pw2 Hn. eapply reset_without_ticket; eassumption.
  - intros rs env2 pw2 Hrs. eapply reset_without_ticket; try eassumption.
    apply serve_all_no_ticket; assumption.
Qed.

(** ** Registration *)

Lemma lower_ascii_idempotent c : lower_ascii (lower_ascii c) = lower_ascii c.
Proof.
  destruct c as [[] [] [] [] [] [] [] []]; reflexivity.
Qed.

Lemma toLowerCase_idempotent s : toLowerCase (toLowerCase s) = toLowerCase s.
Proof.
  induction s as [|c s IH]; simpl; [reflexivity|].
  rewrite lower_ascii_idempotent, IH. reflexivity.
Qed.

Section Registration.
Context {L : Libraries}.

(** What the registration handler computes *)
Lemma register_handler_eq env req w :
  register_handler env req w =
  match find (fun u => is_user_name (toLowerCase (reg_username req)) u
                       || is_user_email (toLowerCase (reg_email req)) u)
             (users w) with
  | Some _ =>
    (mkResponse 400 (ErrorBody "Username or email already exists"), w)
  | None =>
    let user := new_user env req in
    if user_valid user
       && negb (existsb (is_user_name (username user)) (users w))
       && negb (existsb (is_user_email (email user)) (users w))
    then
      let w1 := set_users (fun us => (us ++ [user])%list) w in
      (mkResponse 201 (MessageBody "User registered successfully"),
       if mail_fails env then log "Email sending failed:" w1
       else set_outbox (fun l =>
              (l ++ [mkMail (email user)
                            "Welcome to Rudra Tailoring Shop!"])%list) w1)
    else (mkResponse 500 (ErrorBody "Internal server error"),
          log "Registration error:" w)
  end.
Proof.
  unfold register_handler. step_handler. fold (new_user env req).
  destruct (find _ (users w)); [reflexivity|].
  destruct (user_valid (new_user env req)); [|reflexivity].
  cbn [andb].
  destruct (existsb (is_user_name _) (users w)); [reflexivity|].
  destruct (existsb (is_user_email _) (users w)); [reflexivity|].
  cbn [andb negb]. destruct (mail_fails env); reflexivity.
Qed.

Lemma register_handler_duplicate env req w u :
  In u (users w) ->
  username u = toLowerCase (reg_username req)
  \/ email u = toLowerCase (reg_email req) ->
  register_handler env req w
  = (mkResponse 400 (ErrorBody "Username or email already exists"), w).
Proof.
  intros Hin Hd. rewrite register_handler_eq.
  destruct (find _ (users w)) eqn:E; [reflexivity|].
  pose proof (find_none _ _ E u Hin) as Hn. cbv beta in Hn.
  apply orb_false_elim in Hn. destruct Hn as [Hn He].
  unfold is_user_name in Hn. unfold is_user_email in He.
  destruct Hd as [Hd|Hd]; rewrite Hd, String.eqb_refl in *; discriminate.
Qed.

Lemma register_handler_stores env req w :
  status (fst (register_handler env req w)) = 201 ->
  users (snd (register_handler env req w))
  = (users w ++ [new_user env req])%list.
Proof.
  rewrite register_handler_eq.
  destruct (find _ (users w)); [discriminate|].
  cbv zeta. destruct (_ && _); [|discriminate].
  intros _. cbn [snd]. destruct (mail_fails env); reflexivity.
Qed.

Lemma register_handler_users env req w :
  users (snd (register_handler env req w)) = users w
  \/ users (snd (register_handler env req w))
     = (users w ++ [new_user env req])%list.
Proof.
  rewrite register_handler_eq.
  destruct (find _ (users w)); [left; reflexivity|].
  cbv zeta. destruct (_ && _); [|left; reflexivity].
  right. cbn [snd]. destruct (mail_fails env); reflexivity.
Qed.

Lemma post_auth_register_valid env req w :
  registration_errors req = [] ->
  post_auth_register env req w
  = register_handler env (sanitize_registration req) w.
Proof. unfold post_auth_register. intros ->. reflexivity. Qed.

Lemma post_auth_register_created env req w :
  status (fst (post_auth_register env req w)) = 201 ->
  registration_errors req = []
  /\ users (snd (post_auth_register env req w))
     = (users w ++ [new_user env (sanitize_registration req)])%list.
Proof.
  unfold post_auth_register.
  destruct (registration_errors req); cbn [validated].
  - intros H. split; [reflexivity|]. apply register_handler_stores. assumption.
  - discriminate.
Qed.

Lemma users_normalized_snoc w u :
  users_normalized w ->
  toLowerCase (username u) = username u ->
  toLowerCase (email u) = email u ->
  forall u', In u' (users w ++ [u]) ->
    toLowerCase (username u') = username u'
    /\ toLowerCase (email u') = email u'.
Proof.
  intros H Hn He u' Hin. apply in_app_iff in Hin.
  destruct Hin as [Hin|[<-|[]]]; auto.
Qed.

Lemma users_normalized_update w i (g : User -> User) :
  (forall u, username (g u) = username u /\ email (g u) = email u) ->
  users_normalized w ->
  forall u', In u' (update_nth i g (users w)) ->
    toLowerCase (username u') = username u'
    /\ toLowerCase (email u') = email u'.
Proof.
  intros Hg H u' Hin. apply In_update_nth in Hin.
  destruct Hin as [Hin|[x [Hx ->]]]; [auto|].
  destruct (Hg x) as [-> ->]. apply H. eapply nth_error_In. eassumption.
Qed.

Lemma serve_users_normalized env r w :
  users_normalized w -> users_normalized (snd (serve env r w)).
Proof.
  intros H. destruct r; cbn [serve].
  - unfold post_auth_register.
    destruct (registration_errors req); cbn [validated]; [|assumption].
    unfold users_normalized.
    destruct (register_handler_users env (sanitize_registration req) w)
      as [->| ->]; [assumption|].
    apply users_normalized_snoc; [assumption| |];
      apply toLowerCase_idempotent.
  - unfold post_auth_login.
    destruct (login_errors uname pass); cbn [validated]; [|assumption].
    rewrite login_handler_eq.
    destruct (findOne _ (users w)) as [[slot user]|] eqn:E; [|assumption].
    destruct (negb _); [assumption|].
    unfold users_normalized. cbn [snd users set_users].
    intros u' Hin. apply In_update_nth in Hin.
    destruct Hin as [Hin|[x [_ ->]]]; [auto|].
    apply findOne_Some in E. destruct E as [_ [E _]].
    apply nth_error_In in E. apply (H user E).
  - unfold users_normalized. rewrite forgot_users. assumption.
  - rewrite post_auth_reset_password_eq.
    destruct (String.length newPassword <? 6)%nat; [assumption|].
    destruct (jwt_verify token (now env)); [|assumption].
    cbv zeta. destruct (find _ (passwordResets w)); [|assumption].
    unfold users_normalized. cbn [snd users set_passwordResets set_users].
    destruct (field "email" f); [|assumption].
    destruct (findIndex _ (users w)); [|assumption].
    apply users_normalized_update; [|assumption]. intros u. split; reflexivity.
  - unfold put_user_profile. step_handler.
    unfold users_normalized. cbn [snd users set_users].
    destruct (findIndex _ (users w)); [|assumption].
    apply users_normalized_update; [|assumption]. intros u. split; reflexivity.
  - unfold users_normalized. rewrite cart_add_users. assumption.
  - unfold users_normalized. rewrite cart_update_users. assumption.
  - unfold users_normalized. rewrite cart_remove_users. assumption.
  - unfold users_normalized. rewrite orders_users. assumption.
Qed.

Lemma reachable_users_normalized w : reachable w -> users_normalized w.
Proof.
  induction 1 as [w [Hu _]|env r w _ IH|ps w _ IH|t w _ IH].
  - intros u Hin. rewrite Hu in Hin. destruct Hin.
  - apply serve_users_normalized. assumption.
  - exact IH.
  - exact IH.
Qed.

End Registration.

(** X24. The current registration route folds case.  A registration
    request that passes the validation chain and whose
    user name or email is, compared without regard to letter case, that of
    a stored user is refused with 400 "Username or email already exists"
    and changes nothing.  Stored user names and emails are in lower case,
    because a registration stores the lower-cased name and email and looks
    up the lower-cased ones.  So after a registration that succeeded, a
    registration whose email or user name differs from it only in letter
    case is refused.  ([normalizeEmail] of express-validator is taken to
    respect letter case: emails equal up to case are normalized to emails
    equal up to case.) *)
Lemma register_rejects_duplicate_in_any_case {L : Libraries} env req w :
  (forall a b, toLowerCase a = toLowerCase b ->
     toLowerCase (normalizeEmail a) = toLowerCase (normalizeEmail b)) ->
  reachable w ->
  registration_errors req = [] ->
  (forall u, In u (users w) ->
     toLowerCase (username u) = username u
     /\ toLowerCase (email u) = email u)
  /\ ((exists u, In u (users w)
         /\ (toLowerCase (username u) = toLowerCase (trim (reg_username req))
             \/ toLowerCase (email u)
                = toLowerCase (normalizeEmail (reg_email req)))) ->
      post_auth_register env req w
      = (mkResponse 400 (ErrorBody "Username or email already exists"), w))
  /\ (status (fst (post_auth_register env req w)) = 201 ->
      exists u,
        users (snd (post_auth_register env req w)) = (users w ++ [u])%list
        /\ username u = toLowerCase (trim (reg_username req))
        /\ email u = toLowerCase (normalizeEmail (reg_email req)))
  /\ (forall env2 req2,
        status (fst (post_auth_register env req w)) = 201 ->
        registration_errors req2 = [] ->
        toLowerCase (reg_email req2) = toLowerCase (reg_email req)
        \/ toLowerCase (trim (reg_username req2))
           = toLowerCase (trim (reg_username req)) ->
        post_auth_register env2 req2 (snd (post_auth_register env req w))
        = (mkResponse 400 (ErrorBody "Username or email already exists"),
           snd (post_auth_register env req w))).
Proof.
  intros Hnorm Hr Hv. pose proof (reachable_users_normalized w Hr) as Hn.
  split; [exact Hn|]. split.
  { intros [u [Hin Hd]]. rewrite post_auth_register_valid by assumption.
    apply (register_handler_duplicate _ _ _ u Hin).
    destruct (Hn u Hin) as [Hu He]. cbn [sanitize_registration reg_username
                                          reg_email].
    destruct Hd as [Hd|Hd]; [left|right]; congruence. }
  split.
  { intros Hs. apply post_auth_register_created in Hs. destruct Hs as [_ Hs].
    eexists. split; [exact Hs|]. split; reflexivity. }
  intros env2 req2 Hs Hv2 Hsame.
  apply post_auth_register_created in Hs. destruct Hs as [_ Hs].
  rewrite post_auth_register_valid by assumption.
  apply (register_handler_duplicate _ _ _
           (new_user env (sanitize_registration req))).
  - rewrite Hs. apply in_app_iff. right. left. reflexivity.
  - cbn [new_user username email sanitize_registration reg_username
         reg_email].
    destruct Hsame as [He|Hu]; [right|left].
    + symmetry. apply Hnorm. assumption.
    + congruence.
Qed.

(** ** The earlier server *)

(** The earlier order route stores the total the client sent. *)
Lemma legacy_order_keeps_client_total env userId req w t :
  body_totalAmount req = Some t ->
  nonempty (body_paymentMethod req) = true ->
  exists o,
    orders (snd (Legacy.place_order env userId req w)) = (orders w ++ [o])%list
    /\ totalAmount o = t.
Proof.
  intros Ht Hp. unfold Legacy.place_order. step_handler. rewrite Ht, Hp.
  cbn [snd orders set_orders set_carts]. eexists. split; reflexivity.
Qed.

(** C1. The total of an order must be the sum of (catalog price x
    quantity) plus the delivery charge, whatever total the client sends.
    For one line of quantity 2 of a product whose catalog price is 100 and
    a client total of 1, that is 203, and it is what the current route
    stores; the earlier route stores 1. *)
Theorem earlier_order_route_trusts_client_total :
  let req := demo_order (Some 1) (Some 1) in
  spec_totalAmount shop2 (body_products req) = 203
  /\ map totalAmount
         (orders (snd (post_orders demo_env asha_id req shop2))) = [203]
  /\ map totalAmount
         (orders (snd (Legacy.place_order demo_env asha_id req shop2))) = [1].
Proof. vm_compute. repeat split. Qed.

(** C9. A registration whose email is that of a stored user up to letter
    case must be refused as a duplicate.  After the registration of
    asha@example.com, the registration of ASHA@EXAMPLE.COM under another
    user name is refused by the current route; the earlier route, which
    compares without folding case, answers 201 and stores a second
    account. *)
Theorem earlier_register_route_is_case_sensitive :
  let first := mkRegisterRequest "asha" "asha@example.com" "secret1"
                                 (reg_other asha) in
  let second := mkRegisterRequest "asha2" "ASHA@EXAMPLE.COM" "secret2"
                                  (reg_other asha) in
  let w1 := snd (@post_auth_register demo_libraries demo_env first shop0) in
  let v1 := snd (@Legacy.register demo_libraries demo_env first shop0) in
  map email (users w1) = ["asha@example.com"]
  /\ @post_auth_register demo_libraries demo_env second w1
     = (mkResponse 400 (ErrorBody "Username or email already exists"), w1)
  /\ map email (users v1) = ["asha@example.com"]
  /\ status (fst (@Legacy.register demo_libraries demo_env second v1)) = 201
  /\ map email
         (users (snd (@Legacy.register demo_libraries demo_env second v1)))
     = ["asha@example.com"; "ASHA@EXAMPLE.COM"].
Proof. vm_compute. repeat split. Qed.

(** * The properties on the demonstration shop *)

Lemma shop0_initial : initial shop0.
Proof. repeat split. Qed.

Lemma shop1_reachable : @reachable demo_libraries shop1.
Proof. apply reach_serve. apply reach_initial. exact shop0_initial. Qed.

Lemma shop2_reachable : @reachable demo_libraries shop2.
Proof. apply (@reach_serve demo_libraries). exact shop1_reachable. Qed.

Lemma shop3_reachable : @reachable demo_libraries shop3.
Proof. apply (@reach_serve demo_libraries). exact shop2_reachable. Qed.

Example order_total_is_recomputed_on_the_shop :
  exists o,
    orders (snd (post_orders demo_env asha_id (demo_order (Some 1) (Some 1))
                             shop2))
    = (orders shop2 ++ [o])%list
    /\ totalAmount o = 203.
Proof.
  eexists.
  match goal with
  | |- ?H /\ _ => assert (Ho : H) by (vm_compute; reflexivity)
  end.
  split; [exact Ho|].
  destruct (order_total_is_recomputed _ _ _ _ _ Ho) as (_ & _ & _ & _ & H203).
  eapply H203; [reflexivity|vm_compute; reflexivity|reflexivity].
Defined.

Lemma order_numbers_are_unique_witness :
  let w' := snd (post_orders env_ravi asha_id (demo_order None None) shop5) in
  let taken := set_orderNumber "ORD17000000010000002"
                 (new_order env_ravi ravi_id (demo_order None None) shop5) in
  @reachable demo_libraries shop5
  /\ map orderNumber (orders shop5) = ["ORD17000000000000001"]
  /\ map orderNumber (orders w')
     = ["ORD17000000000000001"; "ORD17000000010000002"]
  /\ NoDup (map orderNumber (orders w'))
  /\ sequential_numbers (orders w')
  /\ post_orders_among [taken] env_ravi asha_id (demo_order None None) shop5
     = (mkResponse 500 (ErrorBody "Internal server error"),
        log "Create order error:"
            (set_orders (fun os => (os ++ [taken])%list) shop5)).
Proof.
  cbv zeta.
  assert (Hr : @reachable demo_libraries shop5)
    by (apply (@reach_serve demo_libraries);
        apply (@reach_serve demo_libraries); exact shop2_reachable).
  destruct (@order_numbers_are_unique demo_libraries env_ravi asha_id
              (demo_order None None) shop5 [] [] Hr)
    as (_ & Hnd & _ & _ & _ & _ & _ & _ & Hamong & _ & Hseq).
  assert (Hs : sequential_numbers (orders shop5)).
  { intros i o Hi. exists 1700000000000.
    destruct i as [|i]; [|destruct i; discriminate Hi].
    vm_compute in Hi. injection Hi as <-. vm_compute. split; reflexivity. }
  split; [exact Hr|].
  split; [vm_compute; reflexivity|]. split; [vm_compute; reflexivity|].
  split; [exact Hnd|].
  split; [exact (proj2 (Hseq Hs eq_refl))|].
  apply Hamong.
  - vm_compute. reflexivity.
  - vm_compute. reflexivity.
  - left. vm_compute. reflexivity.
Defined.

Lemma order_survives_secondary_failures_witness :
  exists o w1,
    first_unavailable shop2 (body_products (demo_order None None)) = None
    /\ Order_save env_mail_down
         (new_order env_mail_down asha_id (demo_order None None) shop2) shop2
       = (Normal o, w1)
    /\ orders (snd (post_orders env_mail_down asha_id (demo_order None None)
                                shop2))
       = (orders shop2 ++ [o])%list
    /\ fst (post_orders env_mail_down asha_id (demo_order None None) shop2)
       = mkResponse 201 (OrderBody "Order placed successfully"
                                   (order_id o) (orderNumber o))
    /\ console (snd (post_orders env_mail_down asha_id (demo_order None None)
                                 shop2))
       = (console shop2 ++ ["Order confirmation email failed:"])%list.
Proof.
  do 2 eexists.
  match goal with
  | |- ?A /\ ?B /\ _ =>
    assert (Ha : A) by (vm_compute; reflexivity);
    assert (Hb : B) by (vm_compute; reflexivity)
  end.
  split; [exact Ha|]. split; [exact Hb|].
  destruct (order_survives_secondary_failures _ _ _ _ _ _ Ha Hb)
    as (Ho & Hok & _).
  split; [exact Ho|].
  destruct (Hok eq_refl) as [Hresp Hmail].
  split; [exact Hresp|]. apply (Hmail eq_refl).
Defined.

Lemma reset_ticket_is_single_use_witness :
  @reachable demo_libraries shop3
  /\ status (fst (@post_auth_reset_password demo_libraries demo_env
                    "reset:asha@example.com" "newsecret" shop3)) = 200
  /\ status (fst (@post_auth_reset_password demo_libraries demo_env
                    "reset:asha@example.com" "another1"
                    (snd (@post_auth_reset_password demo_libraries demo_env
                            "reset:asha@example.com" "newsecret" shop3))))
     <> 200.
Proof.
  assert (Hs : status (fst (@post_auth_reset_password demo_libraries demo_env
                    "reset:asha@example.com" "newsecret" shop3)) = 200)
    by (vm_compute; reflexivity).
  split; [exact shop3_reachable|]. split; [exact Hs|].
  destruct (@reset_ticket_is_single_use demo_libraries demo_env
              "reset:asha@example.com" "newsecret" shop3 shop3_reachable)
    as (_ & _ & Hreset).
  destruct (Hreset Hs) as (decoded & exp & e & r & _ & _ & _ & _ & _ & _ & _
                           & _ & Hreplay).
  apply (Hreplay [] demo_env "another1"). reflexivity.
Defined.

Example register_rejects_duplicate_on_the_shop :
  let again := mkRegisterRequest "asha2" "ASHA@EXAMPLE.COM" "secret2"
                                 (reg_other asha) in
  (forall a b, toLowerCase a = toLowerCase b ->
     toLowerCase (@normalizeEmail demo_libraries a)
     = toLowerCase (@normalizeEmail demo_libraries b))
  /\ @reachable demo_libraries shop0
  /\ @registration_errors demo_libraries asha = []
  /\ status (fst (@post_auth_register demo_libraries demo_env asha shop0))
     = 201
  /\ @registration_errors demo_libraries again = []
  /\ @post_auth_register demo_libraries demo_env again shop1
     = (mkResponse 400 (ErrorBody "Username or email already exists"), shop1).
Proof.
  cbv zeta.
  assert (Hn : forall a b, toLowerCase a = toLowerCase b ->
     toLowerCase (@normalizeEmail demo_libraries a)
     = toLowerCase (@normalizeEmail demo_libraries b))
    by (intros a b H; cbn [normalizeEmail demo_libraries]; congruence).
  assert (Hr : @reachable demo_libraries shop0)
    by (apply reach_initial; exact shop0_initial).
  assert (Hv : @registration_errors demo_libraries asha = [])
    by (vm_compute; reflexivity).
  assert (Hs : status (fst (@post_auth_register demo_libraries demo_env asha
                              shop0)) = 201)
    by (vm_compute; reflexivity).
  assert (Hv2 : @registration_errors demo_libraries
                  (mkRegisterRequest "asha2" "ASHA@EXAMPLE.COM" "secret2"
                                     (reg_other asha)) = [])
    by (vm_compute; reflexivity).
  split; [exact Hn|]. split; [exact Hr|]. split; [exact Hv|].
  split; [exact Hs|]. split; [exact Hv2|].
  destruct (@register_rejects_duplicate_in_any_case demo_libraries demo_env
              asha shop0 Hn Hr Hv) as (_ & _ & _ & Htwice).
  apply (Htwice demo_env _ Hs Hv2). left. vm_compute. reflexivity.
Defined.

(** * Further properties of the server *)

(** ** One cart per user, and no cart of another user touched *)

Lemma map_replace_nth {A B} (h : A -> B) (l : list A) i c c' :
  nth_error l i = Some c -> h c' = h c ->
  map h (update_nth i (fun _ => c') l) = map h l.
Proof.
  revert i. induction l as [|a l IH]; intros [|i] Hc Hh; simpl in *;
    try discriminate.
  - inversion Hc; subst. congruence.
  - rewrite (IH i) by assumption. reflexivity.
Qed.

Lemma cart_of_true userId c : cart_of userId c = true <-> cart_userId c = userId.
Proof. unfold cart_of. apply String.eqb_eq. Qed.

Lemma no_cart_of userId cs :
  findOne (cart_of userId) cs = None -> ~ In userId (map cart_userId cs).
Proof.
  intros E Hin. apply findOne_None in E. rewrite findIndex_None in E.
  apply in_map_iff in Hin. destruct Hin as [c [Hc Hin]].
  specialize (E c Hin). apply cart_of_true in Hc. congruence.
Qed.

Lemma saved_cart_owners userId w c :
  cart_userId c = userId ->
  one_cart_per_user w ->
  NoDup (map cart_userId
    (match option_map fst (findOne (cart_of userId) (carts w)) with
     | Some i => update_nth i (fun _ => c) (carts w)
     | None => (carts w ++ [c])%list
     end)).
Proof.
  intros Hu H. destruct (findOne (cart_of userId) (carts w)) as [[slot c0]|] eqn:E;
    cbn [option_map fst].
  - pose proof (cart_found_user _ _ _ _ E) as Hc0.
    apply findOne_Some in E. destruct E as [_ [E _]].
    rewrite (map_replace_nth _ _ _ c0) by congruence. exact H.
  - rewrite map_app. simpl. apply NoDup_snoc; [exact H|].
    rewrite Hu. apply no_cart_of. assumption.
Qed.

Lemma post_cart_add_owners env userId pid qty w :
  one_cart_per_user w ->
  one_cart_per_user (snd (post_cart_add env userId pid qty w)).
Proof.
  intros H. rewrite post_cart_add_eq.
  destruct (find (is_product pid) (products w)) as [p|]; [|assumption].
  destruct (negb (product_isActive p)); [assumption|].
  cbv zeta.
  match goal with |- context [cart_valid ?c] => destruct (cart_valid c) end;
    [|assumption].
  unfold one_cart_per_user. cbn [snd carts set_carts].
  apply saved_cart_owners; [|assumption].
  destruct (findOne (cart_of userId) (carts w)) as [[slot c]|] eqn:E;
    [|reflexivity].
  cbn [cart_userId]. eapply cart_found_user. eassumption.
Qed.

Lemma replaced_cart_owners userId w slot c c' :
  findOne (cart_of userId) (carts w) = Some (slot, c) ->
  cart_userId c' = cart_userId c ->
  one_cart_per_user w ->
  one_cart_per_user (set_carts (update_nth slot (fun _ => c')) w).
Proof.
  intros E Hu H. unfold one_cart_per_user. cbn [carts set_carts].
  apply findOne_Some in E. destruct E as [_ [E _]].
  rewrite (map_replace_nth _ _ _ c) by assumption. exact H.
Qed.

Lemma put_cart_update_owners env userId pid q w :
  one_cart_per_user w ->
  one_cart_per_user (snd (put_cart_update env userId pid q w)).
Proof.
  intros H. rewrite put_cart_update_eq.
  destruct (findOne (cart_of userId) (carts w)) as [[slot c]|] eqn:E;
    [|assumption].
  destruct (findIndex (is_line pid) (cart_products c)); [|assumption].
  cbv zeta.
  match goal with |- context [cart_valid ?c] => destruct (cart_valid c) end;
    [|assumption].
  cbn [snd]. eapply replaced_cart_owners; eauto.
Qed.

Lemma delete_cart_remove_owners env userId pid w :
  one_cart_per_user w ->
  one_cart_per_user (snd (delete_cart_remove env userId pid w)).
Proof.
  intros H. rewrite delete_cart_remove_eq.
  destruct (findOne (cart_of userId) (carts w)) as [[slot c]|] eqn:E;
    [|assumption].
  cbv zeta.
  match goal with |- context [cart_valid ?c] => destruct (cart_valid c) end;
    [|assumption].
  cbn [snd]. eapply replaced_cart_owners; eauto.
Qed.

Lemma post_orders_carts env u req w :
  carts (snd (post_orders env u req w)) = carts w
  \/ carts (snd (post_orders env u req w))
     = match findIndex (cart_of u) (carts w) with
       | Some i => update_nth i (clear_cart (now env)) (carts w)
       | None => carts w
       end
     /\ status (fst (post_orders env u req w)) = 201.
Proof.
  rewrite post_orders_eq. cbv zeta.
  destruct (first_unavailable _ _); [left; reflexivity|].
  destruct (order_valid _); [|left; reflexivity].
  destruct (existsb _ _); [left; reflexivity|].
  destruct (cart_clear_fails env); [left; reflexivity|].
  right. cbn [fst snd].
  rewrite (proj2 (proj2 (confirm_frame _ _ _ _))). split; reflexivity.
Qed.

Lemma post_orders_owners env u req w :
  one_cart_per_user w -> one_cart_per_user (snd (post_orders env u req w)).
Proof.
  intros H. unfold one_cart_per_user.
  destruct (post_orders_carts env u req w) as [->|[-> _]]; [exact H|].
  destruct (findIndex (cart_of u) (carts w)); [|exact H].
  rewrite map_update_nth; [exact H|reflexivity].
Qed.

Section CartOwners.
Context {L : Libraries}.

Lemma serve_one_cart env r w :
  one_cart_per_user w -> one_cart_per_user (snd (serve env r w)).
Proof.
  intros H. destruct r; cbn [serve].
  - unfold one_cart_per_user. rewrite register_carts. exact H.
  - unfold one_cart_per_user. rewrite login_carts. exact H.
  - unfold one_cart_per_user. rewrite forgot_carts. exact H.
  - unfold one_cart_per_user. rewrite reset_carts. exact H.
  - unfold one_cart_per_user. rewrite profile_carts. exact H.
  - apply post_cart_add_owners. exact H.
  - apply put_cart_update_owners. exact H.
  - apply delete_cart_remove_owners. exact H.
  - apply post_orders_owners. exact H.
Qed.

Lemma reachable_one_cart w : reachable w -> one_cart_per_user w.
Proof.
  induction 1 as [w [_ [_ [Hc _]]]|env r w _ IH|ps w _ IH|t w _ IH].
  - unfold one_cart_per_user. rewrite Hc. constructor.
  - apply serve_one_cart. assumption.
  - exact IH.
  - exact IH.
Qed.

End CartOwners.

Lemma the_cart_of_a_user userId w c :
  one_cart_per_user w -> In c (carts w) -> cart_userId c = userId ->
  cart_products c = cart_lines userId w.
Proof.
  intros H Hin Hu. unfold cart_lines.
  destruct (findOne (cart_of userId) (carts w)) as [[slot c0]|] eqn:E.
  - pose proof (cart_found_user _ _ _ _ E) as Hc0.
    apply findOne_Some in E. destruct E as [_ [E _]].
    apply In_nth_error in Hin. destruct Hin as [j Hj].
    assert (Hlt : (j < List.length (map cart_userId (carts w)))%nat).
    { rewrite length_map. apply nth_error_Some. congruence. }
    assert (j = slot).
    { apply (proj1 (NoDup_nth_error (map cart_userId (carts w))) H j slot Hlt).
      rewrite !nth_error_map, Hj, E. simpl. congruence. }
    subst j. congruence.
  - exfalso. apply (no_cart_of _ _ E). apply in_map_iff. eauto.
Qed.

(** X1. In every world the server reaches by serving requests one after
    the other no user has two carts: the cart routes create a cart only
    when the user has none and write back the one they found.  So the
    lines GET /api/cart shows are those of every cart document of the
    user.  (The cart schema has no unique index on [userId]; the property
    is one of requests that do not overlap.) *)
Theorem one_cart_for_each_user {L : Libraries} userId w :
  reachable w ->
  NoDup (map cart_userId (carts w))
  /\ (forall c, In c (carts w) -> cart_userId c = userId ->
        cart_products c = cart_lines userId w
        /\ get_cart userId w = map (populate_line w) (cart_products c))
  /\ (forall env r, NoDup (map cart_userId (carts (snd (serve env r w))))).
Proof.
  intros Hr. pose proof (reachable_one_cart w Hr) as H.
  split; [exact H|]. split.
  - intros c Hin Hu. pose proof (the_cart_of_a_user _ _ _ H Hin Hu) as E.
    split; [exact E|]. rewrite E. unfold get_cart, cart_lines.
    destruct (findOne (cart_of userId) (carts w)) as [[slot c0]|]; reflexivity.
  - intros env r. apply (serve_one_cart env r w H).
Qed.

Lemma nth_error_update_nth_neq {A} (g : A -> A) l i j :
  j <> i -> nth_error (update_nth i g l) j = nth_error l j.
Proof.
  revert i j. induction l as [|a l IH]; intros [|i] [|j] H; simpl; auto;
    try congruence.
Qed.

Lemma findIndex_update_other {A} (f : A -> bool) (g : A -> A) l i x :
  nth_error l i = Some x -> f x = false -> f (g x) = false ->
  findIndex f (update_nth i g l) = findIndex f l.
Proof.
  revert i. induction l as [|a l IH]; intros [|i] Hx F G; simpl in *;
    try discriminate.
  - inversion Hx; subst. rewrite F, G. reflexivity.
  - rewrite (IH i) by assumption. reflexivity.
Qed.

Lemma findOne_update_other {A} (f : A -> bool) (g : A -> A) l i x :
  nth_error l i = Some x -> f x = false -> f (g x) = false ->
  findOne f (update_nth i g l) = findOne f l.
Proof.
  intros Hx F G. unfold findOne.
  rewrite (findIndex_update_other f g l i x) by assumption.
  destruct (findIndex f l) as [j|] eqn:E; [|reflexivity].
  rewrite nth_error_update_nth_neq; [reflexivity|].
  intros ->. destruct (findIndex_Some _ _ _ E) as [y [Hy Fy]]. congruence.
Qed.

Lemma findOne_snoc_other {A} (f : A -> bool) l c :
  f c = false -> findOne f (l ++ [c]) = findOne f l.
Proof.
  intros F. unfold findOne.
  assert (E : findIndex f (l ++ [c]) = findIndex f l).
  { induction l as [|a l IH]; simpl; [rewrite F; reflexivity|].
    rewrite IH. reflexivity. }
  rewrite E. destruct (findIndex f l) as [j|] eqn:Ej; [|reflexivity].
  destruct (findIndex_Some _ _ _ Ej) as [y [Hy _]].
  rewrite nth_error_app1; [reflexivity|]. apply nth_error_Some. congruence.
Qed.

Lemma cart_of_other u u' c : u' <> u -> cart_userId c = u -> cart_of u' c = false.
Proof.
  intros Hne Hu. unfold cart_of. apply String.eqb_neq. congruence.
Qed.

Lemma found_cart_saved_other u u' w c :
  u' <> u -> cart_userId c = u ->
  findOne (cart_of u')
    (match option_map fst (findOne (cart_of u) (carts w)) with
     | Some i => update_nth i (fun _ => c) (carts w)
     | None => (carts w ++ [c])%list
     end)
  = findOne (cart_of u') (carts w).
Proof.
  intros Hne Hu.
  destruct (findOne (cart_of u) (carts w)) as [[slot c0]|] eqn:E;
    cbn [option_map fst].
  - pose proof (cart_found_user _ _ _ _ E) as Hc0.
    apply findOne_Some in E. destruct E as [_ [E _]].
    apply (findOne_update_other _ _ _ _ c0); auto;
      apply (cart_of_other u); auto.
  - apply findOne_snoc_other. apply (cart_of_other u); auto.
Qed.

Lemma found_cart_replaced_other u u' w slot c c' :
  u' <> u ->
  findOne (cart_of u) (carts w) = Some (slot, c) ->
  cart_userId c' = cart_userId c ->
  findOne (cart_of u') (update_nth slot (fun _ => c') (carts w))
  = findOne (cart_of u') (carts w).
Proof.
  intros Hne E Hu. pose proof (cart_found_user _ _ _ _ E) as Hc.
  apply findOne_Some in E. destruct E as [_ [E _]].
  apply (findOne_update_other _ _ _ _ c); auto;
    apply (cart_of_other u); congruence.
Qed.

(** The cart document of a user other than the one a route acts for *)
Lemma post_cart_add_other env u u' pid qty w :
  u' <> u ->
  findOne (cart_of u') (carts (snd (post_cart_add env u pid qty w)))
  = findOne (cart_of u') (carts w).
Proof.
  intros Hne. rewrite post_cart_add_eq.
  destruct (find (is_product pid) (products w)) as [p|]; [|reflexivity].
  destruct (negb (product_isActive p)); [reflexivity|].
  cbv zeta.
  match goal with |- context [cart_valid ?c] => destruct (cart_valid c) end;
    [|reflexivity].
  cbn [snd carts set_carts].
  apply found_cart_saved_other; [assumption|].
  destruct (findOne (cart_of u) (carts w)) as [[slot c]|] eqn:E;
    [|reflexivity].
  cbn [cart_userId]. eapply cart_found_user. eassumption.
Qed.

Lemma put_cart_update_other env u u' pid q w :
  u' <> u ->
  findOne (cart_of u') (carts (snd (put_cart_update env u pid q w)))
  = findOne (cart_of u') (carts w).
Proof.
  intros Hne. rewrite put_cart_update_eq.
  destruct (findOne (cart_of u) (carts w)) as [[slot c]|] eqn:E;
    [|reflexivity].
  destruct (findIndex (is_line pid) (cart_products c)); [|reflexivity].
  cbv zeta.
  match goal with |- context [cart_valid ?c] => destruct (cart_valid c) end;
    [|reflexivity].
  cbn [snd carts set_carts].
  eapply found_cart_replaced_other; eauto.
Qed.

Lemma delete_cart_remove_other env u u' pid w :
  u' <> u ->
  findOne (cart_of u') (carts (snd (delete_cart_remove env u pid w)))
  = findOne (cart_of u') (carts w).
Proof.
  intros Hne. rewrite delete_cart_remove_eq.
  destruct (findOne (cart_of u) (carts w)) as [[slot c]|] eqn:E;
    [|reflexivity].
  cbv zeta.
  match goal with |- context [cart_valid ?c] => destruct (cart_valid c) end;
    [|reflexivity].
  cbn [snd carts set_carts].
  eapply found_cart_replaced_other; eauto.
Qed.

Lemma post_orders_other env u u' req w :
  u' <> u ->
  findOne (cart_of u') (carts (snd (post_orders env u req w)))
  = findOne (cart_of u') (carts w).
Proof.
  intros Hne.
  destruct (post_orders_carts env u req w) as [->|[-> _]]; [reflexivity|].
  destruct (findIndex (cart_of u) (carts w)) as [i|] eqn:E; [|reflexivity].
  destruct (findIndex_Some _ _ _ E) as [c [Hc Fc]].
  apply cart_of_true in Fc.
  apply (findOne_update_other _ _ _ _ c); auto;
    apply (cart_of_other u); auto.
Qed.

Lemma cart_routes_products env r w :
  forall (L : Libraries), products (snd (@serve L env r w)) = products w.
Proof.
  intros L. destruct r; cbn [serve].
  - unfold post_auth_register, register_handler. frame.
  - unfold post_auth_login, login_handler. frame.
  - unfold post_auth_forgot_password. frame.
  - unfold post_auth_reset_password. frame.
  - unfold put_user_profile. frame.
  - rewrite post_cart_add_eq. cbv zeta. split_cases; reflexivity.
  - rewrite put_cart_update_eq. cbv zeta. split_cases; reflexivity.
  - rewrite delete_cart_remove_eq. cbv zeta. split_cases; reflexivity.
  - rewrite post_orders_eq. cbv zeta.
    destruct (first_unavailable _ _); [reflexivity|].
    destruct (order_valid _); [|reflexivity].
    destruct (existsb _ _); [reflexivity|].
    destruct (cart_clear_fails env); [reflexivity|].
    cbn [snd]. unfold confirm.
    destruct (find _ _); [destruct (mail_fails env)|]; reflexivity.
Qed.

(** X2. A request leaves the cart of every user it does not act for as it
    was: adding, updating, removing and ordering for one user, and every
    account request, change neither the lines nor what GET /api/cart shows
    of another user's cart. *)
Theorem carts_of_other_users_untouched {L : Libraries} env r u' w :
  acting_user r <> Some u' ->
  cart_lines u' (snd (serve env r w)) = cart_lines u' w
  /\ get_cart u' (snd (serve env r w)) = get_cart u' w.
Proof.
  intros Hact.
  assert (E : findOne (cart_of u') (carts (snd (serve env r w)))
              = findOne (cart_of u') (carts w)).
  { destruct r; cbn [serve acting_user] in *.
    - rewrite register_carts. reflexivity.
    - rewrite login_carts. reflexivity.
    - rewrite forgot_carts. reflexivity.
    - rewrite reset_carts. reflexivity.
    - rewrite profile_carts. reflexivity.
    - apply post_cart_add_other. congruence.
    - apply put_cart_update_other. congruence.
    - apply delete_cart_remove_other. congruence.
    - apply post_orders_other. congruence. }
  unfold cart_lines, get_cart. rewrite E.
  split; [reflexivity|].
  destruct (findOne (cart_of u') (carts w)) as [[slot c]|]; [|reflexivity].
  unfold populate_line. rewrite cart_routes_products. reflexivity.
Qed.

(** ** Removing from a cart *)

Lemma valid_filter (f : CartLine -> bool) ps :
  forallb (fun l => 1 <=? quantity l) ps = true ->
  forallb (fun l => 1 <=? quantity l) (filter f ps) = true.
Proof.
  intros H. rewrite forallb_forall in *. intros x Hx.
  apply filter_In in Hx. apply H. tauto.
Qed.

Lemma delete_cart_remove_lines env u pid w slot c :
  carts_ok w ->
  findOne (cart_of u) (carts w) = Some (slot, c) ->
  fst (delete_cart_remove env u pid w)
  = mkResponse 200 (MessageBody "Product removed from cart successfully")
  /\ cart_lines u (snd (delete_cart_remove env u pid w))
     = filter (fun p => negb (is_line pid p)) (cart_products c).
Proof.
  intros Hok E. rewrite delete_cart_remove_eq, E. cbv zeta.
  destruct (carts_ok_found _ _ _ _ Hok E) as [_ Hv].
  match goal with |- context [cart_valid ?c] =>
    assert (V : cart_valid c = true)
      by (unfold cart_valid; cbn [cart_products]; apply valid_filter;
          exact Hv)
  end.
  rewrite V. cbn [fst snd]. split; [reflexivity|].
  rewrite (cart_lines_replaced u w slot c)
    by (first [exact E | cbn [cart_userId]; eapply cart_found_user; exact E]).
  reflexivity.
Qed.

Lemma filter_lines_absent pid ps :
  ~ In pid (map productId ps) ->
  filter (fun p => negb (is_line pid p)) ps = ps.
Proof.
  induction ps as [|a ps IH]; simpl; intros H; [reflexivity|].
  destruct (is_line pid a) eqn:F.
  - apply is_line_true in F. exfalso. apply H. left. assumption.
  - simpl. rewrite IH; [reflexivity|]. intros Hin. apply H. right. assumption.
Qed.

Lemma filter_lines_gone pid ps :
  ~ In pid (map productId (filter (fun p => negb (is_line pid p)) ps)).
Proof.
  intros Hin. apply in_map_iff in Hin. destruct Hin as [x [Hx Hin]].
  apply filter_In in Hin. destruct Hin as [_ F].
  apply is_line_true in Hx. rewrite Hx in F. discriminate.
Qed.

Lemma filter_lines_other pid pid' ps :
  pid' <> pid ->
  quantity_of pid' (filter (fun p => negb (is_line pid p)) ps)
  = quantity_of pid' ps.
Proof.
  intros Hne. unfold quantity_of. f_equal.
  induction ps as [|a ps IH]; simpl; [reflexivity|].
  destruct (is_line pid a) eqn:F; simpl.
  - apply is_line_true in F.
    assert (G : is_line pid' a = false)
      by (unfold is_line; apply String.eqb_neq; congruence).
    rewrite G. exact IH.
  - destruct (is_line pid' a); [reflexivity|exact IH].
Qed.

(** X3. DELETE /api/cart/remove/:productId for a user without a cart
    answers 404 "Cart not found" and changes nothing.  For a user with a
    cart it answers 200, whether the product was in the cart or not:
    afterwards the product is not in the cart, the other lines are as
    they were, in their order, and when the product was not in the cart
    the lines are unchanged. *)
Theorem cart_remove_deletes_the_line {L : Libraries} env u pid w :
  reachable w ->
  (findOne (cart_of u) (carts w) = None ->
   delete_cart_remove env u pid w
   = (mkResponse 404 (ErrorBody "Cart not found"), w))
  /\ (findOne (cart_of u) (carts w) <> None ->
      let w' := snd (delete_cart_remove env u pid w) in
      fst (delete_cart_remove env u pid w)
      = mkResponse 200 (MessageBody "Product removed from cart successfully")
      /\ cart_lines u w'
         = filter (fun p => negb (is_line pid p)) (cart_lines u w)
      /\ ~ In pid (map productId (cart_lines u w'))
      /\ (forall pid', pid' <> pid ->
            quantity_of pid' (cart_lines u w')
            = quantity_of pid' (cart_lines u w))
      /\ (~ In pid (map productId (cart_lines u w)) ->
          cart_lines u w' = cart_lines u w)).
Proof.
  intros Hr. pose proof (reachable_carts_ok w Hr) as Hok. split.
  - intros E. rewrite delete_cart_remove_eq, E. reflexivity.
  - intros E. cbv zeta.
    destruct (findOne (cart_of u) (carts w)) as [[slot c]|] eqn:Ef;
      [|congruence].
    destruct (delete_cart_remove_lines env u pid w slot c Hok Ef) as [Hs Hl].
    rewrite Hl, (cart_lines_found _ _ _ _ Ef).
    split; [exact Hs|]. split; [reflexivity|].
    split; [apply filter_lines_gone|].
    split; [intros pid' Hne; apply filter_lines_other; assumption|].
    apply filter_lines_absent.
Qed.

(** X4. Adding a product that is not in the cart and then removing it
    gives the user's cart the lines it had: for an active product and a
    quantity of at least 1 both requests answer 200 and the lines after the
    two are the lines before. *)
Theorem cart_add_then_remove {L : Libraries} env env' u pid qty w p :
  reachable w ->
  find (is_product pid) (products w) = Some p ->
  product_isActive p = true ->
  1 <= match qty with Some q => q | None => 1 end ->
  ~ In pid (map productId (cart_lines u w)) ->
  let w1 := snd (post_cart_add env u pid qty w) in
  status (fst (post_cart_add env u pid qty w)) = 200
  /\ status (fst (delete_cart_remove env' u pid w1)) = 200
  /\ cart_lines u (snd (delete_cart_remove env' u pid w1)) = cart_lines u w.
Proof.
  intros Hr Hp Ha Hq Habs. cbv zeta.
  pose proof (reachable_carts_ok w Hr) as Hok.
  pose proof (post_cart_add_accepts env u pid qty w p Hok Hp Ha Hq) as Hs.
  pose proof (post_cart_add_lines env u pid qty w Hs) as Hl.
  pose proof (post_cart_add_ok env u pid qty w Hok) as Hok1.
  rewrite (add_line_absent _ _ _ _ Habs) in Hl.
  split; [exact Hs|].
  destruct (findOne (cart_of u) (carts (snd (post_cart_add env u pid qty w))))
    as [[slot c]|] eqn:E.
  - destruct (delete_cart_remove_lines env' u pid _ slot c Hok1 E) as [Hs' Hl'].
    rewrite Hs', Hl'. split; [reflexivity|].
    rewrite <- (cart_lines_found _ _ _ _ E), Hl.
    rewrite filter_app. cbn [filter]. unfold is_line at 2.
    cbn [productId]. rewrite String.eqb_refl. cbn [negb].
    rewrite app_nil_r. apply filter_lines_absent. assumption.
  - rewrite (cart_lines_none _ _ E) in Hl.
    destruct (cart_lines u w); discriminate.
Qed.

(** ** Cart requests that are refused *)

Lemma invalid_line_rejected ps x :
  In x ps -> quantity x < 1 ->
  forallb (fun l => 1 <=? quantity l) ps = false.
Proof.
  intros Hin Hq. destruct (forallb _ ps) eqn:E; [|reflexivity].
  rewrite forallb_forall in E. specialize (E x Hin).
  apply Z.leb_le in E. lia.
Qed.

Lemma quantity_of_In pid ps q0 :
  quantity_of pid ps = Some q0 ->
  exists x, In x ps /\ productId x = pid /\ quantity x = q0.
Proof.
  unfold quantity_of. destruct (find (is_line pid) ps) as [x|] eqn:E;
    [|discriminate].
  intros H. inversion H; subst. apply find_some in E. destruct E as [Hin F].
  apply is_line_true in F. eauto.
Qed.

(** X5. The cart routes refuse without changing anything: adding, by a
    reference in the canonical rendering (24 hexadecimal digits, letters
    in lower case), a product that does not exist or is inactive answers
    404 "Product not found" (also when the product is already in the
    cart); updating answers 404 "Cart not found" for a user without a cart
    and 404 "Product not found in cart" when no line of the cart renders
    as the reference sent; and an add that would leave the line of an
    active product with a quantity below 1 is rejected by the schema,
    answered 500 "Internal server error", and only logged. *)
Theorem cart_requests_refused env u pid qty q w :
  (canonical pid = true ->
   available w (mkItem pid 1 None []) = false ->
   post_cart_add env u pid qty w
   = (mkResponse 404 (ErrorBody "Product not found"), w))
  /\ (findOne (cart_of u) (carts w) = None ->
      put_cart_update env u pid q w
      = (mkResponse 404 (ErrorBody "Cart not found"), w))
  /\ (findOne (cart_of u) (carts w) <> None ->
      ~ In pid (map productId (cart_lines u w)) ->
      put_cart_update env u pid q w
      = (mkResponse 404 (ErrorBody "Product not found in cart"), w))
  /\ (available w (mkItem pid 1 None []) = true ->
      match quantity_of pid (cart_lines u w) with
      | Some q0 => q0
      | None => 0
      end + match qty with Some q => q | None => 1 end < 1 ->
      post_cart_add env u pid qty w
      = (mkResponse 500 (ErrorBody "Internal server error"),
         log "Add to cart error:" w)).
Proof.
  split; [|split; [|split]].
  - unfold available. cbn [item_productId]. intros _ Ha.
    rewrite post_cart_add_eq.
    destruct (find (is_product pid) (products w)) as [p|]; [|reflexivity].
    rewrite Ha. reflexivity.
  - intros E. rewrite put_cart_update_eq, E. reflexivity.
  - intros E Habs. rewrite put_cart_update_eq.
    destruct (findOne (cart_of u) (carts w)) as [[slot c]|] eqn:Ef;
      [|congruence].
    rewrite (cart_lines_found _ _ _ _ Ef) in Habs.
    destruct (findIndex (is_line pid) (cart_products c)) as [i|] eqn:Ei;
      [|reflexivity].
    apply in_lines in Ei. contradiction.
  - unfold available. cbn [item_productId]. intros Ha Hq.
    rewrite post_cart_add_eq.
    destruct (find (is_product pid) (products w)) as [p|]; [|discriminate].
    rewrite Ha. cbn [negb]. cbv zeta.
    match goal with |- context [cart_valid ?c] =>
      assert (V : cart_valid c = false) end.
    { unfold cart_valid. cbn [cart_products].
      assert (El : cart_lines u w
                   = cart_products
                       match findOne (cart_of u) (carts w) with
                       | Some (_, c) => c
                       | None => mkCart u [] (now env)
                       end).
      { unfold cart_lines.
        destruct (findOne (cart_of u) (carts w)) as [[slot c]|]; reflexivity. }
      rewrite <- El.
      destruct (quantity_of pid (cart_lines u w)) as [q0|] eqn:E0.
      - pose proof (add_line_quantity_present (now env) pid
                      (match qty with Some q => q | None => 1 end)
                      _ _ E0) as H1.
        apply quantity_of_In in H1. destruct H1 as [x [Hin [_ Hx]]].
        apply (invalid_line_rejected _ x); [assumption|lia].
      - rewrite add_line_absent.
        + apply (invalid_line_rejected _
                   (mkCartLine pid (match qty with Some q => q | None => 1 end)
                               (now env))).
          * apply in_app_iff. right. left. reflexivity.
          * cbn [quantity]. lia.
        + intros Hin. apply in_lines_index in Hin. destruct Hin as [i Hi].
          unfold quantity_of in E0. rewrite findIndex_find, Hi in E0.
          destruct (findIndex_Some _ _ _ Hi) as [x [Hx _]].
          rewrite Hx in E0. discriminate. }
    rewrite V. reflexivity.
Qed.

(** ** What placing an order does *)

Lemma cleared_cart_lines env u cs :
  match findOne (cart_of u)
          (match findIndex (cart_of u) cs with
           | Some i => update_nth i (clear_cart (now env)) cs
           | None => cs
           end) with
  | Some (_, c) => cart_products c
  | None => []
  end = [].
Proof.
  destruct (findIndex (cart_of u) cs) as [i|] eqn:E.
  - destruct (findIndex_Some _ _ _ E) as [c [Hc Fc]].
    unfold findOne. rewrite findIndex_update_nth by reflexivity.
    rewrite E, nth_error_update_nth, Hc. reflexivity.
  - unfold findOne. rewrite E. reflexivity.
Qed.

(** X6. A POST /api/orders that answers 201 has stored exactly one more
    order: it belongs to the caller, has status "Placed" and the address
    and payment method of the request.  The caller's cart is empty afterwards
    (GET /api/cart shows no line), users and catalog are as they were, and
    when the mail transport works one confirmation mail, with the order
    number in its subject, has gone to the caller's stored email. *)
Theorem order_placed_effects env u req w :
  status (fst (post_orders env u req w)) = 201 ->
  let w' := snd (post_orders env u req w) in
  exists o,
    orders w' = (orders w ++ [o])%list
    /\ order_userId o = u /\ order_status o = "Placed"
    /\ deliveryAddress o = body_deliveryAddress req
    /\ paymentMethod o = body_paymentMethod req
    /\ cart_lines u w' = [] /\ get_cart u w' = []
    /\ users w' = users w /\ products w' = products w
    /\ (mail_fails env = false ->
        forall usr, find (is_user_id u) (users w) = Some usr ->
          outbox w'
          = (outbox w ++ [mkMail (email usr)
                            ("Order Confirmation - " ++ orderNumber o)])%list).
Proof.
  rewrite post_orders_eq. cbv zeta.
  destruct (first_unavailable _ _); [discriminate|].
  destruct (order_valid _); [|discriminate].
  destruct (existsb _ _); [discriminate|].
  destruct (cart_clear_fails env); [discriminate|].
  intros _. cbn [snd]. eexists.
  split; [rewrite orders_confirm; reflexivity|].
  do 4 (split; [reflexivity|]).
  destruct (confirm_frame env u
    (set_orderNumber
       (order_number (now env) (Z.of_nat (List.length (orders w))))
       (new_order env u req w))
    (set_carts (fun cs =>
       match findIndex (cart_of u) cs with
       | Some i => update_nth i (clear_cart (now env)) cs
       | None => cs
       end)
       (set_orders (fun os =>
          (os ++ [set_orderNumber
                    (order_number (now env)
                       (Z.of_nat (List.length (orders w))))
                    (new_order env u req w)])%list) w)))
    as (Hu & _ & Hc).
  split; [unfold cart_lines; rewrite Hc; apply cleared_cart_lines|].
  split.
  { unfold get_cart. rewrite Hc. cbn [carts set_carts set_orders].
    pose proof (cleared_cart_lines env u (carts w)) as H.
    destruct (findOne _ _) as [[slot c]|]; [|reflexivity].
    rewrite H. reflexivity. }
  split; [rewrite Hu; reflexivity|].
  split.
  { unfold confirm. destruct (find _ _); [destruct (mail_fails env)|];
      reflexivity. }
  intros Hm usr Husr. unfold confirm. cbn [users set_carts set_orders].
  rewrite Husr, Hm. reflexivity.
Qed.



Section StoredOrders.
Context {L : Libraries}.


End StoredOrders.


(** X8. The order route does not ask for a line item.  A request with an
    empty [products] list, a complete address and a payment method of the
    schema is stored as an order without lines whose total is the delivery
    charge, 3, whenever the number the hook builds is not taken. *)
Theorem order_without_lines_is_accepted env u req w :
  body_products req = [] ->
  order_valid (new_order env u req w) = true ->
  ~ In (order_number (now env) (Z.of_nat (List.length (orders w))))
       (map orderNumber (orders w)) ->
  exists o,
    orders (snd (post_orders env u req w)) = (orders w ++ [o])%list
    /\ order_products o = [] /\ totalAmount o = 3
    /\ (cart_clear_fails env = false ->
        status (fst (post_orders env u req w)) = 201).
Proof.
  intros Hp Hv Hn. apply has_number_absent in Hn.
  rewrite post_orders_eq, Hp. cbn [first_unavailable find]. cbv zeta.
  rewrite Hv. cbn [orderNumber set_orderNumber]. rewrite Hn.
  eexists. split.
  - destruct (cart_clear_fails env); cbn [snd];
      [rewrite orders_log|rewrite orders_confirm]; reflexivity.
  - cbn [order_products totalAmount set_orderNumber new_order].
    rewrite Hp. split; [reflexivity|]. split; [reflexivity|].
    intros ->. reflexivity.
Qed.

Lemma nonempty_false s : s = EmptyString -> nonempty s = false.
Proof. intros ->. reflexivity. Qed.

(** X9. An order that the schema rejects is answered 500, not 400.  When
    every line item has an active product but some line has a quantity
    below 1, or the payment method is none of the schema's three, or an
    address field is empty, the response is 500 "Internal server error":
    the error is logged and nothing else happens; no order is stored, the
    cart stays, no mail is sent. *)
Theorem order_rejected_by_schema env u req w :
  first_unavailable w (body_products req) = None ->
  (exists i, In i (body_products req) /\ item_quantity i < 1)
  \/ ~ In (body_paymentMethod req)
          ["Cash on Delivery"; "Credit/Debit Card"; "UPI"]
  \/ addr_name (body_deliveryAddress req) = EmptyString
  \/ addr_phone (body_deliveryAddress req) = EmptyString
  \/ addr_pincode (body_deliveryAddress req) = EmptyString
  \/ addr_address (body_deliveryAddress req) = EmptyString ->
  post_orders env u req w
  = (mkResponse 500 (ErrorBody "Internal server error"),
     log "Create order error:" w).
Proof.
  intros Hav Hbad. rewrite post_orders_eq, Hav. cbv zeta.
  assert (V : order_valid (new_order env u req w) = false).
  { unfold order_valid.
    cbn [order_products deliveryAddress paymentMethod new_order].
    destruct Hbad as [[i [Hin Hq]]|[Hp|[Ha|[Ha|[Ha|Ha]]]]].
    - assert (F : forallb (fun l => 1 <=? line_quantity l)
                          (map (snapshot w) (body_products req)) = false).
      { destruct (forallb _ _) eqn:E; [|reflexivity].
        rewrite forallb_forall in E.
        specialize (E (snapshot w i) (in_map _ _ _ Hin)).
        apply Z.leb_le in E. cbn [line_quantity snapshot] in E. lia. }
      rewrite F. reflexivity.
    - assert (F : existsb (String.eqb (body_paymentMethod req))
                          payment_methods = false).
      { destruct (existsb _ _) eqn:E; [|reflexivity].
        apply existsb_exists in E. destruct E as [x [Hx Hxe]].
        apply String.eqb_eq in Hxe. subst x. contradiction. }
      rewrite F. apply andb_false_r.
    - rewrite (nonempty_false _ Ha).
      rewrite andb_false_r. reflexivity.
    - rewrite (nonempty_false _ Ha).
      rewrite !andb_false_r. reflexivity.
    - rewrite (nonempty_false _ Ha).
      rewrite !andb_false_r. reflexivity.
    - rewrite (nonempty_false _ Ha).
      rewrite !andb_false_r. reflexivity. }
  rewrite V. reflexivity.
Qed.

(** ** Reading orders *)

Lemma find_is_order_of u id os o :
  find (is_order_of u id) os = Some o ->
  In o os /\ order_id o = id /\ order_userId o = u.
Proof.
  intros H. apply find_some in H. destruct H as [Hin H].
  unfold is_order_of in H. apply andb_true_iff in H. destruct H as [H1 H2].
  apply String.eqb_eq in H1, H2. auto.
Qed.

(** X10. GET /api/orders/:id shows an order only to its owner.  A document
    it answers with is a stored order with the requested id whose userId is
    the caller's, with its product references populated; and it answers 404
    "Order not found" exactly when no stored order with that id belongs to
    the caller, so an id of somebody else's order gets the same answer as
    an id that does not exist. *)
Theorem order_is_shown_to_its_owner_only u id w :
  (forall po, get_order u id w = Answer po ->
     In (po_order po) (orders w)
     /\ order_id (po_order po) = id /\ order_userId (po_order po) = u
     /\ po = populate_order w (po_order po))
  /\ ((forall o, In o (orders w) -> order_id o = id -> order_userId o <> u)
      <-> get_order u id w = Refusal 404 "Order not found")
  /\ (forall u', (forall o, In o (orders w) -> order_id o <> id) ->
        get_order u' id w = get_order u id w).
Proof.
  unfold get_order. split; [|split].
  - intros po H.
    destruct (find (is_order_of u id) (orders w)) as [o|] eqn:E;
      [|discriminate].
    injection H as <-. apply find_is_order_of in E.
    destruct E as (Hin & Hid & Hu). cbn [po_order populate_order]. auto.
  - split.
    + intros H.
      destruct (find (is_order_of u id) (orders w)) as [o|] eqn:E;
        [|reflexivity].
      apply find_is_order_of in E. destruct E as (Hin & Hid & Hu).
      exfalso. exact (H o Hin Hid Hu).
    + intros H o Hin Hid Hu.
      destruct (find (is_order_of u id) (orders w)) as [o'|] eqn:E;
        [discriminate|].
      pose proof (find_none _ _ E o Hin) as F. unfold is_order_of in F.
      rewrite <- Hid, <- Hu, !String.eqb_refl in F. discriminate.
  - intros u' H.
    destruct (find (is_order_of u' id) (orders w)) as [o|] eqn:E.
    { apply find_is_order_of in E. destruct E as (Hin & Hid & _).
      exfalso. exact (H o Hin Hid). }
    destruct (find (is_order_of u id) (orders w)) as [o|] eqn:E';
      [|reflexivity].
    apply find_is_order_of in E'. destruct E' as (Hin & Hid & _).
    exfalso. exact (H o Hin Hid).
Qed.

Lemma find_snoc_none {A} (f : A -> bool) l x :
  find f l = None -> find f (l ++ [x])%list = if f x then Some x else None.
Proof.
  induction l as [|y r IH]; simpl; [reflexivity|].
  destruct (f y); [discriminate|]. exact IH.
Qed.

Lemma find_snoc_false {A} (f : A -> bool) l x :
  f x = false -> find f (l ++ [x])%list = find f l.
Proof.
  intros Hx. induction l as [|y r IH]; simpl.
  - rewrite Hx. reflexivity.
  - destruct (f y); [reflexivity|]. exact IH.
Qed.

Lemma available_product w i :
  available w i = true ->
  exists p, find (is_product (item_productId i)) (products w) = Some p
            /\ product_id p = item_productId i
            /\ product_isActive p = true.
Proof.
  unfold available.
  destruct (find (is_product (item_productId i)) (products w)) as [p|] eqn:E;
    [|discriminate].
  intros Ha. exists p. split; [reflexivity|]. split; [|exact Ha].
  apply find_some in E. destruct E as [_ E]. apply String.eqb_eq in E.
  exact E.
Qed.

Lemma available_populated w items :
  (forall i, In i items -> available w i = true) ->
  Forall2 (fun i found =>
             exists p, found = Some p
                       /\ product_id p = item_productId i
                       /\ product_isActive p = true)
          items
          (map (fun i => find (is_product (item_productId i)) (products w))
               items).
Proof.
  induction items as [|i r IH]; intros Hall; simpl; constructor.
  - destruct (available_product w i (Hall i (or_introl eq_refl)))
      as (p & Fp & Hid & Ha).
    exists p. auto.
  - apply IH. intros j Hj. apply Hall. right. exact Hj.
Qed.

(** X11. An order that POST /api/orders has accepted can be read back.
    With the id and the number of the 201 response, when the id the store
    gave the document was not in use, GET /api/orders/:id answers the
    caller with that order: it carries the number of the response, the
    recomputed total when the prices, quantities, products and running sums
    of the lines are whole numbers a double holds exactly, and every line
    is populated with the active product it was ordered from.  Every other
    user gets 404 for that id, and the answers for all other ids are what
    they were before. *)
Theorem placed_order_can_be_read_back env u req w msg oid num :
  fst (post_orders env u req w) = mkResponse 201 (OrderBody msg oid num) ->
  (forall o, In o (orders w) -> order_id o <> fresh_id env) ->
  let w' := snd (post_orders env u req w) in
  exists o,
    get_order u oid w' = Answer (populate_order w' o)
    /\ order_id o = oid /\ orderNumber o = num /\ order_userId o = u
    /\ (exact_total w (body_products req) = true ->
        totalAmount o = spec_totalAmount w (body_products req))
    /\ Forall2 (fun i found =>
                  exists p, found = Some p
                            /\ product_id p = item_productId i
                            /\ product_isActive p = true)
               (body_products req) (po_products (populate_order w' o))
    /\ (forall u', u' <> u ->
          get_order u' oid w' = Refusal 404 "Order not found")
    /\ (forall u' id, id <> oid -> get_order u' id w' = get_order u' id w).
Proof.
  rewrite post_orders_eq. cbv zeta.
  destruct (first_unavailable w (body_products req)) eqn:Ef; [discriminate|].
  destruct (order_valid _); [|discriminate].
  destruct (existsb _ _); [discriminate|].
  destruct (cart_clear_fails env); [discriminate|].
  cbn [fst snd]. intros R Hfresh. injection R as Hmsg <- <-.
  set (o := set_orderNumber
              (order_number (now env) (Z.of_nat (List.length (orders w))))
              (new_order env u req w)).
  set (w2 := set_carts _ _).
  assert (Ho : orders (confirm env u o w2) = (orders w ++ [o])%list).
  { rewrite orders_confirm. reflexivity. }
  assert (Hp : products (confirm env u o w2) = products w).
  { unfold confirm. destruct (find _ _); [destruct (mail_fails env)|];
      reflexivity. }
  assert (Hnone : forall u', find (is_order_of u' (fresh_id env)) (orders w)
                             = None).
  { intros u'.
    destruct (find (is_order_of u' (fresh_id env)) (orders w)) as [x|] eqn:E;
      [|reflexivity].
    apply find_is_order_of in E. destruct E as (Hin & Hid & _).
    exfalso. exact (Hfresh x Hin Hid). }
  exists o. split.
  { unfold get_order. rewrite Ho, (find_snoc_none _ _ _ (Hnone u)).
    unfold is_order_of. cbn [o order_id order_userId set_orderNumber
                             new_order].
    rewrite !String.eqb_refl. reflexivity. }
  do 3 (split; [reflexivity|]).
  split; [intros _; reflexivity|].
  split.
  { cbn [po_products populate_order]. rewrite Hp.
    cbn [o order_products set_orderNumber new_order]. rewrite map_map.
    cbn [line_productId snapshot].
    assert (Hall : forall i, In i (body_products req) -> available w i = true).
    { intros i Hi. pose proof (find_none _ _ Ef i Hi) as F.
      cbn beta in F. destruct (available w i); [reflexivity|discriminate F]. }
    apply available_populated. exact Hall. }
  split.
  { intros u' Hu. unfold get_order.
    rewrite Ho, (find_snoc_none _ _ _ (Hnone u')).
    unfold is_order_of. cbn [o order_id order_userId set_orderNumber
                             new_order].
    destruct (String.eqb_spec u u'); [congruence|].
    rewrite andb_false_r. reflexivity. }
  intros u' id Hid. unfold get_order, populate_order.
  rewrite Ho, Hp, find_snoc_false; [reflexivity|].
  unfold is_order_of. cbn [o order_id set_orderNumber new_order].
  destruct (String.eqb_spec (fresh_id env) id); [congruence|]. reflexivity.
Qed.

(** ** Sorting and paging *)

Lemma insert_desc_perm {A} (key : A -> Z) x l :
  Permutation (insert_desc key x l) (x :: l).
Proof.
  induction l as [|y r IH]; simpl; [reflexivity|].
  destruct (key y <=? key x); [reflexivity|].
  rewrite IH. apply perm_swap.
Qed.

Lemma sort_desc_perm {A} (key : A -> Z) l : Permutation (sort_desc key l) l.
Proof.
  induction l as [|x r IH]; simpl; [reflexivity|].
  rewrite insert_desc_perm. constructor. exact IH.
Qed.

Lemma insert_desc_sorted {A} (key : A -> Z) x l :
  StronglySorted (fun a b => key b <= key a) l ->
  StronglySorted (fun a b => key b <= key a) (insert_desc key x l).
Proof.
  induction 1 as [|y r Hs IH Hy]; simpl.
  - constructor; constructor.
  - destruct (Z.leb_spec (key y) (key x)) as [Hle|Hlt].
    + constructor; [constructor; assumption|].
      constructor; [exact Hle|].
      eapply Forall_impl; [|exact Hy]. cbn beta. intros z Hz. lia.
    + constructor; [exact IH|].
      apply (Permutation_Forall (Permutation_sym (insert_desc_perm key x r))).
      constructor; [lia|exact Hy].
Qed.

Lemma sort_desc_sorted {A} (key : A -> Z) l :
  StronglySorted (fun a b => key b <= key a) (sort_desc key l).
Proof.
  induction l as [|x r IH]; simpl; [constructor|].
  apply insert_desc_sorted. exact IH.
Qed.

(** Consecutive windows of [k] elements cover a list *)
Lemma windows_cover {A} (k : nat) : forall n (l : list A),
  (List.length l <= n * k)%nat ->
  concat (map (fun i => firstn k (skipn (i * k) l)) (seq 0 n)) = l.
Proof.
  induction n as [|n IH]; intros l Hl.
  - destruct l; [reflexivity|simpl in Hl; lia].
  - cbn [seq map concat]. rewrite <- seq_shift, map_map.
    cbn [Nat.mul skipn].
    transitivity (firstn k l ++ skipn k l)%list; [|apply firstn_skipn].
    f_equal. rewrite <- (IH (skipn k l)).
    + apply f_equal, map_ext. intros i. rewrite skipn_skipn.
      f_equal. f_equal. lia.
    + rewrite length_skipn. simpl in Hl. lia.
Qed.

Lemma pages_cover {A} (limit : positive) n (l : list A) :
  (List.length l <= n * Pos.to_nat limit)%nat ->
  concat (map (fun i => paginate (Pos.of_nat i) limit l) (seq 1 n)) = l.
Proof.
  intros Hl. rewrite <- seq_shift, map_map.
  etransitivity; [|exact (windows_cover (Pos.to_nat limit) n l Hl)].
  apply f_equal, map_ext. intros i. unfold paginate.
  rewrite Nat2Pos.id by discriminate.
  replace (S i - 1)%nat with i by lia. reflexivity.
Qed.

Lemma firstn_In {A} n : forall (l : list A) x, In x (firstn n l) -> In x l.
Proof.
  induction n as [|n IH]; intros [|y r] x; simpl; try tauto.
  intros [H|H]; [left; exact H|right; apply IH; exact H].
Qed.

Lemma skipn_In {A} n : forall (l : list A) x, In x (skipn n l) -> In x l.
Proof.
  induction n as [|n IH]; intros [|y r] x; simpl; try tauto.
  intros H. right. apply IH. exact H.
Qed.

Lemma paginate_In {A} page limit (l : list A) x :
  In x (paginate page limit l) -> In x l.
Proof.
  unfold paginate. intros H. apply firstn_In in H.
  eapply skipn_In. exact H.
Qed.

Lemma ceiling_bounds total limit :
  0 <= total -> 0 < limit ->
  ((total + limit - 1) / limit - 1) * limit < total
  /\ total <= (total + limit - 1) / limit * limit.
Proof.
  intros Ht Hl.
  pose proof (Z.div_mod (total + limit - 1) limit ltac:(lia)) as E.
  pose proof (Z.mod_pos_bound (total + limit - 1) limit Hl) as B.
  nia.
Qed.

Lemma populated_orders w l :
  map po_order (map (populate_order w) l) = l.
Proof. rewrite map_map. cbn [po_order populate_order]. apply map_id. Qed.

(** X12. GET /api/orders lists the caller's own orders in pages.  Every
    document of a page is a stored order of the caller, populated; a page
    has at most [limit] documents (10 by default); [pagination.total] is
    the number of the caller's orders, [pagination.current] the requested
    page (1 by default) and [pagination.pages] the least number of pages of
    [limit] documents that holds them all.  Pages 1 to [pagination.pages]
    one after the other hold each of the caller's orders exactly once,
    newest first, and every later page is empty. *)
Theorem order_history_is_paged u page limit w :
  let mine := filter (order_of u) (orders w) in
  let k := or_default 10 limit in
  let answer := get_orders u page limit w in
  let pages := pg_pages (snd answer) in
  let all :=
    concat (map (fun i => fst (get_orders u (Some (Pos.of_nat i)) limit w))
                (seq 1 (Z.to_nat pages))) in
  (forall po, In po (fst answer) ->
     In (po_order po) (orders w) /\ order_userId (po_order po) = u
     /\ po = populate_order w (po_order po))
  /\ (List.length (fst answer) <= Pos.to_nat k)%nat
  /\ pg_total (snd answer) = Z.of_nat (List.length mine)
  /\ pg_current (snd answer) = Z.pos (or_default 1 page)
  /\ (pages - 1) * Z.pos k < pg_total (snd answer) <= pages * Z.pos k
  /\ Permutation (map po_order all) mine
  /\ StronglySorted (fun a b => orderDate b <= orderDate a)
                    (map po_order all)
  /\ (forall p, pages < Z.pos p ->
        fst (get_orders u (Some p) limit w) = []).
Proof.
  cbv zeta. unfold get_orders. cbn [fst snd pg_pages pg_total pg_current
                                    pagination or_default].
  set (mine := filter (order_of u) (orders w)).
  set (k := or_default 10 limit).
  set (n := (Z.of_nat (List.length mine) + Z.pos k - 1) / Z.pos k).
  destruct (ceiling_bounds (Z.of_nat (List.length mine)) (Z.pos k)
              ltac:(lia) ltac:(lia)) as [Blo Bhi].
  fold n in Blo, Bhi.
  assert (Hn : 0 <= n).
  { unfold n. apply Z.div_pos; lia. }
  assert (Hcover : (List.length (sort_desc orderDate mine)
                    <= Z.to_nat n * Pos.to_nat k)%nat).
  { rewrite (Permutation_length (sort_desc_perm orderDate mine)).
    apply Nat2Z.inj_le. rewrite Nat2Z.inj_mul, Z2Nat.id by exact Hn.
    rewrite positive_nat_Z. exact Bhi. }
  assert (Hall : map po_order
            (concat (map (fun i =>
               map (populate_order w)
                 (paginate (Pos.of_nat i) k (sort_desc orderDate mine)))
               (seq 1 (Z.to_nat n))))
          = sort_desc orderDate mine).
  { etransitivity; [|exact (pages_cover k (Z.to_nat n) _ Hcover)].
    rewrite concat_map, map_map. apply f_equal, map_ext.
    intros i. apply populated_orders. }
  split.
  { intros po Hin. apply in_map_iff in Hin. destruct Hin as [o [<- Hin]].
    apply paginate_In in Hin.
    apply (Permutation_in _ (sort_desc_perm orderDate mine)) in Hin.
    apply filter_In in Hin. destruct Hin as [Hin Ho].
    apply String.eqb_eq in Ho. cbn [po_order populate_order]. auto. }
  split.
  { rewrite length_map. unfold paginate. apply firstn_le_length. }
  split; [reflexivity|]. split; [reflexivity|].
  split; [split; assumption|].
  split; [rewrite Hall; apply sort_desc_perm|].
  split; [rewrite Hall; apply sort_desc_sorted|].
  intros p Hp. unfold paginate. rewrite skipn_all2; [rewrite firstn_nil; reflexivity|].
  rewrite (Permutation_length (sort_desc_perm orderDate mine)).
  apply Nat2Z.inj_le. rewrite Nat2Z.inj_mul, Nat2Z.inj_sub by lia.
  rewrite !positive_nat_Z. cbn [Z.of_nat]. nia.
Qed.

(** ** The product page, the cart and the order route agree *)

(** X13. GET /api/products/:id, the add-to-cart route and the order route
    take the same products for available.  A product the product route
    answers with is stored under the requested id and active; adding it to
    a cart is never refused with 404 and an order of nothing but it is
    never refused with 400.  A product the product route refuses (404
    "Product not found") cannot be added to any cart (404, nothing
    written), and every order with a line for it is refused with 400,
    nothing written.  The product route gives no other answer. *)
Theorem product_routes_agree pid w :
  (forall p, get_product pid w = Answer p ->
     In p (products w) /\ product_id p = pid /\ product_isActive p = true
     /\ (forall env u qty,
           status (fst (post_cart_add env u pid qty w)) <> 404)
     /\ (forall env u req,
           (forall i, In i (body_products req) -> item_productId i = pid) ->
           status (fst (post_orders env u req w)) <> 400))
  /\ (get_product pid w = Refusal 404 "Product not found" ->
      (forall env u qty,
         post_cart_add env u pid qty w
         = (mkResponse 404 (ErrorBody "Product not found"), w))
      /\ (forall env u req,
            In pid (map item_productId (body_products req)) ->
            status (fst (post_orders env u req w)) = 400
            /\ snd (post_orders env u req w) = w))
  /\ ((exists p, get_product pid w = Answer p)
      \/ get_product pid w = Refusal 404 "Product not found").
Proof.
  unfold get_product. split; [|split].
  - intros p H.
    destruct (find (is_product pid) (products w)) as [p'|] eqn:E;
      [|discriminate].
    destruct (product_isActive p') eqn:Ea; [|discriminate].
    cbn [negb] in H. injection H as <-.
    pose proof (find_some _ _ E) as [Hin Hid]. apply String.eqb_eq in Hid.
    do 3 (split; [assumption|]). split.
    + intros env u qty. rewrite post_cart_add_eq, E, Ea. cbn [negb].
      cbv zeta. destruct (cart_valid _); cbn [fst status]; lia.
    + intros env u req Hall. rewrite post_orders_eq.
      assert (F : first_unavailable w (body_products req) = None).
      { unfold first_unavailable.
        destruct (find _ (body_products req)) as [i|] eqn:Ei; [|reflexivity].
        apply find_some in Ei. destruct Ei as [Hi Hn].
        unfold available in Hn. rewrite (Hall i Hi), E, Ea in Hn.
        discriminate. }
      rewrite F. cbv zeta.
      destruct (order_valid _); [|cbn [fst status]; lia].
      destruct (existsb _ _); [cbn [fst status]; lia|].
      destruct (cart_clear_fails env); cbn [fst status]; lia.
  - intros H.
    assert (Hu : forall i, item_productId i = pid -> available w i = false).
    { intros i <-. unfold available.
      destruct (find (is_product (item_productId i)) (products w)) as [p|];
        [|reflexivity].
      destruct (product_isActive p); [discriminate|reflexivity]. }
    split.
    + intros env u qty. rewrite post_cart_add_eq.
      destruct (find (is_product pid) (products w)) as [p|]; [|reflexivity].
      destruct (product_isActive p); [discriminate|reflexivity].
    + intros env u req Hin. apply in_map_iff in Hin.
      destruct Hin as [i [Hi Hin]]. rewrite post_orders_eq.
      destruct (first_unavailable w (body_products req)) as [j|] eqn:F.
      * split; reflexivity.
      * pose proof (find_none _ _ F i Hin) as N. cbn beta in N.
        rewrite (Hu i Hi) in N. discriminate.
  - destruct (find (is_product pid) (products w)) as [p|]; [|right; reflexivity].
    destruct (product_isActive p); [left; exists p|right]; reflexivity.
Qed.

(** ** The token gate *)

Lemma split_nonempty sep s : split sep s <> [].
Proof.
  destruct s as [|c r]; simpl; [discriminate|].
  destruct (Ascii.eqb c sep); [discriminate|].
  destruct (split sep r); discriminate.
Qed.

Lemma split_without sep s : occurs sep s = false -> split sep s = [s].
Proof.
  induction s as [|c r IH]; simpl; [reflexivity|].
  destruct (Ascii.eqb c sep); [discriminate|].
  cbn [orb]. intros H. rewrite (IH H). reflexivity.
Qed.

Lemma split_at sep a b :
  occurs sep a = false ->
  split sep (a ++ String sep b) = a :: split sep b.
Proof.
  induction a as [|c r IH]; simpl.
  - rewrite Ascii.eqb_refl. reflexivity.
  - destruct (Ascii.eqb c sep); [discriminate|].
    cbn [orb]. intros H. rewrite (IH H). reflexivity.
Qed.

Lemma gate_on_token {L : Libraries} env authorization token :
  nth_error (split " " authorization) 1 = Some token ->
  authenticateToken env (Some authorization)
  = if nonempty token
    then match jwt_verify token (now env) with
         | Some user => inr user
         | None => inl (mkResponse 403 (ErrorBody "Invalid token"))
         end
    else inl (mkResponse 401 (ErrorBody "Access token required")).
Proof.
  intros H. unfold authenticateToken, bearer_token. rewrite H.
  destruct (nonempty token); reflexivity.
Qed.

(** X14. The token gate.  Without an Authorization header, or with one
    that has no space, it answers 401 "Access token required".  Otherwise
    it takes what stands between the first space and the next one (or the
    end): an empty token gets 401, a token that [jwt.verify] rejects gets
    403 "Invalid token", and for a token it accepts the decoded payload
    becomes [req.user].  The word before the first space is never looked
    at, nor is anything after the second space.  The gate gives no other
    answer. *)
Theorem token_gate {L : Libraries} env :
  authenticateToken env None
  = inl (mkResponse 401 (ErrorBody "Access token required"))
  /\ (forall h, occurs " " h = false ->
        authenticateToken env (Some h)
        = inl (mkResponse 401 (ErrorBody "Access token required")))
  /\ (forall scheme token h,
        occurs " " scheme = false -> occurs " " token = false ->
        h = scheme ++ " " ++ token
        \/ (exists rest, h = scheme ++ " " ++ token ++ " " ++ rest) ->
        authenticateToken env (Some h)
        = if nonempty token
          then match jwt_verify token (now env) with
               | Some user => inr user
               | None => inl (mkResponse 403 (ErrorBody "Invalid token"))
               end
          else inl (mkResponse 401 (ErrorBody "Access token required")))
  /\ (forall h,
        authenticateToken env h
        = inl (mkResponse 401 (ErrorBody "Access token required"))
        \/ authenticateToken env h
           = inl (mkResponse 403 (ErrorBody "Invalid token"))
        \/ exists token user,
             jwt_verify token (now env) = Some user
             /\ authenticateToken env h = inr user).
Proof.
  split; [reflexivity|]. split; [|split].
  - intros h Hh. unfold authenticateToken, bearer_token.
    rewrite (split_without _ _ Hh). reflexivity.
  - intros scheme token h Hs Ht Hh. apply gate_on_token.
    destruct Hh as [->|[rest ->]].
    + change (scheme ++ " " ++ token) with (scheme ++ String " " token).
      rewrite (split_at _ _ _ Hs), (split_without _ _ Ht). reflexivity.
    + change (scheme ++ " " ++ token ++ " " ++ rest)
        with (scheme ++ String " " (token ++ String " " rest)).
      rewrite (split_at _ _ _ Hs), (split_at _ _ _ Ht). reflexivity.
  - intros h. unfold authenticateToken.
    destruct (bearer_token h) as [token|]; [|left; reflexivity].
    destruct (jwt_verify token (now env)) as [user|] eqn:E.
    + right. right. exists token, user. auto.
    + right. left. reflexivity.
Qed.

(** ** Accounts, from registration to the token gate *)

Lemma bearer_header {L : Libraries} env token :
  occurs " " token = false -> nonempty token = true ->
  authenticateToken env (Some ("Bearer " ++ token))
  = match jwt_verify token (now env) with
    | Some user => inr user
    | None => inl (mkResponse 403 (ErrorBody "Invalid token"))
    end.
Proof.
  intros Ht Hn.
  rewrite (gate_on_token env _ token), Hn; [reflexivity|].
  change ("Bearer " ++ token) with ("Bearer" ++ String " " token).
  rewrite split_at by reflexivity. rewrite (split_without _ _ Ht).
  reflexivity.
Qed.

(** X15. The token of a successful login opens the token gate for a day.
    A login answers 200 only for a stored, active user whose name is the
    submitted one, trimmed and in lower case, and whose stored hash
    [bcrypt.compare] accepts for the submitted password; it records a
    time of login on that user and changes nothing else about the users.
    The token is the signature of that user's id and name with an expiry
    of 24 hours.  The JWT library counts in whole seconds: when it decodes
    what it signed here (a token without a space) to claims that hold the
    id under [userId], expiring 24 hours after the start of the second in
    which it signed, the header "Bearer <token>" passes
    [authenticateToken] with [req.user.userId] the id of that user until
    that instant, and is answered 403 "Invalid token" from then on. *)
Theorem login_token_opens_the_gate {L : Libraries}
  env uname pass w msg token uid name mail fn ln :
  fst (post_auth_login env uname pass w)
  = mkResponse 200 (LoginBody msg token uid (Some name) mail fn ln) ->
  (exists claims,
     jwt_decode (jwt_sign [("userId", uid); ("username", name)] (24 * 3600)
                          (now env))
     = Some (claims, now env / 1000 * 1000 + 24 * 3600 * 1000)
     /\ field "userId" claims = Some uid) ->
  occurs " " token = false -> nonempty token = true ->
  (exists slot usr,
     nth_error (users w) slot = Some usr
     /\ user_id usr = uid /\ username usr = name
     /\ name = toLowerCase (trim uname)
     /\ user_isActive usr = true
     /\ bcrypt_compare pass (password usr) = true
     /\ exists t,
          users (snd (post_auth_login env uname pass w))
          = update_nth slot (fun _ => set_lastLogin t usr) (users w))
  /\ token = jwt_sign [("userId", uid); ("username", name)] (24 * 3600)
                      (now env)
  /\ (forall env', now env' < now env / 1000 * 1000 + 24 * 3600 * 1000 ->
        exists user,
          authenticateToken env' (Some ("Bearer " ++ token)) = inr user
          /\ field "userId" user = Some uid)
  /\ (forall env', now env / 1000 * 1000 + 24 * 3600 * 1000 <= now env' ->
        authenticateToken env' (Some ("Bearer " ++ token))
        = inl (mkResponse 403 (ErrorBody "Invalid token"))).
Proof.
  unfold post_auth_login.
  destruct (login_errors uname pass); cbn [validated]; [|discriminate].
  rewrite login_handler_eq.
  destruct (findOne _ (users w)) as [[slot usr]|] eqn:Ef; [|discriminate].
  destruct (bcrypt_compare pass (password usr)) eqn:Ec; [|discriminate].
  cbn [negb fst snd]. intros R [claims [Hjwt Hid]] Hsp Hne.
  injection R as _ <- <- <- _ _ _.
  apply findOne_Some in Ef. destruct Ef as (_ & Hnth & Hf).
  apply andb_prop in Hf. destruct Hf as [Hname Hact].
  apply String.eqb_eq in Hname.
  split.
  { exists slot, usr. cbn [users set_users].
    repeat (split; [auto; fail|]). exists (now env). reflexivity. }
  split; [reflexivity|]. split.
  - intros env' Hnow. rewrite (bearer_header env' _ Hsp Hne).
    unfold jwt_verify. change 86400 with (24 * 3600). rewrite Hjwt.
    destruct (Z.ltb_spec (now env')
                (now env / 1000 * 1000 + 24 * 3600 * 1000)); [|lia].
    exists claims. split; [reflexivity|exact Hid].
  - intros env' Hnow. rewrite (bearer_header env' _ Hsp Hne).
    unfold jwt_verify. change 86400 with (24 * 3600). rewrite Hjwt.
    destruct (Z.ltb_spec (now env')
                (now env / 1000 * 1000 + 24 * 3600 * 1000)); [lia|].
    reflexivity.
Qed.

Lemma valid_registration {L : Libraries} req :
  registration_errors req = [] ->
  (3 <= String.length (trim (reg_username req)))%nat
  /\ (6 <= String.length (reg_password req))%nat.
Proof.
  unfold registration_errors. intros H.
  destruct (3 <=? String.length (trim (reg_username req)))%nat eqn:E3;
    [|destruct (2 <=? _)%nat; destruct (2 <=? _)%nat; discriminate].
  destruct (6 <=? String.length (reg_password req))%nat eqn:E6.
  - apply Nat.leb_le in E3, E6. auto.
  - destruct (2 <=? _)%nat; destruct (2 <=? _)%nat; destruct (isEmail _);
      discriminate.
Qed.

Lemma nonempty_length s : (1 <= String.length s)%nat -> nonempty s = true.
Proof. destruct s; simpl; [lia|reflexivity]. Qed.

Lemma registered_fresh {L : Libraries} env req w :
  status (fst (register_handler env req w)) = 201 ->
  forall u, In u (users w) ->
    is_user_name (toLowerCase (reg_username req)) u = false.
Proof.
  rewrite register_handler_eq.
  destruct (find _ (users w)) eqn:E; [discriminate|].
  intros _ u Hin. pose proof (find_none _ _ E u Hin) as F. cbn beta in F.
  apply orb_false_elim in F. tauto.
Qed.

(** X16. Who has registered can log in.  After a registration that
    answered 201, for a body that sets none of [isActive], [_id] and [id]
    (the handler spreads every further field of the body into the new
    document, so a body that sets them decides whether the account is
    active and under which id it is stored), a login with the user name as
    it was typed at registration and the same password answers 200,
    reports the id the store gave the new account and its lower-cased
    name, provided [bcrypt.compare] accepts a password against its own
    hash; a login with a password that [bcrypt.compare] does not accept
    against that hash is refused with status 400. *)
Theorem registered_user_can_log_in {L : Libraries} env env' req w :
  status (fst (post_auth_register env req w)) = 201 ->
  field "isActive" (reg_other req) = None ->
  field "_id" (reg_other req) = None ->
  field "id" (reg_other req) = None ->
  bcrypt_compare (reg_password req) (bcrypt_hash (reg_password req) 12)
  = true ->
  let w' := snd (post_auth_register env req w) in
  (exists token mail fn ln,
     fst (post_auth_login env' (reg_username req) (reg_password req) w')
     = mkResponse 200
         (LoginBody "Login successful" token (fresh_id env)
            (Some (toLowerCase (trim (reg_username req)))) mail fn ln))
  /\ (forall pass,
        bcrypt_compare pass (bcrypt_hash (reg_password req) 12) = false ->
        status (fst (post_auth_login env' (reg_username req) pass w'))
        = 400).
Proof.
  intros Hs _ _ _ Hb. cbv zeta.
  destruct (post_auth_register_created _ _ _ Hs) as [Hv Hu].
  destruct (valid_registration _ Hv) as [H3 H6].
  rewrite (post_auth_register_valid _ _ _ Hv) in Hs.
  pose proof (registered_fresh _ _ _ Hs) as Hfresh.
  cbn [sanitize_registration reg_username] in Hfresh.
  set (nu := new_user env (sanitize_registration req)) in *.
  set (f := fun u => is_user_name (toLowerCase (trim (reg_username req))) u
                     && user_isActive u).
  assert (Ef : findOne f (users (snd (post_auth_register env req w)))
               = Some (List.length (users w), nu)).
  { rewrite Hu. apply findOne_intro.
    - apply findIndex_app_new.
      + apply findIndex_None. intros u Hin. unfold f.
        rewrite (Hfresh u Hin). reflexivity.
      + unfold f, is_user_name, nu.
        cbn [new_user username user_isActive sanitize_registration
             reg_username].
        rewrite String.eqb_refl. reflexivity.
    - rewrite nth_error_app2, Nat.sub_diag by lia. reflexivity. }
  assert (Hname : nonempty (trim (reg_username req)) = true)
    by (apply nonempty_length; lia).
  split.
  - unfold post_auth_login, login_errors.
    rewrite Hname, (nonempty_length (reg_password req)) by lia.
    cbn [app validated]. rewrite login_handler_eq. fold f. rewrite Ef.
    unfold nu at 1. cbn [new_user password sanitize_registration
                         reg_password].
    rewrite Hb. cbn [negb fst]. do 4 eexists. reflexivity.
  - intros pass Hp. unfold post_auth_login.
    destruct (login_errors (reg_username req) pass); cbn [validated];
      [|reflexivity].
    rewrite login_handler_eq. fold f. rewrite Ef.
    unfold nu at 1. cbn [new_user password sanitize_registration
                         reg_password].
    rewrite Hp. reflexivity.
Qed.

Lemma existsb_absent {A B} (h : A -> B) (eqb : B -> B -> bool) x l :
  (forall a b, eqb a b = true <-> a = b) ->
  existsb (fun a => eqb (h a) x) l = false -> ~ In x (map h l).
Proof.
  intros Heq H Hin. apply in_map_iff in Hin. destruct Hin as [a [<- Hin]].
  assert (E : existsb (fun a' => eqb (h a') (h a)) l = true).
  { apply existsb_exists. exists a. split; [exact Hin|].
    apply Heq. reflexivity. }
  congruence.
Qed.

Lemma register_handler_unique {L : Libraries} env req w :
  unique_accounts w -> unique_accounts (snd (register_handler env req w)).
Proof.
  intros [Hn He]. unfold unique_accounts. rewrite register_handler_eq.
  destruct (find _ (users w)); [split; assumption|].
  cbv zeta.
  destruct (user_valid (new_user env req)); [|split; assumption].
  destruct (existsb (is_user_name _) (users w)) eqn:En; [split; assumption|].
  destruct (existsb (is_user_email _) (users w)) eqn:Ee; [split; assumption|].
  cbn [andb negb snd].
  assert (Hu : forall w1,
            users (if mail_fails env then log "Email sending failed:" w1
                   else set_outbox (fun l =>
                          (l ++ [mkMail (email (new_user env req))
                                   "Welcome to Rudra Tailoring Shop!"])%list)
                          w1)
            = users w1)
    by (intros w1; destruct (mail_fails env); reflexivity).
  rewrite Hu. cbn [users set_users]. rewrite !map_app. cbn [map].
  split; apply NoDup_snoc; try assumption.
  - apply (existsb_absent username String.eqb); [apply String.eqb_eq|].
    exact En.
  - apply (existsb_absent email String.eqb); [apply String.eqb_eq|].
    exact Ee.
Qed.

Lemma unique_accounts_update w w' i (g : User -> User) :
  (forall u, username (g u) = username u /\ email (g u) = email u) ->
  users w' = update_nth i g (users w) ->
  unique_accounts w -> unique_accounts w'.
Proof.
  intros Hg Hu [Hn He]. unfold unique_accounts. rewrite Hu.
  rewrite !map_update_nth; [split; assumption| |]; intros u; apply Hg.
Qed.

Lemma unique_accounts_frame w w' :
  users w' = users w -> unique_accounts w -> unique_accounts w'.
Proof. unfold unique_accounts. intros ->. tauto. Qed.

Lemma serve_unique_accounts {L : Libraries} env r w :
  unique_accounts w -> unique_accounts (snd (serve env r w)).
Proof.
  intros H. destruct r; cbn [serve].
  - unfold post_auth_register.
    destruct (registration_errors req); cbn [validated]; [|assumption].
    apply register_handler_unique. assumption.
  - unfold post_auth_login.
    destruct (login_errors uname pass); cbn [validated]; [|assumption].
    rewrite login_handler_eq.
    destruct (findOne _ (users w)) as [[slot user]|] eqn:E; [|assumption].
    destruct (negb _); [assumption|]. cbn [snd].
    apply findOne_Some in E. destruct E as (_ & Hnth & _).
    destruct H as [Hn He]. unfold unique_accounts. cbn [users set_users].
    rewrite !(map_replace_nth _ _ _ user) by (assumption || reflexivity).
    split; assumption.
  - apply (unique_accounts_frame w); [apply forgot_users|assumption].
  - rewrite post_auth_reset_password_eq.
    destruct (String.length newPassword <? 6)%nat; [assumption|].
    destruct (jwt_verify token (now env)); [|assumption].
    cbv zeta. destruct (find _ (passwordResets w)); [|assumption].
    cbn [snd]. destruct (field "email" f); [|assumption].
    destruct (findIndex (is_user_email s) (users w)) as [i|] eqn:Ei;
      [|unfold unique_accounts; cbn [users set_passwordResets set_users];
        rewrite Ei; assumption].
    apply (unique_accounts_update w _ i
             (set_password (bcrypt_hash newPassword 12) (now env)));
      [intros u; split; reflexivity| |assumption].
    cbn [users set_passwordResets set_users]. rewrite Ei. reflexivity.
  - unfold put_user_profile. step_handler. cbn [snd].
    destruct (findIndex (is_user_id userId) (users w)) as [i|] eqn:Ei;
      [|unfold unique_accounts; cbn [users set_users]; rewrite Ei;
        assumption].
    eapply (unique_accounts_update w _ i); [| |exact H].
    2: { cbn [users set_users]. rewrite Ei. reflexivity. }
    intros u. split; reflexivity.
  - apply (unique_accounts_frame w); [apply cart_add_users|assumption].
  - apply (unique_accounts_frame w); [apply cart_update_users|assumption].
  - apply (unique_accounts_frame w); [apply cart_remove_users|assumption].
  - apply (unique_accounts_frame w); [apply orders_users|assumption].
Qed.

Lemma reachable_unique_accounts {L : Libraries} w :
  reachable w -> unique_accounts w.
Proof.
  induction 1 as [w [Hu _]|env r w _ IH|ps w _ IH|t w _ IH].
  - unfold unique_accounts. rewrite Hu. split; constructor.
  - apply serve_unique_accounts. assumption.
  - exact IH.
  - exact IH.
Qed.

Lemma NoDup_map_nth {A B} (h : A -> B) l i j x y :
  NoDup (map h l) ->
  nth_error l i = Some x -> nth_error l j = Some y -> h x = h y -> i = j.
Proof.
  intros Hnd Hx Hy Hxy.
  apply (proj1 (NoDup_nth_error (map h l)) Hnd).
  - rewrite length_map. apply nth_error_Some. congruence.
  - rewrite !nth_error_map, Hx, Hy. simpl. congruence.
Qed.

(** X17. No two accounts share a user name or an email.  In every store
    the server can reach from an empty one, the user names of the stored
    users are pairwise different and so are their emails: registration
    inserts under the unique indexes, and login, password reset and
    profile update leave names and emails alone.  So a user name or an
    email identifies at most one stored account. *)
Theorem accounts_are_unique {L : Libraries} w :
  reachable w ->
  NoDup (map username (users w)) /\ NoDup (map email (users w))
  /\ (forall i j u1 u2,
        nth_error (users w) i = Some u1 -> nth_error (users w) j = Some u2 ->
        username u1 = username u2 \/ email u1 = email u2 -> i = j).
Proof.
  intros Hr. destruct (reachable_unique_accounts w Hr) as [Hn He].
  split; [exact Hn|]. split; [exact He|].
  intros i j u1 u2 H1 H2 [E|E].
  - exact (NoDup_map_nth username _ _ _ _ _ Hn H1 H2 E).
  - exact (NoDup_map_nth email _ _ _ _ _ He H1 H2 E).
Qed.

Lemma is_reset_email_of mail token r :
  is_reset mail token r = true ->
  mail = Some (reset_email r) /\ reset_token r = token.
Proof.
  unfold is_reset. destruct mail as [e|]; [|discriminate].
  intros H. apply andb_prop in H. destruct H as [He Ht].
  apply String.eqb_eq in He, Ht. subst. auto.
Qed.

Lemma serve_names_nonempty {L : Libraries} env r w :
  (forall u, In u (users w) -> nonempty (username u) = true) ->
  forall u, In u (users (snd (serve env r w))) ->
    nonempty (username u) = true.
Proof.
  intros H.
  assert (Hupd : forall i (g : User -> User),
            (forall u, username (g u) = username u) ->
            forall u, In u (update_nth i g (users w)) ->
              nonempty (username u) = true).
  { intros i g Hg u Hin. apply In_update_nth in Hin.
    destruct Hin as [Hin|[x [Hx ->]]]; [auto|].
    rewrite Hg. apply H. eapply nth_error_In. eassumption. }
  destruct r; cbn [serve].
  - unfold post_auth_register.
    destruct (registration_errors req); cbn [validated]; [|assumption].
    rewrite register_handler_eq.
    destruct (find _ (users w)); [assumption|]. cbv zeta.
    destruct (user_valid _) eqn:Ev; [|assumption].
    destruct (existsb (is_user_name _) (users w)); [assumption|].
    destruct (existsb (is_user_email _) (users w)); [assumption|].
    cbn [andb negb snd]. intros u Hin.
    assert (Hin' : In u (users w
                         ++ [new_user env (sanitize_registration req)])%list)
      by (destruct (mail_fails env); exact Hin).
    apply in_app_iff in Hin'. destruct Hin' as [Hin'|[<-|[]]]; [auto|].
    unfold user_valid in Ev.
    repeat (apply andb_prop in Ev; destruct Ev as [Ev ?]). assumption.
  - unfold post_auth_login.
    destruct (login_errors uname pass); cbn [validated]; [|assumption].
    rewrite login_handler_eq.
    destruct (findOne _ (users w)) as [[slot user]|] eqn:E; [|assumption].
    destruct (negb _); [assumption|]. cbn [snd users set_users].
    intros u Hin. apply In_update_nth in Hin.
    destruct Hin as [Hin|[x [_ ->]]]; [auto|].
    apply findOne_Some in E. destruct E as (_ & E & _).
    apply (H user). eapply nth_error_In. exact E.
  - rewrite forgot_users. assumption.
  - rewrite post_auth_reset_password_eq.
    destruct (String.length newPassword <? 6)%nat; [assumption|].
    destruct (jwt_verify token (now env)); [|assumption].
    cbv zeta. destruct (find _ (passwordResets w)); [|assumption].
    cbn [snd users set_passwordResets set_users].
    destruct (field "email" f); [|assumption].
    destruct (findIndex _ (users w)); [|assumption].
    apply Hupd. reflexivity.
  - unfold put_user_profile. step_handler. cbn [snd users set_users].
    destruct (findIndex _ (users w)); [|assumption].
    apply Hupd. reflexivity.
  - rewrite cart_add_users. assumption.
  - rewrite cart_update_users. assumption.
  - rewrite cart_remove_users. assumption.
  - rewrite orders_users. assumption.
Qed.

Lemma reachable_names_nonempty {L : Libraries} w :
  reachable w ->
  forall u, In u (users w) -> nonempty (username u) = true.
Proof.
  induction 1 as [w [Hu _]|env r w _ IH|ps w _ IH|t w _ IH].
  - intros u Hin. rewrite Hu in Hin. destruct Hin.
  - apply serve_names_nonempty. assumption.
  - exact IH.
  - exact IH.
Qed.

(** X18. A password reset replaces the password of one account and of no
    other.  When POST /api/auth/reset-password answers 200, the new
    password has at least 6 characters, the token verifies and names an
    email, and the users afterwards are the users before with the password
    hash and [updatedAt] of the first account with that email replaced (no
    user changes when there is none).  In a store the server can reach,
    for an active account with that email that passes the user schema
    with its new hash (the login saves the user document): a login with
    its name and the new password then answers 200, provided
    [bcrypt.compare] accepts the new password against its own hash, and a
    login with a password that [bcrypt.compare] does not accept against
    the new hash is refused with 400, the old password included. *)
Theorem reset_password_replaces_the_password {L : Libraries}
  env env' token newPassword w slot usr uname :
  reachable w ->
  status (fst (post_auth_reset_password env token newPassword w)) = 200 ->
  nth_error (users w) slot = Some usr ->
  (exists payload, jwt_verify token (now env) = Some payload
                   /\ field "email" payload = Some (email usr)) ->
  user_isActive usr = true ->
  user_valid (set_password (bcrypt_hash newPassword 12) (now env) usr)
  = true ->
  toLowerCase (trim uname) = username usr ->
  bcrypt_compare newPassword (bcrypt_hash newPassword 12) = true ->
  let w' := snd (post_auth_reset_password env token newPassword w) in
  (6 <= String.length newPassword)%nat
  /\ users w'
     = update_nth slot (set_password (bcrypt_hash newPassword 12) (now env))
                  (users w)
  /\ (exists jwt mail fn ln,
        fst (post_auth_login env' uname newPassword w')
        = mkResponse 200
            (LoginBody "Login successful" jwt (user_id usr)
               (Some (username usr)) mail fn ln))
  /\ (forall pass,
        bcrypt_compare pass (bcrypt_hash newPassword 12) = false ->
        status (fst (post_auth_login env' uname pass w')) = 400).
Proof.
  intros Hr Hs Hnth [payload [Hv Hmail]] Hact _ Hname Hb. cbv zeta.
  destruct (reachable_unique_accounts w Hr) as [Hun Hue].
  rewrite post_auth_reset_password_eq in *.
  destruct (Nat.ltb_spec (String.length newPassword) 6); [discriminate|].
  rewrite Hv in *. cbv zeta in *. rewrite Hmail in *.
  destruct (find _ (passwordResets w)); [|discriminate].
  cbn [snd users set_passwordResets set_users].
  assert (Ei : findIndex (is_user_email (email usr)) (users w) = Some slot).
  { destruct (findIndex (is_user_email (email usr)) (users w)) as [i|] eqn:E.
    - destruct (findIndex_Some _ _ _ E) as [x [Hx Fx]].
      apply String.eqb_eq in Fx. f_equal.
      exact (NoDup_map_nth email _ _ _ _ _ Hue Hx Hnth Fx).
    - pose proof (proj1 (findIndex_None _ _) E usr
                    (nth_error_In _ _ Hnth)) as F.
      unfold is_user_email in F. rewrite String.eqb_refl in F.
      discriminate. }
  rewrite Ei. split; [lia|]. split; [reflexivity|].
  set (f := fun u => is_user_name (toLowerCase (trim uname)) u
                     && user_isActive u).
  set (g := set_password (bcrypt_hash newPassword 12) (now env)).
  assert (Ef : findOne f (update_nth slot g (users w))
               = Some (slot, g usr)).
  { apply findOne_intro.
    - rewrite findIndex_update_nth by reflexivity.
      destruct (findIndex f (users w)) as [i|] eqn:E.
      + destruct (findIndex_Some _ _ _ E) as [x [Hx Fx]].
        apply andb_prop in Fx. destruct Fx as [Fx _].
        apply String.eqb_eq in Fx. f_equal.
        apply (NoDup_map_nth username _ _ _ _ _ Hun Hx Hnth). congruence.
      + pose proof (proj1 (findIndex_None _ _) E usr
                      (nth_error_In _ _ Hnth)) as F.
        unfold f, is_user_name in F.
        rewrite Hname, String.eqb_refl, Hact in F. discriminate.
    - rewrite nth_error_update_nth, Hnth. reflexivity. }
  assert (Hne : nonempty (trim uname) = true).
  { destruct (trim uname) eqn:Et; [|reflexivity]. exfalso.
    cbn [toLowerCase] in Hname.
    pose proof (reachable_names_nonempty w Hr usr (nth_error_In _ _ Hnth))
      as Hn.
    rewrite <- Hname in Hn. discriminate. }
  split.
  - unfold post_auth_login, login_errors.
    rewrite Hne, (nonempty_length newPassword) by lia.
    cbn [app validated]. rewrite login_handler_eq.
    cbn [users set_passwordResets set_users]. rewrite Ei. fold f g.
    rewrite Ef. unfold g at 1. cbn [set_password password]. rewrite Hb.
    cbn [negb fst]. do 4 eexists. reflexivity.
  - intros pass Hp. unfold post_auth_login.
    destruct (login_errors uname pass); cbn [validated]; [|reflexivity].
    rewrite login_handler_eq.
    cbn [users set_passwordResets set_users]. rewrite Ei. fold f g.
    rewrite Ef. unfold g at 1. cbn [set_password password]. rewrite Hp.
    reflexivity.
Qed.

(** X19. The token gate does not tell a reset token from an access
    token.  A forgot-password request that answers 200 stores a ticket for
    the lower-cased email whose token is the signature of that email with
    an expiry of one hour, made with the same secret as the access tokens.
    The JWT library counts in whole seconds: when it decodes what it
    signed here (a token without a space) to claims that hold the email
    and no [userId], expiring one hour after the start of the second in
    which it signed, the header "Bearer <reset token>" passes
    [authenticateToken] until that instant, with a [req.user] that has
    the [email] and no [userId]. *)
Theorem reset_token_passes_the_gate {L : Libraries} env mail w :
  status (fst (post_auth_forgot_password env mail w)) = 200 ->
  (exists claims,
     jwt_decode (jwt_sign [("email", toLowerCase mail)] 3600 (now env))
     = Some (claims, now env / 1000 * 1000 + 3600 * 1000)
     /\ field "email" claims = Some (toLowerCase mail)
     /\ field "userId" claims = None) ->
  occurs " " (jwt_sign [("email", toLowerCase mail)] 3600 (now env))
  = false ->
  nonempty (jwt_sign [("email", toLowerCase mail)] 3600 (now env)) = true ->
  (exists r,
     In r (passwordResets (snd (post_auth_forgot_password env mail w)))
     /\ reset_email r = toLowerCase mail
     /\ reset_token r
        = jwt_sign [("email", toLowerCase mail)] 3600 (now env))
  /\ (forall env', now env' < now env / 1000 * 1000 + 3600 * 1000 ->
        exists user,
          authenticateToken env'
            (Some ("Bearer "
                   ++ jwt_sign [("email", toLowerCase mail)] 3600 (now env)))
          = inr user
          /\ field "email" user = Some (toLowerCase mail)
          /\ field "userId" user = None).
Proof.
  intros Hs [claims [Hjwt [Hmail Hnoid]]] Hsp Hne. split.
  - rewrite post_auth_forgot_password_eq in *.
    destruct (find _ (users w)); [|discriminate]. cbv zeta. cbn [snd].
    set (token := jwt_sign [("email", toLowerCase mail)] 3600 (now env)).
    assert (Hin : exists r,
              In r match findIndex (is_reset_email (toLowerCase mail))
                           (passwordResets w) with
                   | Some i =>
                     update_nth i
                       (fun r => mkPasswordReset (reset_email r) token
                                                 (reset_createdAt r))
                       (passwordResets w)
                   | None =>
                     (passwordResets w
                      ++ [mkPasswordReset (toLowerCase mail) token
                                          (now env)])%list
                   end
              /\ reset_email r = toLowerCase mail /\ reset_token r = token).
    { destruct (findIndex _ (passwordResets w)) as [i|] eqn:Ei.
      - destruct (findIndex_Some _ _ _ Ei) as [x [Hx Fx]].
        apply String.eqb_eq in Fx.
        exists (mkPasswordReset (reset_email x) token (reset_createdAt x)).
        split; [|split; [exact Fx|reflexivity]].
        apply (nth_error_In _ i). rewrite nth_error_update_nth, Hx.
        reflexivity.
      - eexists. split; [apply in_app_iff; right; left; reflexivity|].
        split; reflexivity. }
    destruct Hin as [r Hr]. exists r.
    destruct (mail_fails env); exact Hr.
  - intros env' Hnow. rewrite (bearer_header env' _ Hsp Hne).
    unfold jwt_verify. rewrite Hjwt.
    destruct (Z.ltb_spec (now env') (now env / 1000 * 1000 + 3600 * 1000));
      [|lia].
    exists claims. split; [reflexivity|]. split; assumption.
Qed.

(** ** Refusals *)

(** X20. What a request that is not served leaves behind.  The routes
    answer with status 200, 201, 400, 404 or 500 and no other.  A request
    answered with 400 or 404 has written nothing: the store is what it was.
    A request answered with 500 has written one line to the console and,
    with one exception, nothing else: an order whose cart could not be
    cleared afterwards is already stored. *)
Theorem refused_requests_write_nothing {L : Libraries} env r w :
  In (status (fst (serve env r w))) [200; 201; 400; 404; 500]
  /\ (status (fst (serve env r w)) = 400
      \/ status (fst (serve env r w)) = 404 ->
      snd (serve env r w) = w)
  /\ (status (fst (serve env r w)) = 500 ->
      exists tag,
        snd (serve env r w) = log tag w
        \/ exists u req o,
             r = PlaceOrder u req /\ cart_clear_fails env = true
             /\ snd (serve env r w)
                = log tag (set_orders (fun os => (os ++ [o])%list) w)).
Proof.
  destruct r; cbn [serve].
  - unfold post_auth_register.
    destruct (registration_errors req); cbn [validated].
    + rewrite register_handler_eq. cbv zeta.
      destruct (find _ (users w)); [|destruct (_ && _)]; cbn [fst snd status];
        (split; [simpl; tauto|]);
        (split; [intros [?|?]; (reflexivity || discriminate)|]);
        intros ?; try discriminate.
      eexists. left. reflexivity.
    + cbn [fst snd status]. split; [simpl; tauto|].
      split; [reflexivity|discriminate].
  - unfold post_auth_login.
    destruct (login_errors uname pass); cbn [validated].
    + rewrite login_handler_eq.
      destruct (findOne _ (users w)) as [[slot user]|];
        [destruct (negb _)|]; cbn [fst snd status];
        (split; [simpl; tauto|]);
        (split; [intros [?|?]; (reflexivity || discriminate)|]);
        discriminate.
    + cbn [fst snd status]. split; [simpl; tauto|].
      split; [reflexivity|discriminate].
  - rewrite post_auth_forgot_password_eq. cbv zeta.
    destruct (find _ (users w)); cbn [fst snd status];
      (split; [simpl; tauto|]);
      (split; [intros [?|?]; (reflexivity || discriminate)|]);
      discriminate.
  - rewrite post_auth_reset_password_eq. cbv zeta.
    destruct (String.length newPassword <? 6)%nat;
      [|destruct (jwt_verify token (now env));
        [destruct (find _ (passwordResets w))|]];
      cbn [fst snd status];
      (split; [simpl; tauto|]);
      (split; [intros [?|?]; (reflexivity || discriminate)|]);
      intros ?; try discriminate.
    eexists. left. reflexivity.
  - unfold put_user_profile. step_handler. cbn [fst snd status].
    split; [simpl; tauto|].
    split; [intros [?|?]; discriminate|discriminate].
  - rewrite post_cart_add_eq. cbv zeta.
    destruct (find _ (products w)) as [p|];
      [destruct (negb (product_isActive p)); [|destruct (cart_valid _)]|];
      cbn [fst snd status];
      (split; [simpl; tauto|]);
      (split; [intros [?|?]; (reflexivity || discriminate)|]);
      intros ?; try discriminate.
    eexists. left. reflexivity.
  - rewrite put_cart_update_eq. cbv zeta.
    destruct (findOne _ (carts w)) as [[slot cart]|];
      [destruct (findIndex _ (cart_products cart));
       [destruct (cart_valid _)|]|];
      cbn [fst snd status];
      (split; [simpl; tauto|]);
      (split; [intros [?|?]; (reflexivity || discriminate)|]);
      intros ?; try discriminate.
    eexists. left. reflexivity.
  - rewrite delete_cart_remove_eq. cbv zeta.
    destruct (findOne _ (carts w)) as [[slot cart]|];
      [destruct (cart_valid _)|];
      cbn [fst snd status];
      (split; [simpl; tauto|]);
      (split; [intros [?|?]; (reflexivity || discriminate)|]);
      intros ?; try discriminate.
    eexists. left. reflexivity.
  - rewrite post_orders_eq. cbv zeta.
    destruct (first_unavailable w (body_products req));
      [|destruct (order_valid _);
        [destruct (existsb _ _);
         [|destruct (cart_clear_fails env) eqn:Ec]|]];
      cbn [fst snd status];
      (split; [simpl; tauto|]);
      (split; [intros [?|?]; (reflexivity || discriminate)|]);
      intros ?; try discriminate;
      eexists; try (left; reflexivity).
    right. do 3 eexists. split; [reflexivity|]. split; reflexivity.
Qed.

(** ** The browser client *)

Lemma split_head sep s : exists tl, split sep s = before sep s :: tl.
Proof.
  induction s as [|c r [tl IH]]; simpl.
  - exists []. reflexivity.
  - destruct (Ascii.eqb c sep).
    + eexists. reflexivity.
    + rewrite IH. eexists. reflexivity.
Qed.

Lemma gate_on_bearer {L : Libraries} env token :
  authenticateToken env (Some ("Bearer " ++ token))
  = if nonempty (before " " token)
    then match jwt_verify (before " " token) (now env) with
         | Some user => inr user
         | None => inl (mkResponse 403 (ErrorBody "Invalid token"))
         end
    else inl (mkResponse 401 (ErrorBody "Access token required")).
Proof.
  apply gate_on_token.
  change ("Bearer " ++ token) with ("Bearer" ++ String " " token).
  rewrite split_at by reflexivity.
  destruct (split_head " " token) as [tl ->]. reflexivity.
Qed.

Lemma login_statuses {L : Libraries} env uname pass w :
  (status (fst (post_auth_login env uname pass w)) = 200
   /\ exists token, data_token (body (fst (post_auth_login env uname pass w)))
                    = Some token)
  \/ (status (fst (post_auth_login env uname pass w)) = 400
      /\ exists e, data_error (body (fst (post_auth_login env uname pass w)))
                   = Some e).
Proof.
  unfold post_auth_login.
  destruct (login_errors uname pass); cbn [validated].
  - rewrite login_handler_eq.
    destruct (findOne _ (users w)) as [[slot user]|];
      [destruct (negb _)|]; cbn [fst status body data_token data_error];
      eauto.
  - right. cbn [fst status body data_error]. eauto.
Qed.

(** X21. A session of the browser client.  [AuthService.login] stores
    the token of a login the server answered with 200, in the object and
    in [localStorage]: [getToken] gives it back, in this page and after
    the next page load, and [isAuthenticated] holds when the token is not
    empty.  After a login the server refused the client is what it was and
    the caller gets the server's error.  A logout removes token and user,
    sends the window to /login.html, and leaves a client that is not
    authenticated, in this page and after the next page load, and that
    [requireAuth] turns away. *)
Theorem client_session {L : Libraries} JSON_stringify env uname pass c w :
  let served := post_auth_login env uname pass w in
  match client_login JSON_stringify (post_auth_login env uname pass) c w with
  | (result, c', w') =>
    w' = snd served
    /\ (status (fst served) = 200 ->
        exists token,
          data_token (body (fst served)) = Some token
          /\ result = LoginSuccess (body (fst served))
          /\ getToken c' = Some token
          /\ getToken (constructor c') = Some token
          /\ isAuthenticated c' = nonempty token
          /\ stored_user c' = Some (JSON_stringify (body (fst served)))
          /\ location c' = location c)
    /\ (status (fst served) <> 200 ->
        c' = c
        /\ exists e, result = LoginFailure (Some e)
                     /\ data_error (body (fst served)) = Some e)
    /\ isAuthenticated (logout c') = false
    /\ isAuthenticated (constructor (logout c')) = false
    /\ stored_user (logout c') = None
    /\ requireAuth (logout c')
       = (false, mkClient None None None "/login.html")
  end.
Proof.
  cbv zeta. unfold client_login.
  destruct (login_statuses env uname pass w) as [[Hs [token Ht]]|[Hs [e He]]];
    destruct (post_auth_login env uname pass w) as [response w'];
    cbn [fst snd] in *; unfold response_ok; rewrite Hs; cbn [Z.leb andb].
  - change (200 <=? 200) with true. change (200 <=? 299) with true.
    cbn [andb]. split; [reflexivity|]. split.
    { intros _. exists token. rewrite Ht. split; [reflexivity|].
      split; [reflexivity|].
      unfold isAuthenticated, getToken, setCurrentUser, setToken, constructor.
      cbn [this_token stored_authToken stored_user location truthy].
      destruct (nonempty token) eqn:En; cbn [truthy]; rewrite ?En; auto 10. }
    split; [intros H; exfalso; apply H; reflexivity|].
    repeat split.
  - change (200 <=? 400) with true. change (400 <=? 299) with false.
    cbn [andb]. split; [reflexivity|].
    split; [discriminate|].
    split; [intros _; split; [reflexivity|]; exists e; rewrite He; auto|].
    repeat split.
Qed.

(** X22. The client and the token gate.  A client without a token sends
    nothing: [makeAuthenticatedRequest] fails with "No authentication
    token found" and neither client nor server changes.  A client whose
    token does not begin with a space sends "Bearer <token>" and is never
    logged out by a route whose handler does not answer 401: when
    [jwt.verify] rejects the token, an expired one included, the gate
    answers 403, which the client passes on, keeping the token and staying
    authenticated; when it accepts, the handler runs on the decoded
    payload.  A client whose token begins with a space gets 401 from the
    gate and is logged out. *)
Theorem client_keeps_a_rejected_token {L : Libraries} env handler c w :
  (forall user w0, status (fst (handler user w0)) <> 401) ->
  match makeAuthenticatedRequest (fun h => behind_gate env h handler) c w with
  | (outcome, c', w') =>
    (isAuthenticated c = false -> outcome = NoToken /\ c' = c /\ w' = w)
    /\ (forall t, getToken c = Some t -> nonempty (before " " t) = true ->
          c' = c /\ isAuthenticated c' = true
          /\ match jwt_verify (before " " t) (now env) with
             | None =>
               outcome = Fetched_response
                           (mkResponse 403 (ErrorBody "Invalid token"))
               /\ w' = w
             | Some user =>
               outcome = Fetched_response (fst (handler user w))
               /\ w' = snd (handler user w)
             end)
    /\ (forall t, getToken c = Some t -> nonempty t = true ->
          nonempty (before " " t) = false ->
          outcome = AuthenticationExpired /\ c' = logout c /\ w' = w)
  end.
Proof.
  intros Hh. unfold makeAuthenticatedRequest, isAuthenticated.
  destruct (getToken c) as [t|] eqn:Eg; cbn [truthy].
  2: { split; [auto|]. split; intros; discriminate. }
  destruct (nonempty t) eqn:En.
  2: { split; [auto|]. split.
       - intros t' E Hb. injection E as <-. exfalso.
         destruct t; [discriminate Hb|discriminate En].
       - intros t' E Hn. injection E as <-. congruence. }
  unfold behind_gate. rewrite gate_on_bearer.
  destruct (nonempty (before " " t)) eqn:Eb.
  - destruct (jwt_verify (before " " t) (now env)) as [user|] eqn:Ev.
    + destruct (handler user w) as [response w'] eqn:Eh.
      pose proof (Hh user w) as H401. rewrite Eh in H401. cbn [fst] in H401.
      destruct (Z.eqb_spec (status response) 401); [contradiction|].
      split; [discriminate|]. split.
      * intros t' E _. injection E as <-. rewrite Ev, Eg, Eh.
        cbn [fst snd truthy]. auto.
      * intros t' E _ Hb. injection E as <-. congruence.
    + cbn [status Z.eqb]. split; [discriminate|]. split.
      * intros t' E _. injection E as <-. rewrite Ev, Eg.
        cbn [truthy]. auto.
      * intros t' E _ Hb. injection E as <-. congruence.
  - cbn [status]. change (401 =? 401) with true. cbv iota.
    split; [discriminate|]. split.
    + intros t' E Hb. injection E as <-. congruence.
    + intros t' E _ _. auto.
Qed.

(** * The further properties on the demonstration shop *)

Lemma shop4_reachable : @reachable demo_libraries shop4.
Proof. apply (@reach_serve demo_libraries). exact shop2_reachable. Qed.


Lemma one_cart_for_each_user_witness :
  @reachable demo_libraries shop4
  /\ NoDup (map cart_userId (carts shop4))
  /\ NoDup (map cart_userId (carts shop5)).
Proof.
  split; [exact shop4_reachable|].
  destruct (@one_cart_for_each_user demo_libraries asha_id shop4
              shop4_reachable) as (Hnd & _ & Hserve).
  split; [exact Hnd|].
  exact (Hserve demo_env (PlaceOrder asha_id (demo_order None None))).
Defined.

Lemma carts_of_other_users_untouched_witness :
  acting_user (CartAdd ravi_id "64a000000000000000000001" (Some 1))
  <> Some asha_id
  /\ cart_lines asha_id shop4 = cart_lines asha_id shop2
  /\ get_cart asha_id shop4 = get_cart asha_id shop2.
Proof.
  assert (H : acting_user (CartAdd ravi_id "64a000000000000000000001"
                                   (Some 1)) <> Some asha_id)
    by (vm_compute; discriminate).
  split; [exact H|].
  exact (@carts_of_other_users_untouched demo_libraries demo_env _ asha_id
           shop2 H).
Defined.

Lemma cart_remove_deletes_the_line_witness :
  @reachable demo_libraries shop2
  /\ findOne (cart_of asha_id) (carts shop2) <> None
  /\ cart_lines asha_id
       (snd (delete_cart_remove demo_env asha_id "64a000000000000000000001"
                                shop2))
     = [].
Proof.
  assert (Hc : findOne (cart_of asha_id) (carts shop2) <> None)
    by (vm_compute; discriminate).
  split; [exact shop2_reachable|]. split; [exact Hc|].
  destruct (@cart_remove_deletes_the_line demo_libraries demo_env asha_id
              "64a000000000000000000001" shop2 shop2_reachable) as [_ H].
  destruct (H Hc) as (_ & Hl & _). rewrite Hl. vm_compute. reflexivity.
Defined.

Lemma cart_add_then_remove_witness :
  @reachable demo_libraries shop2
  /\ find (is_product "64a000000000000000000001") (products shop2)
     = Some productA
  /\ product_isActive productA = true
  /\ 1 <= 1
  /\ ~ In "64a000000000000000000001"
          (map productId (cart_lines ravi_id shop2))
  /\ cart_lines ravi_id
       (snd (delete_cart_remove demo_env ravi_id "64a000000000000000000001"
                                shop4))
     = cart_lines ravi_id shop2.
Proof.
  assert (Hf : find (is_product "64a000000000000000000001") (products shop2)
               = Some productA) by (vm_compute; reflexivity).
  assert (Ha : product_isActive productA = true) by reflexivity.
  assert (Hq : 1 <= 1) by lia.
  assert (Hn : ~ In "64a000000000000000000001"
                    (map productId (cart_lines ravi_id shop2)))
    by (vm_compute; tauto).
  split; [exact shop2_reachable|]. split; [exact Hf|]. split; [exact Ha|].
  split; [exact Hq|]. split; [exact Hn|].
  exact (proj2 (proj2 (@cart_add_then_remove demo_libraries demo_env demo_env
                         ravi_id "64a000000000000000000001" (Some 1) shop2
                         productA shop2_reachable Hf Ha Hq Hn))).
Defined.

Lemma order_placed_effects_witness :
  status (fst (post_orders demo_env asha_id (demo_order None None) shop4))
  = 201
  /\ exists o,
       orders shop5 = (orders shop4 ++ [o])%list
       /\ order_userId o = asha_id
       /\ cart_lines asha_id shop5 = []
       /\ outbox shop5
          = (outbox shop4
             ++ [mkMail "asha@example.com"
                        ("Order Confirmation - " ++ orderNumber o)])%list.
Proof.
  assert (Hs : status (fst (post_orders demo_env asha_id
                              (demo_order None None) shop4)) = 201)
    by (vm_compute; reflexivity).
  split; [exact Hs|].
  destruct (order_placed_effects demo_env asha_id (demo_order None None)
              shop4 Hs)
    as (o & Ho & Hu & _ & _ & _ & Hc & _ & _ & _ & Hm).
  exists o. split; [exact Ho|]. split; [exact Hu|]. split; [exact Hc|].
  eassert (Hf : find (is_user_id asha_id) (users shop4) = Some _)
    by (vm_compute; reflexivity).
  exact (Hm eq_refl _ Hf).
Defined.


Lemma order_without_lines_is_accepted_witness :
  let req := mkOrderRequest [] demo_address "UPI" None in
  body_products req = []
  /\ order_valid (new_order demo_env asha_id req shop2) = true
  /\ ~ In (order_number (now demo_env)
                        (Z.of_nat (List.length (orders shop2))))
          (map orderNumber (orders shop2))
  /\ exists o,
       orders (snd (post_orders demo_env asha_id req shop2))
       = (orders shop2 ++ [o])%list
       /\ order_products o = [] /\ totalAmount o = 3.
Proof.
  cbv zeta.
  assert (Hb : body_products (mkOrderRequest [] demo_address "UPI" None) = [])
    by reflexivity.
  assert (Hv : order_valid
                 (new_order demo_env asha_id
                    (mkOrderRequest [] demo_address "UPI" None) shop2)
               = true) by (vm_compute; reflexivity).
  assert (Hn : ~ In (order_number (now demo_env)
                       (Z.of_nat (List.length (orders shop2))))
                    (map orderNumber (orders shop2)))
    by (vm_compute; tauto).
  split; [exact Hb|]. split; [exact Hv|]. split; [exact Hn|].
  destruct (order_without_lines_is_accepted demo_env asha_id _ shop2
              Hb Hv Hn) as (o & Ho & Hp & Ht & _).
  exists o. auto.
Defined.

Lemma order_rejected_by_schema_witness :
  let req := mkOrderRequest [mkItem "64a000000000000000000001" 0 None []]
                            demo_address "UPI" None in
  first_unavailable shop2 (body_products req) = None
  /\ (exists i, In i (body_products req) /\ item_quantity i < 1)
  /\ post_orders demo_env asha_id req shop2
     = (mkResponse 500 (ErrorBody "Internal server error"),
        log "Create order error:" shop2).
Proof.
  cbv zeta.
  match goal with
  | |- ?F /\ ?Q /\ _ =>
    assert (Hf : F) by (vm_compute; reflexivity);
    assert (Hq : Q)
      by (eexists; split; [left; reflexivity|vm_compute; reflexivity])
  end.
  split; [exact Hf|]. split; [exact Hq|].
  exact (order_rejected_by_schema demo_env asha_id _ shop2 Hf
           (or_introl Hq)).
Defined.

Lemma placed_order_can_be_read_back_witness :
  fst (post_orders demo_env asha_id (demo_order None None) shop2)
  = mkResponse 201
      (OrderBody "Order placed successfully" "65f000000000000000000001"
                 "ORD17000000000000001")
  /\ (forall o, In o (orders shop2) -> order_id o <> fresh_id demo_env)
  /\ exists o,
       get_order asha_id "65f000000000000000000001"
         (snd (post_orders demo_env asha_id (demo_order None None) shop2))
       = Answer
           (populate_order
              (snd (post_orders demo_env asha_id (demo_order None None)
                                shop2)) o)
       /\ orderNumber o = "ORD17000000000000001"
       /\ get_order ravi_id "65f000000000000000000001"
            (snd (post_orders demo_env asha_id (demo_order None None) shop2))
          = Refusal 404 "Order not found".
Proof.
  assert (Hr : fst (post_orders demo_env asha_id (demo_order None None)
                                shop2)
               = mkResponse 201
                   (OrderBody "Order placed successfully"
                      "65f000000000000000000001" "ORD17000000000000001"))
    by (vm_compute; reflexivity).
  assert (Hfresh : forall o, In o (orders shop2) ->
                     order_id o <> fresh_id demo_env)
    by (intros o Hin; vm_compute in Hin; destruct Hin).
  split; [exact Hr|]. split; [exact Hfresh|].
  destruct (placed_order_can_be_read_back demo_env asha_id _ shop2 _ _ _
              Hr Hfresh) as (o & Hg & _ & Hn & _ & _ & _ & Hother & _).
  exists o. split; [exact Hg|]. split; [exact Hn|].
  apply Hother. vm_compute. discriminate.
Defined.

Lemma login_token_opens_the_gate_witness :
  fst (@post_auth_login session_libraries demo_env "Asha" "secret1" shop2)
  = mkResponse 200
      (LoginBody "Login successful" "user:65f000000000000000000001:asha"
                 asha_id (Some "asha") (Some "asha@example.com")
                 (Some "Asha") (Some "Rao"))
  /\ (exists claims,
        @jwt_decode session_libraries
          (@jwt_sign session_libraries
             [("userId", asha_id); ("username", "asha")] (24 * 3600)
             (now demo_env))
        = Some (claims, now demo_env / 1000 * 1000 + 24 * 3600 * 1000)
        /\ field "userId" claims = Some asha_id)
  /\ occurs " " "user:65f000000000000000000001:asha" = false
  /\ nonempty "user:65f000000000000000000001:asha" = true
  /\ (exists user,
        @authenticateToken session_libraries demo_env
          (Some "Bearer user:65f000000000000000000001:asha")
        = inr user
        /\ field "userId" user = Some asha_id)
  /\ @authenticateToken session_libraries
       (mkEnv 1700086400000 "65f000000000000000000009" "http"
              "localhost:5000" false false false)
       (Some "Bearer user:65f000000000000000000001:asha")
     = inl (mkResponse 403 (ErrorBody "Invalid token")).
Proof.
  match goal with
  | |- ?R /\ ?J /\ ?S /\ ?N /\ _ =>
    assert (Hr : R) by (vm_compute; reflexivity);
    assert (Hj : J) by (eexists; vm_compute; split; reflexivity);
    assert (Hs : S) by (vm_compute; reflexivity);
    assert (Hn : N) by (vm_compute; reflexivity)
  end.
  do 4 (split; [assumption|]).
  destruct (@login_token_opens_the_gate session_libraries demo_env "Asha"
              "secret1" shop2 _ _ _ _ _ _ _ Hr Hj Hs Hn)
    as (_ & _ & Hopen & Hshut).
  split.
  - apply (Hopen demo_env). vm_compute. reflexivity.
  - apply Hshut. vm_compute. discriminate.
Defined.

Lemma registered_user_can_log_in_witness :
  status (fst (@post_auth_register demo_libraries demo_env asha shop0)) = 201
  /\ field "isActive" (reg_other asha) = None
  /\ field "_id" (reg_other asha) = None
  /\ field "id" (reg_other asha) = None
  /\ @bcrypt_compare demo_libraries (reg_password asha)
       (@bcrypt_hash demo_libraries (reg_password asha) 12) = true
  /\ (exists token mail fn ln,
        fst (@post_auth_login demo_libraries demo_env (reg_username asha)
               (reg_password asha) shop1)
        = mkResponse 200
            (LoginBody "Login successful" token (fresh_id demo_env)
               (Some (toLowerCase (trim (reg_username asha)))) mail fn ln))
  /\ status (fst (@post_auth_login demo_libraries demo_env
                    (reg_username asha) "secret2" shop1)) = 400.
Proof.
  match goal with
  | |- ?S /\ ?A /\ ?I /\ ?J /\ ?B /\ _ =>
    assert (Hs : S) by (vm_compute; reflexivity);
    assert (Ha : A) by (vm_compute; reflexivity);
    assert (Hi : I) by (vm_compute; reflexivity);
    assert (Hj : J) by (vm_compute; reflexivity);
    assert (Hb : B) by (vm_compute; reflexivity)
  end.
  do 5 (split; [assumption|]).
  destruct (@registered_user_can_log_in demo_libraries demo_env demo_env
              asha shop0 Hs Ha Hi Hj Hb) as [Hok Hbad].
  split; [exact Hok|]. apply Hbad. vm_compute. reflexivity.
Defined.

Lemma reset_password_replaces_the_password_witness :
  exists usr,
    @reachable demo_libraries shop3
    /\ status (fst (@post_auth_reset_password demo_libraries demo_env
                      "reset:asha@example.com" "newsecret" shop3)) = 200
    /\ nth_error (users shop3) 0 = Some usr
    /\ (exists payload,
          @jwt_verify demo_libraries "reset:asha@example.com" (now demo_env)
          = Some payload
          /\ field "email" payload = Some (email usr))
    /\ user_isActive usr = true
    /\ user_valid
         (set_password (@bcrypt_hash demo_libraries "newsecret" 12)
                       (now demo_env) usr) = true
    /\ toLowerCase (trim " Asha ") = username usr
    /\ @bcrypt_compare demo_libraries "newsecret"
         (@bcrypt_hash demo_libraries "newsecret" 12) = true
    /\ (exists jwt mail fn ln,
          fst (@post_auth_login demo_libraries demo_env " Asha " "newsecret"
                 (snd (@post_auth_reset_password demo_libraries demo_env
                         "reset:asha@example.com" "newsecret" shop3)))
          = mkResponse 200
              (LoginBody "Login successful" jwt (user_id usr)
                 (Some (username usr)) mail fn ln))
    /\ status (fst (@post_auth_login demo_libraries demo_env " Asha "
                      "secret1"
                      (snd (@post_auth_reset_password demo_libraries demo_env
                              "reset:asha@example.com" "newsecret" shop3))))
       = 400.
Proof.
  eexists.
  match goal with
  | |- _ /\ ?S /\ ?N /\ _ =>
    assert (Hs : S) by (vm_compute; reflexivity);
    assert (Hn : N) by (vm_compute; reflexivity)
  end.
  match goal with
  | |- _ /\ _ /\ _ /\ ?P /\ ?A /\ ?V /\ ?U /\ ?B /\ _ =>
    assert (Hp : P)
      by (eexists; split; [vm_compute; reflexivity|vm_compute; reflexivity]);
    assert (Ha : A) by (vm_compute; reflexivity);
    assert (Hvalid : V) by (vm_compute; reflexivity);
    assert (Hu : U) by (vm_compute; reflexivity);
    assert (Hb : B) by (vm_compute; reflexivity)
  end.
  split; [exact shop3_reachable|]. split; [exact Hs|]. split; [exact Hn|].
  split; [exact Hp|]. split; [exact Ha|]. split; [exact Hvalid|].
  split; [exact Hu|]. split; [exact Hb|].
  destruct (@reset_password_replaces_the_password demo_libraries demo_env
              demo_env "reset:asha@example.com" "newsecret" shop3 0 _ " Asha "
              shop3_reachable Hs Hn Hp Ha Hvalid Hu Hb)
    as (_ & _ & Hok & Hbad).
  split; [exact Hok|]. apply Hbad. vm_compute. reflexivity.
Defined.

Lemma reset_token_passes_the_gate_witness :
  status (fst (@post_auth_forgot_password demo_libraries demo_env
                 "Asha@Example.com" shop2)) = 200
  /\ (exists claims,
        @jwt_decode demo_libraries
          (@jwt_sign demo_libraries
             [("email", toLowerCase "Asha@Example.com")] 3600
             (now demo_env))
        = Some (claims, now demo_env / 1000 * 1000 + 3600 * 1000)
        /\ field "email" claims = Some (toLowerCase "Asha@Example.com")
        /\ field "userId" claims = None)
  /\ occurs " "
       (@jwt_sign demo_libraries [("email", toLowerCase "Asha@Example.com")]
                  3600 (now demo_env)) = false
  /\ nonempty
       (@jwt_sign demo_libraries [("email", toLowerCase "Asha@Example.com")]
                  3600 (now demo_env)) = true
  /\ exists user,
       @authenticateToken demo_libraries demo_env
         (Some ("Bearer "
                ++ @jwt_sign demo_libraries
                     [("email", toLowerCase "Asha@Example.com")] 3600
                     (now demo_env)))
       = inr user
       /\ field "email" user = Some (toLowerCase "Asha@Example.com")
       /\ field "userId" user = None.
Proof.
  match goal with
  | |- ?S /\ ?J /\ ?O /\ ?N /\ _ =>
    assert (Hs : S) by (vm_compute; reflexivity);
    assert (Hj : J) by (eexists; vm_compute; repeat split; reflexivity);
    assert (Ho : O) by (vm_compute; reflexivity);
    assert (Hn : N) by (vm_compute; reflexivity)
  end.
  do 4 (split; [assumption|]).
  destruct (@reset_token_passes_the_gate demo_libraries demo_env
              "Asha@Example.com" shop2 Hs Hj Ho Hn) as [_ Hgate].
  apply (Hgate demo_env). vm_compute. reflexivity.
Defined.

Lemma accounts_are_unique_witness :
  @reachable demo_libraries shop6
  /\ map username (users shop6) = ["asha"; "ravi"]
  /\ map email (users shop6) = ["asha@example.com"; "ravi@example.com"]
  /\ NoDup (map username (users shop6))
  /\ NoDup (map email (users shop6))
  /\ (forall i j u1 u2,
        nth_error (users shop6) i = Some u1 ->
        nth_error (users shop6) j = Some u2 ->
        username u1 = username u2 \/ email u1 = email u2 -> i = j).
Proof.
  assert (Hr : @reachable demo_libraries shop6)
    by (apply (@reach_serve demo_libraries); exact shop3_reachable).
  split; [exact Hr|].
  split; [vm_compute; reflexivity|]. split; [vm_compute; reflexivity|].
  exact (@accounts_are_unique demo_libraries shop6 Hr).
Defined.

Lemma cart_add_never_401 env u pid qty w :
  status (fst (post_cart_add env u pid qty w)) <> 401.
Proof.
  rewrite post_cart_add_eq. cbv zeta.
  destruct (find _ (products w)) as [p|];
    [destruct (negb (product_isActive p)); [|destruct (cart_valid _)]|];
    cbn [fst status]; discriminate.
Qed.

Lemma client_keeps_a_rejected_token_witness :
  let handler := fun user =>
    post_cart_add demo_env (field_or_empty "userId" user)
                  "64a000000000000000000001" (Some 1) in
  let c := mkClient (Some "expired") (Some "expired") None "/p1.html" in
  (forall user w0, status (fst (handler user w0)) <> 401)
  /\ makeAuthenticatedRequest
       (fun h => @behind_gate demo_libraries demo_env h handler) c shop2
     = (Fetched_response (mkResponse 403 (ErrorBody "Invalid token")),
        c, shop2).
Proof.
  cbv zeta.
  assert (Hh : forall user w0,
            status (fst (post_cart_add demo_env (field_or_empty "userId" user)
                           "64a000000000000000000001" (Some 1) w0)) <> 401)
    by (intros user w0; apply cart_add_never_401).
  split; [exact Hh|].
  pose proof (@client_keeps_a_rejected_token demo_libraries demo_env _
                (mkClient (Some "expired") (Some "expired") None "/p1.html")
                shop2 Hh) as H.
  destruct (makeAuthenticatedRequest _ _ _) as [[outcome c'] w'].
  destruct H as (_ & H & _).
  destruct (H "expired" eq_refl eq_refl) as (Hc & _ & Ho & Hw).
  rewrite Hc, Ho, Hw. reflexivity.
Defined.

(** * The catalog routes *)


Lemma given_Some s v : given s = Some v -> s = Some v /\ v <> EmptyString.
Proof.
  destruct s as [x|]; simpl; [|discriminate].
  destruct x; simpl; [discriminate|]. intros H. injection H as <-.
  split; [reflexivity|discriminate].
Qed.



Lemma get_products_ext test q q' catalog :
  (forall e, selects test q e = selects test q' e) ->
  query_page q = query_page q' -> query_limit q = query_limit q' ->
  get_products test q catalog = get_products test q' catalog.
Proof.
  intros Hs Hp Hl. unfold get_products.
  rewrite (filter_ext _ _ Hs), Hp, Hl. reflexivity.
Qed.

Lemma given_toLowerCase c :
  match given (Some (toLowerCase c)) with
  | Some x => Some (toLowerCase x)
  | None => None
  end
  = match given (Some c) with
    | Some x => Some (toLowerCase x)
    | None => None
    end.
Proof.
  destruct c as [|a r]; [reflexivity|].
  assert (E1 : given (Some (String a r)) = Some (String a r))
    by reflexivity.
  assert (E2 : given (Some (toLowerCase (String a r)))
               = Some (toLowerCase (String a r))) by reflexivity.
  rewrite E1, E2, toLowerCase_idempotent. reflexivity.
Qed.

(** X26. What the product listing makes of its query.  The category and
    the subcategory are compared in lower case: a query for a category in
    capitals gets what the query for its lower-cased name gets.  A filter
    sent as the empty string counts as not sent.  For [inStock], only the
    string "true" filters; every other value, "false" included, gets what
    a query without [inStock] gets.  And the query
    [APIService.getProducts] sends never names a page or a limit: the
    client gets the 12 newest matching products and no others. *)
Theorem product_query_variants test catalog (c sc : string)
  (oc osc se : option string) mn mx stock p lim :
  get_products test (mkProductQuery (Some c) osc se mn mx stock p lim)
    catalog
  = get_products test
      (mkProductQuery (Some (toLowerCase c)) osc se mn mx stock p lim)
      catalog
  /\ get_products test (mkProductQuery oc (Some sc) se mn mx stock p lim)
       catalog
     = get_products test
         (mkProductQuery oc (Some (toLowerCase sc)) se mn mx stock p lim)
         catalog
  /\ get_products test
       (mkProductQuery (Some EmptyString) (Some EmptyString)
                       (Some EmptyString) mn mx stock p lim) catalog
     = get_products test (mkProductQuery None None None mn mx stock p lim)
         catalog
  /\ (stock <> Some "true" ->
      get_products test (mkProductQuery oc osc se mn mx stock p lim) catalog
      = get_products test (mkProductQuery oc osc se mn mx None p lim)
          catalog)
  /\ fst (get_products test (getProducts oc osc se) catalog)
     = firstn 12
         (sort_desc createdAt
            (filter (selects test (mkProductQuery oc osc se None None None
                                                  None None))
                    catalog)).
Proof.
  split; [|split; [|split; [|split]]].
  - apply get_products_ext; [|reflexivity|reflexivity].
    intros e. unfold selects. cbn [query_category query_subcategory
      query_inStock query_minPrice query_maxPrice query_search].
    pose proof (given_toLowerCase c) as H.
    destruct (given (Some (toLowerCase c))), (given (Some c));
      try discriminate; [|reflexivity].
    injection H as ->. reflexivity.
  - apply get_products_ext; [|reflexivity|reflexivity].
    intros e. unfold selects. cbn [query_category query_subcategory
      query_inStock query_minPrice query_maxPrice query_search].
    pose proof (given_toLowerCase sc) as H.
    destruct (given (Some (toLowerCase sc))), (given (Some sc));
      try discriminate; [|reflexivity].
    injection H as ->. reflexivity.
  - reflexivity.
  - intros Hs. apply get_products_ext; [|reflexivity|reflexivity].
    intros e. unfold selects. cbn [query_category query_subcategory
      query_inStock query_minPrice query_maxPrice query_search].
    destruct stock as [v|]; [|reflexivity].
    destruct (String.eqb_spec v "true"); [congruence|reflexivity].
  - unfold get_products, getProducts.
    cbn [query_page query_limit or_default fst].
    assert (Hs : forall e,
              selects test
                (mkProductQuery (given oc) (given osc) (given se) None None
                                None None None) e
              = selects test
                  (mkProductQuery oc osc se None None None None None) e).
    { intros e. unfold selects. cbn [query_category query_subcategory
        query_inStock query_minPrice query_maxPrice query_search].
      assert (Hg : forall s, given (given s) = given s).
      { intros [[|a r]|]; reflexivity. }
      rewrite !Hg. reflexivity. }
    rewrite (filter_ext _ _ Hs). reflexivity.
Qed.

(** ** Categories *)

Lemma string_lt_trans a b c :
  OrdersEx.String_as_OT.lt a b -> OrdersEx.String_as_OT.lt b c ->
  OrdersEx.String_as_OT.lt a c.
Proof.
  apply (@RelationClasses.StrictOrder_Transitive _ _
           OrdersEx.String_as_OT.lt_strorder).
Qed.

Lemma string_lt_irrefl a : ~ OrdersEx.String_as_OT.lt a a.
Proof.
  apply (@RelationClasses.StrictOrder_Irreflexive _ _
           OrdersEx.String_as_OT.lt_strorder).
Qed.

Lemma tally_keys c groups k :
  In k (map fst (tally c groups)) <-> k = c \/ In k (map fst groups).
Proof.
  induction groups as [|[c' n] r IH]; simpl.
  - intuition.
  - destruct (OrdersEx.String_as_OT.compare_spec c c') as [E|E|E]; simpl.
    + unfold OrdersEx.String_as_OT.eq in E. subst. intuition.
    + intuition.
    + rewrite IH. intuition.
Qed.

Lemma tally_sorted c groups :
  StronglySorted OrdersEx.String_as_OT.lt (map fst groups) ->
  StronglySorted OrdersEx.String_as_OT.lt (map fst (tally c groups)).
Proof.
  induction groups as [|[c' n] r IH]; simpl; intros H.
  - constructor; constructor.
  - inversion H as [|? ? Hs Hall]; subst.
    destruct (OrdersEx.String_as_OT.compare_spec c c') as [E|E|E]; simpl.
    + constructor; assumption.
    + constructor; [exact H|]. constructor; [exact E|].
      eapply Forall_impl; [|exact Hall]. intros k Hk.
      exact (string_lt_trans _ _ _ E Hk).
    + constructor; [apply IH; exact Hs|].
      apply Forall_forall. intros k Hk. apply tally_keys in Hk.
      destruct Hk as [->|Hk]; [exact E|].
      exact (proj1 (Forall_forall _ _) Hall k Hk).
Qed.

Lemma tally_sum c groups :
  sumZ (map snd (tally c groups)) = sumZ (map snd groups) + 1.
Proof.
  induction groups as [|[c' n] r IH]; [reflexivity|].
  cbn [tally]. destruct (OrdersEx.String_as_OT.compare c c');
    cbn [map snd sumZ fold_right] in *; lia.
Qed.

Lemma sorted_keys_NoDup keys :
  StronglySorted OrdersEx.String_as_OT.lt keys -> NoDup keys.
Proof.
  induction 1 as [|k r Hs IH Hall]; constructor; [|exact IH].
  intros Hin. apply (proj1 (Forall_forall _ _) Hall) in Hin.
  exact (string_lt_irrefl _ Hin).
Qed.

(** The number of strings in a list that are [c] *)
Lemma tally_counts cs : forall c n,
  In (c, n) (fold_right tally [] cs)
  <-> 1 <= n /\ n = Z.of_nat (List.length (filter (String.eqb c) cs)).
Proof.
  assert (Hstep : forall c0 groups,
            StronglySorted OrdersEx.String_as_OT.lt (map fst groups) ->
            forall c n,
              In (c, n) (tally c0 groups)
              <-> (c = c0 /\ ~ In c (map fst groups) /\ n = 1)
                  \/ (c = c0 /\ In (c, n - 1) groups)
                  \/ (c <> c0 /\ In (c, n) groups)).
  { intros c0 groups. induction groups as [|[c' m] r IH]; intros Hs c n.
    - simpl. split.
      + intros [E|[]]. injection E as <- <-. left. auto.
      + intros [(-> & _ & ->)|[(_ & [])|(_ & [])]]. left. reflexivity.
    - simpl in Hs. inversion Hs as [|? ? Hs' Hall]; subst.
      pose proof (sorted_keys_NoDup _ Hs) as Hnd. simpl in Hnd.
      inversion Hnd as [|? ? Hnotin _]; subst.
      cbn [tally].
      destruct (OrdersEx.String_as_OT.compare_spec c0 c') as [E|E|E].
      + unfold OrdersEx.String_as_OT.eq in E. subst c'.
        cbn [In map fst]. split.
        * intros [H|H].
          -- injection H as <- <-. right. left.
             split; [reflexivity|]. left. f_equal. lia.
          -- right. right. split; [|right; exact H].
             intros ->. apply Hnotin.
             apply in_map_iff. exists (c0, n). auto.
        * intros [(-> & Hn & _)|[(-> & [H|H])|(Hne & [H|H])]].
          -- exfalso. apply Hn. left. reflexivity.
          -- injection H as Hm. left. f_equal. lia.
          -- exfalso. apply Hnotin. apply in_map_iff.
             exists (c0, n - 1). auto.
          -- injection H as <- <-. congruence.
          -- right. exact H.
      + assert (Hc0 : ~ In c0 (c' :: map fst r)).
        { intros [->|Hin]; [exact (string_lt_irrefl _ E)|].
          apply (proj1 (Forall_forall _ _) Hall) in Hin.
          exact (string_lt_irrefl _
                   (string_lt_trans _ _ _ E Hin)). }
        cbn [In map fst]. split.
        * intros [H|H].
          -- injection H as <- <-. left. auto.
          -- right. right. split; [|exact H].
             intros ->. apply Hc0.
             destruct H as [H|H];
               [injection H as <- <-; left; reflexivity|].
             right. apply in_map_iff. exists (c0, n). auto.
        * intros [(-> & _ & ->)|[(-> & H)|(_ & H)]].
          -- left. reflexivity.
          -- exfalso. apply Hc0.
             destruct H as [H|H];
               [injection H as <- _; left; reflexivity|].
             right. apply in_map_iff. exists (c0, n - 1). auto.
          -- right. exact H.
      + cbn [In map fst]. rewrite (IH Hs' c n). split.
        * intros [H|[(-> & Hn & ->)|[(-> & H)|(Hne & H)]]].
          -- injection H as <- <-. right. right.
             split; [|left; reflexivity].
             intros ->. exact (string_lt_irrefl _ E).
          -- left. split; [reflexivity|]. split; [|reflexivity].
             intros [->|Hin]; [exact (string_lt_irrefl _ E)|].
             exact (Hn Hin).
          -- right. left. auto.
          -- right. right. auto.
        * intros [(-> & Hn & ->)|[(-> & [H|H])|(Hne & [H|H])]].
          -- right. left. split; [reflexivity|]. split; [|reflexivity].
             intros Hin. apply Hn. right. exact Hin.
          -- injection H as <- _. exfalso.
             exact (string_lt_irrefl _ E).
          -- right. right. left. auto.
          -- left. exact H.
          -- right. right. right. auto. }
  assert (Hsorted : forall l,
            StronglySorted OrdersEx.String_as_OT.lt
              (map fst (fold_right tally [] l))).
  { induction l as [|x r IH]; simpl; [constructor|].
    apply tally_sorted. exact IH. }
  induction cs as [|c0 r IH]; intros c n.
  - simpl. split; [intros []|]. intros [H1 H2]. simpl in H2. lia.
  - cbn [fold_right]. rewrite (Hstep c0 _ (Hsorted r) c n).
    cbn [filter]. split.
    + intros [(-> & Hn & ->)|[(-> & H)|(Hne & H)]].
      * rewrite String.eqb_refl. cbn [List.length].
        split; [lia|].
        destruct (filter (String.eqb c0) r) as [|y t] eqn:Ef;
          [reflexivity|].
        exfalso. apply Hn. apply in_map_iff.
        exists (c0, Z.of_nat (List.length (y :: t))). split; [reflexivity|].
        apply IH. rewrite Ef. cbn [List.length]. split; [lia|reflexivity].
      * rewrite String.eqb_refl. cbn [List.length].
        apply IH in H. destruct H as [H1 H2]. split; [lia|lia].
      * destruct (String.eqb_spec c c0); [congruence|]. apply IH. exact H.
    + intros [H1 H2].
      destruct (String.eqb_spec c c0) as [->|Hne].
      * cbn [List.length] in H2.
        destruct (filter (String.eqb c0) r) as [|y t] eqn:Ef.
        -- left. split; [reflexivity|]. split; [|simpl in H2; lia].
           intros Hin. apply in_map_iff in Hin.
           destruct Hin as [[c1 m] [Hc Hin]]. simpl in Hc. subst c1.
           apply IH in Hin. rewrite Ef in Hin. simpl in Hin. lia.
        -- right. left. split; [reflexivity|]. apply IH. rewrite Ef.
           cbn [List.length] in *. split; lia.
      * right. right. split; [exact Hne|]. apply IH. auto.
Qed.

Lemma fold_tally_sorted cs :
  StronglySorted OrdersEx.String_as_OT.lt (map fst (fold_right tally [] cs)).
Proof.
  induction cs as [|x r IH]; simpl; [constructor|].
  apply tally_sorted. exact IH.
Qed.

Lemma fold_tally_sum cs :
  sumZ (map snd (fold_right tally [] cs)) = Z.of_nat (List.length cs).
Proof.
  induction cs as [|x r IH]; [reflexivity|].
  cbn [fold_right]. rewrite tally_sum, IH. cbn [List.length]. lia.
Qed.

Lemma length_filter_map {A B} (h : A -> B) (f : B -> bool) l :
  List.length (filter f (map h l))
  = List.length (filter (fun x => f (h x)) l).
Proof.
  induction l as [|x r IH]; simpl; [reflexivity|].
  destruct (f (h x)); simpl; congruence.
Qed.

(** X27. GET /api/categories counts the active products by category.
    The answer lists each category that has an active product exactly
    once, in ascending order of the category names, with the number of
    active products of that category, which is at least 1; categories
    with only inactive products are not listed, and the counts add up to
    the number of active products. *)
Theorem categories_are_tallied catalog :
  let active :=
    filter (fun e => product_isActive (entry_product e)) catalog in
  let groups := get_categories catalog in
  StronglySorted OrdersEx.String_as_OT.lt (map fst groups)
  /\ NoDup (map fst groups)
  /\ (forall c n,
        In (c, n) groups
        <-> 1 <= n
            /\ n = Z.of_nat
                     (List.length
                        (filter (fun e => String.eqb c (category e))
                                active)))
  /\ (forall c,
        In c (map fst groups)
        <-> exists e, In e catalog
                      /\ product_isActive (entry_product e) = true
                      /\ category e = c)
  /\ sumZ (map snd groups) = Z.of_nat (List.length active).
Proof.
  cbv zeta. unfold get_categories.
  set (active := filter (fun e => product_isActive (entry_product e))
                        catalog).
  assert (Hcount : forall c n,
            In (c, n) (fold_right tally [] (map category active))
            <-> 1 <= n
                /\ n = Z.of_nat
                         (List.length
                            (filter (fun e => String.eqb c (category e))
                                    active))).
  { intros c n. rewrite tally_counts, length_filter_map. reflexivity. }
  split; [apply fold_tally_sorted|].
  split; [apply sorted_keys_NoDup, fold_tally_sorted|].
  split; [exact Hcount|]. split.
  - intros c. split.
    + intros Hin. apply in_map_iff in Hin. destruct Hin as [[c' n] [Hc Hin]].
      simpl in Hc. subst c'. apply Hcount in Hin. destruct Hin as [H1 H2].
      destruct (filter (fun e => String.eqb c (category e)) active)
        as [|e t] eqn:Ef; [simpl in H2; lia|].
      assert (He : In e (filter (fun e => String.eqb c (category e)) active))
        by (rewrite Ef; left; reflexivity).
      apply filter_In in He. destruct He as [He Hc].
      apply filter_In in He. destruct He as [He Ha].
      apply String.eqb_eq in Hc. exists e. auto.
    + intros (e & Hin & Ha & Hc).
      assert (He : In e (filter (fun e => String.eqb c (category e)) active)).
      { apply filter_In. split.
        - apply filter_In. auto.
        - apply String.eqb_eq. auto. }
      apply in_map_iff.
      exists (c, Z.of_nat
                   (List.length
                      (filter (fun e => String.eqb c (category e)) active))).
      split; [reflexivity|]. apply Hcount. split; [|reflexivity].
      destruct (filter (fun e => String.eqb c (category e)) active);
        [destruct He|]. cbn [List.length]. lia.
  - rewrite fold_tally_sum, length_map. reflexivity.
Qed.

(** * The routes on the bodies as sent *)

(** ** Orders with a reference that is no product *)


(** On references that the cast leaves as they are, the route is the one
    of the first part. *)
Lemma wire_validate_items_canonical {D : Driver} w items :
  (forall i, In i items ->
     castObjectId (item_productId i) = Some (item_productId i)) ->
  forall acc ls,
    Wire.validate_items items acc ls w = validate_items items acc ls w.
Proof.
  induction items as [|x items IH]; intros Hc acc ls; [reflexivity|].
  cbn [Wire.validate_items validate_items].
  unfold Wire.Product_findById. rewrite (Hc x (or_introl eq_refl)).
  step_handler.
  destruct (find (is_product (item_productId x)) (products w)) as [p|] eqn:E;
    [|reflexivity].
  destruct (negb (product_isActive p)); [reflexivity|].
  apply find_some in E. destruct E as [_ E]. apply String.eqb_eq in E.
  unfold Wire.order_line, order_line. rewrite E.
  apply IH. intros i Hi. apply Hc. right. exact Hi.
Qed.

Lemma wire_post_orders_canonical {D : Driver} env userId req w :
  (forall i, In i (body_products req) ->
     castObjectId (item_productId i) = Some (item_productId i)) ->
  Wire.post_orders env userId req w = post_orders env userId req w.
Proof.
  intros Hc. unfold Wire.post_orders, post_orders, route, try_catch.
  unfold bind at 1 5.
  rewrite (wire_validate_items_canonical w _ Hc). reflexivity.
Qed.




(** ** Logins with a password that is no string *)

Lemma findOne_none_iff {A} (f : A -> bool) (l : list A) :
  (forall x, In x l -> f x = false) -> findOne f l = None.
Proof.
  intros H. unfold findOne.
  destruct (findIndex f l) as [i|] eqn:E; [|reflexivity].
  destruct (findIndex_Some _ _ _ E) as [x [Hx Fx]].
  apply nth_error_In in Hx. rewrite (H x Hx) in Fx. discriminate.
Qed.

(** C5, as the code has it.  Take a failed login with the name of a
    stored, active user and one with a name that no active user has, both
    with the same password.  When the password is a string that
    [bcrypt.compare] does not accept for that user, the two are answered
    alike, 400 "Invalid credentials", and nothing is written; a [null]
    password is refused by the validation for both.  When the password is
    a number or a boolean, it passes [notEmpty()], [bcrypt.compare]
    rejects it for the stored user, and the two answers differ: 500
    "Internal server error" with a line in the log where the name exists,
    400 "Invalid credentials" where it does not. *)
Theorem login_failures_are_told_apart {L : Libraries}
  env1 env2 w u1 u2 pass :
  nonempty (trim u1) = true -> nonempty (trim u2) = true ->
  (exists user, In user (users w)
                /\ username user = toLowerCase (trim u1)
                /\ user_isActive user = true) ->
  (forall user, In user (users w) ->
     username user = toLowerCase (trim u2) -> user_isActive user = false) ->
  (forall s user, pass = Wire.JString s -> In user (users w) ->
     username user = toLowerCase (trim u1) ->
     bcrypt_compare s (password user) = false) ->
  match pass with
  | Wire.JString s =>
    Wire.post_auth_login env1 u1 pass w
    = Wire.post_auth_login env2 u2 pass w
    /\ (nonempty s = true ->
        Wire.post_auth_login env1 u1 pass w
        = (mkResponse 400 (ErrorBody "Invalid credentials"), w))
  | Wire.JNull =>
    Wire.post_auth_login env1 u1 pass w
    = (mkResponse 400 (ValidationFailed ["Password is required"]), w)
    /\ Wire.post_auth_login env2 u2 pass w
       = (mkResponse 400 (ValidationFailed ["Password is required"]), w)
  | _ =>
    Wire.post_auth_login env1 u1 pass w
    = (mkResponse 500 (ErrorBody "Internal server error"),
       log "Login error:" w)
    /\ Wire.post_auth_login env2 u2 pass w
       = (mkResponse 400 (ErrorBody "Invalid credentials"), w)
  end.
Proof.
  intros N1 N2 [usr [Hin [Hname Hact]]] Habsent Hwrong.
  assert (F2 : findOne (fun u => is_user_name (toLowerCase (trim u2)) u
                                 && user_isActive u) (users w) = None).
  { apply findOne_none_iff. intros x Hx. unfold is_user_name.
    destruct (String.eqb_spec (username x) (toLowerCase (trim u2)));
      [|reflexivity].
    rewrite (Habsent x Hx e). reflexivity. }
  destruct (findOne (fun u => is_user_name (toLowerCase (trim u1)) u
                              && user_isActive u) (users w))
    as [[slot found]|] eqn:F1.
  2:{ exfalso. unfold findOne in F1.
      destruct (findIndex _ (users w)) as [i|] eqn:Ei.
      - destruct (findIndex_Some _ _ _ Ei) as [x [Hx _]].
        rewrite Hx in F1. discriminate.
      - pose proof (proj1 (findIndex_None _ _) Ei usr Hin) as Hf.
        unfold is_user_name in Hf.
        rewrite Hname, String.eqb_refl, Hact in Hf. discriminate. }
  pose proof (findOne_Some _ _ _ _ F1) as (_ & Hnth & Hf).
  apply andb_prop in Hf. destruct Hf as [Hfn _].
  apply String.eqb_eq in Hfn. apply nth_error_In in Hnth.
  unfold Wire.post_auth_login, Wire.login_errors. rewrite N1, N2.
  destruct pass as [s| | |]; cbn [Wire.notEmpty app validated].
  - assert (R2 : Wire.login_handler env2 (trim u2) (Wire.JString s) w
                 = (mkResponse 400 (ErrorBody "Invalid credentials"), w)).
    { unfold Wire.login_handler. step_handler. rewrite F2. reflexivity. }
    assert (R1 : Wire.login_handler env1 (trim u1) (Wire.JString s) w
                 = (mkResponse 400 (ErrorBody "Invalid credentials"), w)).
    { unfold Wire.login_handler. step_handler. rewrite F1.
      unfold Wire.compare. step_handler.
      rewrite (Hwrong s found eq_refl Hnth Hfn). reflexivity. }
    destruct (nonempty s); cbn [app validated].
    + rewrite R1, R2. split; [reflexivity|]. intros _. reflexivity.
    + split; [reflexivity|]. discriminate.
  - split.
    + unfold Wire.login_handler. step_handler. rewrite F1. reflexivity.
    + unfold Wire.login_handler. step_handler. rewrite F2. reflexivity.
  - split.
    + unfold Wire.login_handler. step_handler. rewrite F1. reflexivity.
    + unfold Wire.login_handler. step_handler. rewrite F2. reflexivity.
  - split; reflexivity.
Qed.

Lemma login_failures_are_told_apart_witness :
  nonempty (trim "Asha") = true /\ nonempty (trim "nobody") = true
  /\ (exists user, In user (users shop2)
                   /\ username user = toLowerCase (trim "Asha")
                   /\ user_isActive user = true)
  /\ @Wire.post_auth_login demo_libraries demo_env "Asha"
       (Wire.JNumber (12345 # 1)) shop2
     = (mkResponse 500 (ErrorBody "Internal server error"),
        log "Login error:" shop2)
  /\ @Wire.post_auth_login demo_libraries demo_env "nobody"
       (Wire.JNumber (12345 # 1)) shop2
     = (mkResponse 400 (ErrorBody "Invalid credentials"), shop2).
Proof.
  assert (N1 : nonempty (trim "Asha") = true) by reflexivity.
  assert (N2 : nonempty (trim "nobody") = true) by reflexivity.
  assert (H1 : exists user, In user (users shop2)
                            /\ username user = toLowerCase (trim "Asha")
                            /\ user_isActive user = true).
  { eexists. split; [left; reflexivity|]. split; reflexivity. }
  split; [exact N1|]. split; [exact N2|]. split; [exact H1|].
  refine (@login_failures_are_told_apart demo_libraries demo_env demo_env
            shop2 "Asha" "nobody" (Wire.JNumber (12345 # 1)) N1 N2 H1 _ _).
  - intros user [<-|[]]. discriminate.
  - intros s user E. discriminate E.
Defined.

(** ** The cart, with the references and quantities as sent *)

Lemma wire_cart_lines_saved user cat cs con slot c0 c :
  findOne (Wire.cart_of user) cs = Some (slot, c0) ->
  Wire.userId c = user ->
  Wire.cart_lines user
    (Wire.mkStore cat (update_nth slot (fun _ => c) cs) con)
  = Wire.products c.
Proof.
  intros E Hu. unfold Wire.cart_lines. cbn [Wire.carts].
  assert (Fc : Wire.cart_of user c = true)
    by (unfold Wire.cart_of; apply String.eqb_eq; assumption).
  apply findOne_Some in E. destruct E as [E _].
  erewrite findOne_intro; [reflexivity| |].
  - apply findIndex_replace; eassumption.
  - rewrite nth_error_update_nth.
    destruct (findIndex_Some _ _ _ E) as [x [-> _]]. reflexivity.
Qed.

Lemma wire_cart_found_user user cs slot c :
  findOne (Wire.cart_of user) cs = Some (slot, c) -> Wire.userId c = user.
Proof.
  intros E. apply findOne_Some in E. destruct E as [_ [_ E]].
  apply String.eqb_eq. assumption.
Qed.

Lemma wire_valid_remove_nth ps i :
  forallb (fun l => Qle_bool 1 (Wire.quantity l)) ps = true ->
  forallb (fun l => Qle_bool 1 (Wire.quantity l)) (remove_nth i ps) = true.
Proof.
  intros H. apply forallb_forall. intros y Hy.
  rewrite forallb_forall in H. apply H. eapply In_remove_nth. eassumption.
Qed.

Lemma wire_valid_set_quantity ps i q :
  forallb (fun l => Qle_bool 1 (Wire.quantity l)) ps = true ->
  Qle_bool 1 q = true ->
  forallb (fun l => Qle_bool 1 (Wire.quantity l))
          (update_nth i (Wire.set_quantity q) ps) = true.
Proof.
  intros H Hq. apply forallb_forall. intros y Hy.
  rewrite forallb_forall in H.
  destruct (In_update_nth _ _ _ _ Hy) as [Hin|[x [_ ->]]]; [auto|exact Hq].
Qed.

Lemma wire_invalid_set_quantity ps i x q :
  nth_error ps i = Some x -> Qle_bool 1 q = false ->
  forallb (fun l => Qle_bool 1 (Wire.quantity l))
          (update_nth i (Wire.set_quantity q) ps) = false.
Proof.
  intros Hx Hq.
  destruct (forallb _ (update_nth i (Wire.set_quantity q) ps)) eqn:E;
    [|reflexivity].
  rewrite forallb_forall in E.
  assert (Hin : In (Wire.set_quantity q x)
                   (update_nth i (Wire.set_quantity q) ps)).
  { apply (nth_error_In _ i). rewrite nth_error_update_nth, Hx.
    reflexivity. }
  specialize (E _ Hin). cbn [Wire.set_quantity Wire.quantity] in E.
  congruence.
Qed.

(** C6, as the code has it.  The add route looks the product up by the
    reference cast to an id, and looks for its line in the cart by
    comparing the rendering of each stored id with the reference as it was
    sent.  So an add whose reference renders the id of a product in
    another way than the canonical one (its letters in upper case) finds
    the product, finds no line for it although the cart has one, and
    pushes a second line for the same product: the cart then holds the
    product reference twice. *)
Theorem cart_add_by_another_rendering_adds_a_line {D : Driver}
  t added user pid qty s slot c oid p :
  castObjectId pid = Some oid ->
  find (is_product oid) (Wire.catalog s) = Some p ->
  product_isActive p = true ->
  findOne (Wire.cart_of user) (Wire.carts s) = Some (slot, c) ->
  In oid (map Wire.productId (Wire.products c)) ->
  (forall l, In l (Wire.products c) -> Wire.productId l <> pid) ->
  Wire.cart_valid c = true ->
  (1 <= match qty with Some q => q | None => 1 end)%Q ->
  let quantity := match qty with Some q => q | None => 1%Q end in
  pid <> oid
  /\ fst (Wire.post_cart_add t added user pid qty s)
     = mkResponse 200 (MessageBody "Product added to cart successfully")
  /\ Wire.cart_lines user (snd (Wire.post_cart_add t added user pid qty s))
     = (Wire.products c ++ [Wire.mkLine oid quantity added])%list
  /\ ~ NoDup (map Wire.productId
                (Wire.cart_lines user
                   (snd (Wire.post_cart_add t added user pid qty s)))).
Proof.
  intros Hc Hp Ha Hf Hin Hraw Hv Hq. cbv zeta.
  assert (Hne : pid <> oid).
  { intros ->. apply in_map_iff in Hin. destruct Hin as [l [Hl Hin]].
    exact (Hraw l Hin Hl). }
  assert (Ei : findIndex (Wire.is_line pid) (Wire.products c) = None).
  { apply findIndex_None. intros l Hl. unfold Wire.is_line.
    destruct (String.eqb_spec (Wire.productId l) pid); [|reflexivity].
    exfalso. exact (Hraw l Hl e). }
  assert (R : Wire.post_cart_add t added user pid qty s
              = (mkResponse 200
                   (MessageBody "Product added to cart successfully"),
                 Wire.mkStore (Wire.catalog s)
                   (update_nth slot
                      (fun _ =>
                         Wire.mkCart (Wire.userId c)
                           (Wire.products c
                            ++ [Wire.mkLine oid
                                  match qty with
                                  | Some q => q
                                  | None => 1%Q
                                  end added])%list t)
                      (Wire.carts s))
                   (Wire.console s))).
  { unfold Wire.post_cart_add. cbv zeta. rewrite Hc, Hp, Ha, Hf, Ei.
    cbn [negb option_map fst]. unfold Wire.save_and_answer.
    assert (V : Wire.cart_valid
                  (Wire.mkCart (Wire.userId c)
                     (Wire.products c
                      ++ [Wire.mkLine oid
                            match qty with Some q => q | None => 1%Q end
                            added])%list t) = true).
    { unfold Wire.cart_valid in *. cbn [Wire.products].
      rewrite forallb_app, Hv. cbn [forallb Wire.quantity].
      rewrite (proj2 (Qle_bool_iff _ _) Hq). reflexivity. }
    rewrite V. reflexivity. }
  split; [exact Hne|]. rewrite R. cbn [fst snd].
  split; [reflexivity|].
  rewrite (wire_cart_lines_saved user _ _ _ slot c _ Hf)
    by (cbn [Wire.userId]; eapply wire_cart_found_user; exact Hf).
  cbn [Wire.products]. split; [reflexivity|].
  rewrite map_app. cbn [map Wire.productId]. intros Hnd.
  apply NoDup_remove_2 in Hnd. apply Hnd. rewrite app_nil_r. exact Hin.
Qed.

Lemma cart_add_by_another_rendering_adds_a_line_witness :
  map (fun l => (Wire.productId l, Wire.quantity l))
      (Wire.cart_lines asha_id (wire_store shop2))
  = [("64a000000000000000000001", 2 # 1)]
  /\ @castObjectId hex_driver "64A000000000000000000001"
     = Some "64a000000000000000000001"
  /\ fst (@Wire.post_cart_add hex_driver 1700000005001 1700000005000
            asha_id "64A000000000000000000001" (Some (3 # 1))
            (wire_store shop2))
     = mkResponse 200 (MessageBody "Product added to cart successfully")
  /\ map (fun l => (Wire.productId l, Wire.quantity l))
         (Wire.cart_lines asha_id
            (snd (@Wire.post_cart_add hex_driver 1700000005001
                    1700000005000 asha_id "64A000000000000000000001"
                    (Some (3 # 1)) (wire_store shop2))))
     = [("64a000000000000000000001", 2 # 1);
        ("64a000000000000000000001", 3 # 1)].
Proof.
  assert (Hc : @castObjectId hex_driver "64A000000000000000000001"
               = Some "64a000000000000000000001") by reflexivity.
  eassert (Hp : find (is_product "64a000000000000000000001")
                     (Wire.catalog (wire_store shop2)) = Some _)
    by (vm_compute; reflexivity).
  eassert (Hf : findOne (Wire.cart_of asha_id)
                        (Wire.carts (wire_store shop2)) = Some (_, _))
    by (vm_compute; reflexivity).
  split; [vm_compute; reflexivity|]. split; [exact Hc|].
  destruct (@cart_add_by_another_rendering_adds_a_line hex_driver
              1700000005001 1700000005000 asha_id "64A000000000000000000001"
              (Some (3 # 1)) (wire_store shop2) _ _ _ _ Hc Hp eq_refl Hf)
    as (_ & Hr & Hl & _).
  - left. reflexivity.
  - intros l [<-|[]]. discriminate.
  - reflexivity.
  - discriminate.
  - split; [exact Hr|]. rewrite Hl. reflexivity.
Defined.

(** C7, as the code has it.  A cart-update call for a reference that the
    rendering of a line of the user's cart equals addresses the first such
    line.  With a quantity of zero or below the line is spliced out and
    the other lines stay; with a quantity of 1 or more the line's quantity
    becomes that value; with a quantity above zero and below 1 the
    schema's [min: 1] rejects the save, the answer is 500 "Internal server
    error", and the cart is as it was.  No line is ever stored with a
    quantity below 1. *)
Theorem cart_update_sets_removes_or_fails t user pid q s slot c i :
  findOne (Wire.cart_of user) (Wire.carts s) = Some (slot, c) ->
  findIndex (Wire.is_line pid) (Wire.products c) = Some i ->
  Wire.cart_valid c = true ->
  let resp := fst (Wire.put_cart_update t user pid q s) in
  let s' := snd (Wire.put_cart_update t user pid q s) in
  ((q <= 0)%Q ->
   resp = mkResponse 200 (MessageBody "Cart updated successfully")
   /\ Wire.cart_lines user s' = remove_nth i (Wire.products c))
  /\ ((1 <= q)%Q ->
      resp = mkResponse 200 (MessageBody "Cart updated successfully")
      /\ Wire.cart_lines user s'
         = update_nth i (Wire.set_quantity q) (Wire.products c)
      /\ option_map Wire.quantity (nth_error (Wire.cart_lines user s') i)
         = Some q)
  /\ ((0 < q)%Q -> (q < 1)%Q ->
      resp = mkResponse 500 (ErrorBody "Internal server error")
      /\ s' = Wire.mkStore (Wire.catalog s) (Wire.carts s)
                (Wire.console s ++ ["Update cart error:"])%list
      /\ Wire.cart_lines user s' = Wire.products c)
  /\ (forall l, In l (Wire.cart_lines user s') -> (1 <= Wire.quantity l)%Q).
Proof.
  intros Hf Hi Hv. cbv zeta.
  destruct (findIndex_Some _ _ _ Hi) as [x [Hx _]].
  pose proof (wire_cart_found_user _ _ _ _ Hf) as Hu.
  assert (Hlines : Wire.cart_lines user s = Wire.products c)
    by (unfold Wire.cart_lines; rewrite Hf; reflexivity).
  unfold Wire.put_cart_update. rewrite Hf, Hi. cbv zeta.
  unfold Wire.save_and_answer, Wire.cart_valid. cbn [Wire.products].
  unfold Wire.cart_valid in Hv.
  destruct (Qle_bool q 0) eqn:E0.
  - apply Qle_bool_iff in E0.
    rewrite (wire_valid_remove_nth _ i Hv). cbn [fst snd].
    rewrite (wire_cart_lines_saved user _ _ _ slot c _ Hf) by exact Hu.
    cbn [Wire.products].
    split; [intros _; split; reflexivity|].
    split; [intros H1; exfalso;
            apply (Qle_not_lt _ _ (Qle_trans _ _ _ H1 E0)); reflexivity|].
    split; [intros H0; exfalso; exact (Qle_not_lt _ _ E0 H0)|].
    intros l Hl. apply Qle_bool_iff.
    rewrite forallb_forall in Hv. apply Hv.
    eapply In_remove_nth. exact Hl.
  - assert (H0 : (0 < q)%Q).
    { apply Qnot_le_lt. intros H. apply Qle_bool_iff in H. congruence. }
    destruct (Qle_bool 1 q) eqn:E1.
    + rewrite (wire_valid_set_quantity _ i q Hv E1). cbn [fst snd].
      rewrite (wire_cart_lines_saved user _ _ _ slot c _ Hf) by exact Hu.
      cbn [Wire.products].
      split; [intros H; exfalso; exact (Qle_not_lt _ _ H H0)|].
      split.
      { intros _. split; [reflexivity|]. split; [reflexivity|].
        rewrite nth_error_update_nth, Hx. reflexivity. }
      split.
      { intros _ H1. exfalso. apply Qle_bool_iff in E1.
        exact (Qle_not_lt _ _ E1 H1). }
      intros l Hl. apply Qle_bool_iff.
      pose proof (wire_valid_set_quantity _ i q Hv E1) as V.
      rewrite forallb_forall in V. apply V. exact Hl.
    + rewrite (wire_invalid_set_quantity _ i x q Hx E1).
      unfold Wire.internal_error. cbn [fst snd].
      split; [intros H; exfalso; exact (Qle_not_lt _ _ H H0)|].
      split.
      { intros H1. apply Qle_bool_iff in H1. congruence. }
      assert (Hsame : Wire.cart_lines user
                        (Wire.mkStore (Wire.catalog s) (Wire.carts s)
                           (Wire.console s ++ ["Update cart error:"])%list)
                      = Wire.products c)
        by (unfold Wire.cart_lines; cbn [Wire.carts]; rewrite Hf;
            reflexivity).
      split; [intros _ _; split; [reflexivity|split; [reflexivity|]];
              exact Hsame|].
      rewrite Hsame. intros l Hl. apply Qle_bool_iff.
      rewrite forallb_forall in Hv. apply Hv. exact Hl.
Qed.

Lemma cart_update_sets_removes_or_fails_witness :
  map (fun l => (Wire.productId l, Wire.quantity l))
      (Wire.cart_lines asha_id (wire_store shop2))
  = [("64a000000000000000000001", 2 # 1)]
  /\ map (fun l => (Wire.productId l, Wire.quantity l))
         (Wire.cart_lines asha_id
            (snd (Wire.put_cart_update 1700000005000 asha_id
                    "64a000000000000000000001" (7 # 1) (wire_store shop2))))
     = [("64a000000000000000000001", 7 # 1)]
  /\ Wire.cart_lines asha_id
       (snd (Wire.put_cart_update 1700000005000 asha_id
               "64a000000000000000000001" (0 # 1) (wire_store shop2)))
     = [].
Proof.
  eassert (Hf : findOne (Wire.cart_of asha_id)
                        (Wire.carts (wire_store shop2)) = Some (_, _))
    by (vm_compute; reflexivity).
  assert (Hi : findIndex (Wire.is_line "64a000000000000000000001")
                 [Wire.mkLine "64a000000000000000000001" (2 # 1)
                              1700000000000] = Some 0%nat)
    by reflexivity.
  split; [vm_compute; reflexivity|]. split.
  - destruct (cart_update_sets_removes_or_fails 1700000005000 asha_id
                "64a000000000000000000001" (7 # 1) (wire_store shop2)
                _ _ _ Hf Hi eq_refl) as (_ & Hset & _).
    destruct (Hset ltac:(discriminate)) as (_ & -> & _). reflexivity.
  - destruct (cart_update_sets_removes_or_fails 1700000005000 asha_id
                "64a000000000000000000001" (0 # 1) (wire_store shop2)
                _ _ _ Hf Hi eq_refl) as (Hrm & _).
    destruct (Hrm ltac:(discriminate)) as (_ & ->). reflexivity.
Defined.

(** C7 as stated fails: a requested quantity of one half is greater than
    zero, but the line's quantity is not set to it; the request is
    answered 500 and the line keeps its quantity of 2. *)
Lemma cart_update_to_a_fraction_fails :
  (0 < 1 # 2)%Q
  /\ Wire.put_cart_update 1700000005000 asha_id "64a000000000000000000001"
       (1 # 2) (wire_store shop2)
     = (mkResponse 500 (ErrorBody "Internal server error"),
        Wire.mkStore (Wire.catalog (wire_store shop2))
          (Wire.carts (wire_store shop2))
          (Wire.console (wire_store shop2) ++ ["Update cart error:"])%list)
  /\ map (fun l => (Wire.productId l, Wire.quantity l))
         (Wire.cart_lines asha_id
            (snd (Wire.put_cart_update 1700000005000 asha_id
                    "64a000000000000000000001" (1 # 2) (wire_store shop2))))
     = [("64a000000000000000000001", 2 # 1)].
Proof.
  split; [reflexivity|]. split; vm_compute; reflexivity.
Qed.

(** ** Forgot-password and the addresses of the registered users *)





